(** * snake-3d-fps: the simulation loop of [game.js]

    A shallow embedding of the game logic of [src/game.js] (the per-frame
    [animate] function, [startGame], [endGame], the spawners and the input
    handlers) and the properties of its specification.

    JavaScript numbers.  Every quantity of the game is a JS [Number].  The
    embedding is written once, over an interface [Number] of the operations
    the code uses, and is instantiated twice:
    - [Double]: IEEE 754 binary64 through Rocq's primitive floats; the
      arithmetic of the real program, and it computes;
    - [Real]: the real numbers of the Standard Library, the arithmetic the
      program approximates, where [Math.sin], [Math.cos] and the algebra of
      the step and of the speed can be reasoned about.
    The integer-valued counters ([score], [tailLength]) are naturals.

    The environment.  [Math.random] is the sequence [rng] of the state,
    consumed in order; [clock.getDelta()] is the argument [dt] of a frame;
    the state of the pointer lock is an argument of the input handlers.

    Rendering ([scene], materials, geometries) is left out; the HUD text, the
    overlay and the number of rendered frames are kept as observable state. *)

From Stdlib Require Import String Arith ZArith Lia Bool List.
From Stdlib Require Import Reals Lra.
From Stdlib Require PrimFloat Uint63.
Import ListNotations.

Set Implicit Arguments.

(* ================================================================== *)
(** ** The JS [Number] interface *)

Declare Scope num_scope.
Delimit Scope num_scope with num.

(** Arithmetic and comparisons of a JS Number.  [ntruthy] is [ToBoolean]
    (false on [0], [-0] and [NaN]). *)
Class Number (num : Type) : Type := {
  ofZ : Z -> num;
  nadd : num -> num -> num;
  nsub : num -> num -> num;
  nmul : num -> num -> num;
  ndiv : num -> num -> num;
  nneg : num -> num;
  nsqrt : num -> num;
  nabs : num -> num;
  nlt : num -> num -> bool;
  nle : num -> num -> bool;
  ntruthy : num -> bool
}.

(** The transcendental part of [Math]. *)
Class Trig (num : Type) : Type := {
  nsin : num -> num;
  ncos : num -> num;
  npi : num
}.

Notation "a + b" := (nadd a b) : num_scope.
Notation "a - b" := (nsub a b) : num_scope.
Notation "a * b" := (nmul a b) : num_scope.
Notation "a / b" := (ndiv a b) : num_scope.
Notation "- a" := (nneg a) : num_scope.
Notation "a <? b" := (nlt a b) : num_scope.
Notation "a <=? b" := (nle a b) : num_scope.
Notation "a >? b" := (nlt b a) : num_scope.
Notation "a >=? b" := (nle b a) : num_scope.

(** An integer literal, and a decimal literal [n/d] with [d] a power of
    ten: the quotient of two exactly represented integers is correctly
    rounded, so on doubles [dec 7 10] is the double that the literal [0.7]
    denotes. *)
Notation "# z" := (ofZ z%Z) (at level 1, format "# z").

Definition dec {num} `{Number num} (n d : Z) : num := (#n / #d)%num.

(** *** IEEE 754 doubles *)

Definition double_ofZ (z : Z) : PrimFloat.float :=
  match z with
  | Z0 => PrimFloat.zero
  | Zpos _ => PrimFloat.of_uint63 (Uint63.of_Z z)
  | Zneg p => PrimFloat.opp (PrimFloat.of_uint63 (Uint63.of_Z (Zpos p)))
  end.

#[global] Instance Double : Number PrimFloat.float := {|
  ofZ := double_ofZ;
  nadd := PrimFloat.add;
  nsub := PrimFloat.sub;
  nmul := PrimFloat.mul;
  ndiv := PrimFloat.div;
  nneg := PrimFloat.opp;
  nsqrt := PrimFloat.sqrt;
  nabs := PrimFloat.abs;
  nlt := PrimFloat.ltb;
  nle := PrimFloat.leb;
  ntruthy := fun x => negb (PrimFloat.eqb x PrimFloat.zero || PrimFloat.is_nan x)
|}.

(** *** Real numbers *)

Definition Rltb (a b : R) : bool := if Rlt_dec a b then true else false.
Definition Rleb (a b : R) : bool := if Rle_dec a b then true else false.

#[global] Instance Real : Number R := {|
  ofZ := IZR;
  nadd := Rplus;
  nsub := Rminus;
  nmul := Rmult;
  ndiv := Rdiv;
  nneg := Ropp;
  nsqrt := sqrt;
  nabs := Rabs;
  nlt := Rltb;
  nle := Rleb;
  ntruthy := fun x => if Req_dec_T x 0%R then false else true
|}.

#[global] Instance RealTrig : Trig R := {| nsin := sin; ncos := cos; npi := PI |}.

(* ================================================================== *)
(** ** [Math] and [THREE.Vector3]

    The methods of three.js that the game calls on its vectors, as three.js
    defines them: [normalize] divides by the length, or by 1 when the
    length is zero, and a division by a scalar is the multiplication by its
    inverse; [distanceTo] is the distance in space. *)

Module Math.
Section Math.
Context {num : Type} {N : Number num} {T : Trig num}.
Definition sqrt : num -> num := nsqrt.
Definition abs : num -> num := nabs.
Definition sin : num -> num := nsin.
Definition cos : num -> num := ncos.
Definition PI : num := npi.
End Math.
End Math.

Section Vectors.
Context {num : Type} {N : Number num}.
Local Open Scope num_scope.

Record Vector3 : Type := vec3 { vx : num; vy : num; vz : num }.

Definition set_x (x : num) (v : Vector3) := vec3 x (vy v) (vz v).
Definition set_y (y : num) (v : Vector3) := vec3 (vx v) y (vz v).
Definition set_z (z : num) (v : Vector3) := vec3 (vx v) (vy v) z.

(** [this.x += v.x * s; ...] *)
Definition addScaledVector (p v : Vector3) (s : num) : Vector3 :=
  vec3 (vx p + vx v * s) (vy p + vy v * s) (vz p + vz v * s).

Definition multiplyScalar (v : Vector3) (s : num) : Vector3 :=
  vec3 (vx v * s) (vy v * s) (vz v * s).

Definition divideScalar (v : Vector3) (s : num) : Vector3 :=
  multiplyScalar v (#1 / s).

Definition vlength (v : Vector3) : num :=
  Math.sqrt (vx v * vx v + vy v * vy v + vz v * vz v).

(** [divideScalar(this.length() || 1)] *)
Definition normalize (v : Vector3) : Vector3 :=
  let l := vlength v in
  divideScalar v (if ntruthy l then l else #1).

Definition distanceToSquared (p q : Vector3) : num :=
  let dx := vx p - vx q in
  let dy := vy p - vy q in
  let dz := vz p - vz q in
  dx * dx + dy * dy + dz * dz.

Definition distanceTo (p q : Vector3) : num :=
  Math.sqrt (distanceToSquared p q).
End Vectors.

Arguments Vector3 : clear implicits.

(* ================================================================== *)
(** ** Game state *)

(** Text of the game-over overlay: [display] is [style.display <> 'none'],
    [heading] the [h1], and the paragraph
    [`${msg} Your score: ${score}. Click start to play again.`] is kept as
    its two holes [message] and [shownScore]. *)
Record Overlay : Type := mkOverlay {
  display : bool;
  heading : string;
  message : string;
  shownScore : nat
}.

Section Game.
Context {num : Type} {N : Number num} {T : Trig num}.
Local Open Scope num_scope.

(** An enemy mesh: its position and [userData.dir]. *)
Record Enemy : Type := mkEnemy { position : Vector3 num; dir : Vector3 num }.

(** A bullet [{ mesh, dir }]: the position of the mesh and the direction. *)
Record Bullet : Type := mkBullet { mesh : Vector3 num; bdir : Vector3 num }.

Record State : Type := mkState {
  yaw : num;  (* horizontal rotation (around Y) *)
  pitch : num;  (* vertical rotation *)
  camera : Vector3 num;  (* [camera.position] *)
  lastRecordPos : Vector3 num;  (* last recorded position for tail *)
  tailLength : nat;  (* number of segments *)
  stepAccumulator : num;  (* delta time accumulated until a step *)
  moveSpeed : num;  (* units per second *)
  score : nat;
  tailSegments : list (Vector3 num);  (* positions of the segment meshes *)
  tailPositions : list (Vector3 num);  (* recorded path positions *)
  foods : list (Vector3 num);  (* positions of the food meshes *)
  enemies : list Enemy;
  bullets : list Bullet;
  gameActive : bool;
  overlay : Overlay;  (* the overlay element *)
  hud : option (nat * nat);  (* score and length last written to the HUD *)
  rendered : nat;  (* calls of [renderer.render] *)
  rng : nat -> num;  (* the values [Math.random] returns, in order *)
  drawn : nat  (* how many of them were consumed *)
}.

(** Assignment to one variable of the closure. *)
Definition set_yaw (v : num) (s : State) : State :=
  mkState
    v (pitch s) (camera s) (lastRecordPos s) (tailLength s)
    (stepAccumulator s) (moveSpeed s) (score s) (tailSegments s) (tailPositions s)
    (foods s) (enemies s) (bullets s) (gameActive s) (overlay s)
    (hud s) (rendered s) (rng s) (drawn s).
Definition set_pitch (v : num) (s : State) : State :=
  mkState
    (yaw s) v (camera s) (lastRecordPos s) (tailLength s)
    (stepAccumulator s) (moveSpeed s) (score s) (tailSegments s) (tailPositions s)
    (foods s) (enemies s) (bullets s) (gameActive s) (overlay s)
    (hud s) (rendered s) (rng s) (drawn s).
Definition set_camera (v : Vector3 num) (s : State) : State :=
  mkState
    (yaw s) (pitch s) v (lastRecordPos s) (tailLength s)
    (stepAccumulator s) (moveSpeed s) (score s) (tailSegments s) (tailPositions s)
    (foods s) (enemies s) (bullets s) (gameActive s) (overlay s)
    (hud s) (rendered s) (rng s) (drawn s).
Definition set_lastRecordPos (v : Vector3 num) (s : State) : State :=
  mkState
    (yaw s) (pitch s) (camera s) v (tailLength s)
    (stepAccumulator s) (moveSpeed s) (score s) (tailSegments s) (tailPositions s)
    (foods s) (enemies s) (bullets s) (gameActive s) (overlay s)
    (hud s) (rendered s) (rng s) (drawn s).
Definition set_tailLength (v : nat) (s : State) : State :=
  mkState
    (yaw s) (pitch s) (camera s) (lastRecordPos s) v
    (stepAccumulator s) (moveSpeed s) (score s) (tailSegments s) (tailPositions s)
    (foods s) (enemies s) (bullets s) (gameActive s) (overlay s)
    (hud s) (rendered s) (rng s) (drawn s).
Definition set_stepAccumulator (v : num) (s : State) : State :=
  mkState
    (yaw s) (pitch s) (camera s) (lastRecordPos s) (tailLength s)
    v (moveSpeed s) (score s) (tailSegments s) (tailPositions s)
    (foods s) (enemies s) (bullets s) (gameActive s) (overlay s)
    (hud s) (rendered s) (rng s) (drawn s).
Definition set_moveSpeed (v : num) (s : State) : State :=
  mkState
    (yaw s) (pitch s) (camera s) (lastRecordPos s) (tailLength s)
    (stepAccumulator s) v (score s) (tailSegments s) (tailPositions s)
    (foods s) (enemies s) (bullets s) (gameActive s) (overlay s)
    (hud s) (rendered s) (rng s) (drawn s).
Definition set_score (v : nat) (s : State) : State :=
  mkState
    (yaw s) (pitch s) (camera s) (lastRecordPos s) (tailLength s)
    (stepAccumulator s) (moveSpeed s) v (tailSegments s) (tailPositions s)
    (foods s) (enemies s) (bullets s) (gameActive s) (overlay s)
    (hud s) (rendered s) (rng s) (drawn s).
Definition set_tailSegments (v : list (Vector3 num)) (s : State) : State :=
  mkState
    (yaw s) (pitch s) (camera s) (lastRecordPos s) (tailLength s)
    (stepAccumulator s) (moveSpeed s) (score s) v (tailPositions s)
    (foods s) (enemies s) (bullets s) (gameActive s) (overlay s)
    (hud s) (rendered s) (rng s) (drawn s).
Definition set_tailPositions (v : list (Vector3 num)) (s : State) : State :=
  mkState
    (yaw s) (pitch s) (camera s) (lastRecordPos s) (tailLength s)
    (stepAccumulator s) (moveSpeed s) (score s) (tailSegments s) v
    (foods s) (enemies s) (bullets s) (gameActive s) (overlay s)
    (hud s) (rendered s) (rng s) (drawn s).
Definition set_foods (v : list (Vector3 num)) (s : State) : State :=
  mkState
    (yaw s) (pitch s) (camera s) (lastRecordPos s) (tailLength s)
    (stepAccumulator s) (moveSpeed s) (score s) (tailSegments s) (tailPositions s)
    v (enemies s) (bullets s) (gameActive s) (overlay s)
    (hud s) (rendered s) (rng s) (drawn s).
Definition set_enemies (v : list Enemy) (s : State) : State :=
  mkState
    (yaw s) (pitch s) (camera s) (lastRecordPos s) (tailLength s)
    (stepAccumulator s) (moveSpeed s) (score s) (tailSegments s) (tailPositions s)
    (foods s) v (bullets s) (gameActive s) (overlay s)
    (hud s) (rendered s) (rng s) (drawn s).
Definition set_bullets (v : list Bullet) (s : State) : State :=
  mkState
    (yaw s) (pitch s) (camera s) (lastRecordPos s) (tailLength s)
    (stepAccumulator s) (moveSpeed s) (score s) (tailSegments s) (tailPositions s)
    (foods s) (enemies s) v (gameActive s) (overlay s)
    (hud s) (rendered s) (rng s) (drawn s).
Definition set_gameActive (v : bool) (s : State) : State :=
  mkState
    (yaw s) (pitch s) (camera s) (lastRecordPos s) (tailLength s)
    (stepAccumulator s) (moveSpeed s) (score s) (tailSegments s) (tailPositions s)
    (foods s) (enemies s) (bullets s) v (overlay s)
    (hud s) (rendered s) (rng s) (drawn s).
Definition set_overlay (v : Overlay) (s : State) : State :=
  mkState
    (yaw s) (pitch s) (camera s) (lastRecordPos s) (tailLength s)
    (stepAccumulator s) (moveSpeed s) (score s) (tailSegments s) (tailPositions s)
    (foods s) (enemies s) (bullets s) (gameActive s) v
    (hud s) (rendered s) (rng s) (drawn s).
Definition set_hud (v : option (nat * nat)) (s : State) : State :=
  mkState
    (yaw s) (pitch s) (camera s) (lastRecordPos s) (tailLength s)
    (stepAccumulator s) (moveSpeed s) (score s) (tailSegments s) (tailPositions s)
    (foods s) (enemies s) (bullets s) (gameActive s) (overlay s)
    v (rendered s) (rng s) (drawn s).
Definition set_rendered (v : nat) (s : State) : State :=
  mkState
    (yaw s) (pitch s) (camera s) (lastRecordPos s) (tailLength s)
    (stepAccumulator s) (moveSpeed s) (score s) (tailSegments s) (tailPositions s)
    (foods s) (enemies s) (bullets s) (gameActive s) (overlay s)
    (hud s) v (rng s) (drawn s).
Definition set_drawn (v : nat) (s : State) : State :=
  mkState
    (yaw s) (pitch s) (camera s) (lastRecordPos s) (tailLength s)
    (stepAccumulator s) (moveSpeed s) (score s) (tailSegments s) (tailPositions s)
    (foods s) (enemies s) (bullets s) (gameActive s) (overlay s)
    (hud s) (rendered s) (rng s) v.

(** *** Game world parameters *)

Definition worldSize : num := #50.         (* half-width of the play area *)
Definition floorY : num := #0.
Definition snakeHeight : num := dec 16 10. (* eye height, 1.6 *)
Definition recordStep : num := dec 5 10.
Definition bulletSpeed : num := #25.
Definition enemySpeed : num := #1.
Definition stepInterval : num := dec 7 10. (* seconds between steps, 0.7 *)
Definition stepSize : num := dec 7 10.     (* distance moved per step, 0.7 *)

Definition msgEnemy : string := "You were eaten by an enemy!".
Definition msgSelf : string := "You ran into yourself!".
Definition msgWall : string := "You hit the wall!".

(** *** Array helpers *)

(** [a.splice(i, 1)] *)
Definition removeAt {A : Type} (i : nat) (l : list A) : list A :=
  firstn i l ++ skipn (S i) l.

(** In-place update of the object stored at index [i]. *)
Fixpoint setAt {A : Type} (i : nat) (v : A) (l : list A) : list A :=
  match l, i with
  | [], _ => []
  | _ :: t, O => v :: t
  | h :: t, S j => h :: setAt j v t
  end.

(** *** Spawning *)

(** [Math.random()]: the next value of the host's generator. *)
Definition Math_random (s : State) : num * State :=
  (rng s (drawn s), set_drawn (S (drawn s)) s).

Definition randomPosition (margin : num) (s : State) : Vector3 num * State :=
  let range := worldSize - margin in
  let (r1, s) := Math_random s in
  let x := (r1 * #2 - #1) * range in
  let (r2, s) := Math_random s in
  let z := (r2 * #2 - #1) * range in
  (vec3 x (floorY + dec 5 10) z, s).

Definition isPointNearSnake (s : State) (pos : Vector3 num) : bool :=
  let dx := vx pos - vx (camera s) in
  let dz := vz pos - vz (camera s) in
  let dist := Math.sqrt (dx * dx + dz * dz) in
  dist <? #5.

(** [do { pos = randomPosition(); tries++; }
     while (isPointNearSnake(pos) && tries < 10);]
    The loop leaves by its own test after at most ten draws; started with
    ten units of [fuel] it never runs out of them. *)
Fixpoint drawPosition (fuel tries : nat) (s : State) : Vector3 num * State :=
  let (pos, s) := randomPosition #2 s in
  let tries := S tries in
  match fuel with
  | O => (pos, s)
  | S fuel =>
      if isPointNearSnake s pos && (tries <? 10)%nat
      then drawPosition fuel tries s
      else (pos, s)
  end.

Definition spawnFood (s : State) : State :=
  let (pos, s) := drawPosition 10 0 s in
  set_foods (foods s ++ [pos]) s.

Definition spawnEnemy (s : State) : State :=
  let (pos, s) := drawPosition 10 0 s in
  let (r1, s) := Math_random s in
  let (r2, s) := Math_random s in
  let d := normalize (vec3 (r1 * #2 - #1) #0 (r2 * #2 - #1)) in
  set_enemies (enemies s ++ [mkEnemy pos d]) s.

(** The segments [startGame] and [initScene] create:
    [seg.position.set(0, 0.2, -i * recordStep)] for [i = from, ...]. *)
Fixpoint newSegments (from count : nat) : list (Vector3 num) :=
  match count with
  | O => []
  | S c =>
      vec3 #0 (dec 2 10) (- #(Z.of_nat from) * recordStep)
        :: newSegments (S from) c
  end.

(** *** End of a session *)

Definition endGame (msg : string) (s : State) : State :=
  let s := set_gameActive false s in
  set_overlay (mkOverlay true "Game Over" msg (score s)) s.

(** *** Input handlers *)

Definition sensitivity : num := dec 25 10000.

(** [locked] is [document.pointerLockElement === document.body]. *)
Definition onMouseMove (locked : bool) (movementX movementY : num)
    (s : State) : State :=
  if negb (gameActive s) || negb locked then s else
  let s := set_yaw (yaw s - movementX * sensitivity) s in
  let s := set_pitch (pitch s - movementY * sensitivity) s in
  let maxPitch := Math.PI / #2 - dec 5 100 in
  let s := if pitch s >? maxPitch then set_pitch maxPitch s else s in
  if pitch s <? - maxPitch then set_pitch (- maxPitch) s else s.

Definition shoot (s : State) : State :=
  let startPos := camera s in
  let d := vec3 (Math.sin (yaw s) * Math.cos (pitch s))
                (Math.sin (pitch s))
                (Math.cos (yaw s) * Math.cos (pitch s)) in
  let d := normalize d in
  set_bullets (bullets s ++ [mkBullet startPos d]) s.

Definition onMouseDown (locked : bool) (button : nat) (s : State) : State :=
  if negb (gameActive s) then s else
  if negb locked then s else
  if (button =? 0)%nat then shoot s else s.

(** *** The frame: [animate] *)

(** Lines 292-313: the forward vector and the step. *)
Definition stepPhase (dt : num) (s : State) : State :=
  let forward := vec3 (Math.sin (yaw s)) #0 (Math.cos (yaw s)) in
  let forward := normalize forward in
  let s := set_stepAccumulator (stepAccumulator s + dt) s in
  if stepAccumulator s >=? stepInterval then
    let s := set_stepAccumulator (stepAccumulator s - stepInterval) s in
    let stepDir := normalize forward in
    let s := set_camera (addScaledVector (camera s) stepDir stepSize) s in
    let s := set_camera (set_y snakeHeight (camera s)) s in
    set_tailPositions (tailPositions s ++ [camera s]) s
  else s.

(** Lines 317-320: [tailPositions.splice(0, length - maxPositions)]. *)
Definition trimTrail (s : State) : State :=
  let maxPositions := (length (tailSegments s) + 50)%nat in
  if (maxPositions <? length (tailPositions s))%nat then
    set_tailPositions
      (skipn (length (tailPositions s) - maxPositions) (tailPositions s)) s
  else s.

(** Lines 322-328 (and again 330-336): each segment follows the path.
    [n] counts the iterations left, [i] is the loop variable. *)
Fixpoint followLoop (n i : nat) (s : State) : State :=
  match n with
  | O => s
  | S n' =>
      let idx := (Z.of_nat (length (tailPositions s)) - 1 - Z.of_nat i)%Z in
      let s :=
        if (0 <=? idx)%Z then
          match nth_error (tailPositions s) (Z.to_nat idx) with
          | Some p =>
              set_tailSegments
                (setAt i (vec3 (vx p) (dec 2 10) (vz p)) (tailSegments s)) s
          | None => s
          end
        else s in
      followLoop n' (S i) s
  end.

Definition followTrail (s : State) : State :=
  followLoop (length (tailSegments s)) 0 s.

(** Lines 348-360: the enemies are scanned from the last one down; [j] is
    one more than the index looked at. *)
Fixpoint hitEnemy (b : Bullet) (i j : nat) (s : State) : State :=
  match j with
  | O => s
  | S j' =>
      match nth_error (enemies s) j' with
      | Some e =>
          let dist := distanceTo (mesh b) (position e) in
          if dist <? dec 6 10 then
            let s := set_enemies (removeAt j' (enemies s)) s in
            let s := set_bullets (removeAt i (bullets s)) s in
            set_score (score s + 5) s
          else hitEnemy b i j' s
      | None => hitEnemy b i j' s
      end
  end.

(** Lines 339-360: the body of the bullet loop at index [i]. *)
Definition bulletStep (dt : num) (i : nat) (s : State) : State :=
  match nth_error (bullets s) i with
  | None => s
  | Some b =>
      let b := mkBullet (addScaledVector (mesh b) (bdir b) (bulletSpeed * dt))
                        (bdir b) in
      let s := set_bullets (setAt i b (bullets s)) s in
      if (Math.abs (vx (mesh b)) >? worldSize + #5)
         || (Math.abs (vz (mesh b)) >? worldSize + #5) then
        set_bullets (removeAt i (bullets s)) s
      else hitEnemy b i (length (enemies s)) s
  end.

(** [for (let i = bullets.length - 1; i >= 0; i--)]; [n] is [i + 1]. *)
Fixpoint bulletLoop (dt : num) (n : nat) (s : State) : State :=
  match n with
  | O => s
  | S i => bulletLoop dt i (bulletStep dt i s)
  end.

Definition updateBullets (dt : num) (s : State) : State :=
  bulletLoop dt (length (bullets s)) s.

(** Lines 363-372: wandering and bouncing of one enemy. *)
Definition wander (dt : num) (e : Enemy) : Enemy :=
  let d := dir e in
  let p := addScaledVector (position e) d (enemySpeed * dt) in
  let d := if (vx p >? worldSize - #1) || (vx p <? - worldSize + #1)
           then set_x (vx d * - #1) d else d in
  let d := if (vz p >? worldSize - #1) || (vz p <? - worldSize + #1)
           then set_z (vz d * - #1) d else d in
  mkEnemy (set_y (floorY + dec 5 10) p) d.

Definition updateEnemies (dt : num) (s : State) : State :=
  set_enemies (map (wander dt) (enemies s)) s.

(** Lines 378-399: the food at index [i] is collected. *)
Definition collect (i : nat) (s : State) : State :=
  let s := set_foods (removeAt i (foods s)) s in
  let s := set_tailLength (tailLength s + 2) s in
  let s := set_moveSpeed (moveSpeed s + dec 5 100) s in
  let s := set_score (score s + 1) s in
  let seg := vec3 (vx (camera s)) (dec 2 10) (vz (camera s)) in
  let s := set_tailSegments (tailSegments s ++ [seg]) s in
  let s := set_tailSegments (tailSegments s ++ [seg]) s in
  let s := spawnFood s in
  if (length (enemies s) <? 5)%nat then
    let (r, s) := Math_random s in
    if r <? dec 3 10 then spawnEnemy s else s
  else s.

(** Lines 375-400: the body of the food loop at index [i]. *)
Definition foodStep (i : nat) (s : State) : State :=
  match nth_error (foods s) i with
  | None => s
  | Some f =>
      let dist := distanceTo (camera s) f in
      if dist <? #1 then collect i s else s
  end.

(** [for (let i = foods.length - 1; i >= 0; i--)]; [n] is [i + 1]. *)
Fixpoint foodLoop (n : nat) (s : State) : State :=
  match n with
  | O => s
  | S i => foodLoop i (foodStep i s)
  end.

Definition collectFoods (s : State) : State :=
  foodLoop (length (foods s)) s.

(** Lines 403-410; [n] is one more than the index looked at. *)
Fixpoint enemyLoop (n : nat) (s : State) : bool :=
  match n with
  | O => false
  | S i =>
      match nth_error (enemies s) i with
      | Some e =>
          let dist := distanceTo (camera s) (position e) in
          if dist <? #1 then true else enemyLoop i s
      | None => enemyLoop i s
      end
  end.

Definition hitsEnemy (s : State) : bool :=
  enemyLoop (length (enemies s)) s.

(** Lines 417-423: [for (let i = 3; i < tailSegments.length; i++)];
    [fuel] bounds the number of iterations. *)
Fixpoint selfLoop (fuel i : nat) (s : State) : bool :=
  match fuel with
  | O => false
  | S fuel =>
      if (i <? length (tailSegments s))%nat then
        match nth_error (tailSegments s) i with
        | Some seg =>
            let dist := distanceTo (camera s) seg in
            if dist <? dec 4 10 then true else selfLoop fuel (S i) s
        | None => false
        end
      else false
  end.

Definition hitsSelf (s : State) : bool :=
  selfLoop (length (tailSegments s)) 3 s.

(** Lines 425-426. *)
Definition hitsWall (s : State) : bool :=
  (vx (camera s) >? worldSize - dec 5 10)
  || (vx (camera s) <? - worldSize + dec 5 10)
  || (vz (camera s) >? worldSize - dec 5 10)
  || (vz (camera s) <? - worldSize + dec 5 10).

(** Lines 290-401: everything the frame does before the three checks
    that can end the session. *)
Definition simulate (dt : num) (s : State) : State :=
  let s := stepPhase dt s in
  let s := trimTrail s in
  let s := followTrail s in
  let s := followTrail s in
  let s := updateBullets dt s in
  let s := updateEnemies dt s in
  collectFoods s.

(** Lines 430-432: the HUD text and the rendering. *)
Definition present (s : State) : State :=
  let s := set_hud (Some (score s, length (tailSegments s))) s in
  set_rendered (S (rendered s)) s.

(** One call of [animate], [dt] being what [clock.getDelta()] returns. *)
Definition animate (dt : num) (s : State) : State :=
  if negb (gameActive s) then s else
  let s := simulate dt s in
  if hitsEnemy s then endGame msgEnemy s else
  if hitsSelf s then endGame msgSelf s else
  if hitsWall s then endGame msgWall s else
  present s.

(** *** Start of a session *)

(** Lines 187-227 of [startGame]: the reset. *)
Definition resetGame (s : State) : State :=
  let s := set_overlay (mkOverlay false (heading (overlay s))
                          (message (overlay s)) (shownScore (overlay s))) s in
  let s := set_yaw #0 s in
  let s := set_pitch #0 s in
  let s := set_camera (vec3 #0 snakeHeight #0) s in
  let s := set_lastRecordPos (camera s) s in
  let s := set_tailLength 5 s in
  let s := set_stepAccumulator #0 s in
  let s := set_moveSpeed #2 s in
  let s := set_score 0 s in
  let s := set_foods [] s in
  let s := set_enemies [] s in
  let s := set_bullets [] s in
  let s := set_tailPositions [] s in
  let s := set_tailSegments [] s in
  let s := set_tailSegments (newSegments 0 (tailLength s)) s in
  let s := spawnFood s in
  let s := spawnFood s in
  let s := spawnEnemy s in
  let s := spawnEnemy s in
  set_gameActive true s.

(** [startGame]; it ends with a first call of [animate], whose
    [clock.getDelta()] returns [dt]. *)
Definition startGame (dt : num) (s : State) : State :=
  if gameActive s then s else animate dt (resetGame s).

(** [initScene] and the initial values of the closure's variables;
    [page] is the overlay of the HTML page. *)
Definition initScene (page : Overlay) (rnd : nat -> num) : State :=
  let s := mkState #0 #0 (vec3 #0 snakeHeight #0) (vec3 #0 snakeHeight #0)
             5 #0 #2 0 [] [] [] [] [] false page None 0 rnd 0 in
  let s := set_tailSegments (newSegments 0 (tailLength s)) s in
  let s := spawnFood s in
  let s := spawnFood s in
  let s := spawnEnemy s in
  let s := spawnEnemy s in
  set_lastRecordPos (camera s) s.

(** *** Runs *)

(** What the browser delivers to the page. *)
Inductive Event : Type :=
| Frame (dt : num)
| Start (dt : num)
| MouseMove (locked : bool) (movementX movementY : num)
| MouseDown (locked : bool) (button : nat).

Definition handle (e : Event) (s : State) : State :=
  match e with
  | Frame dt => animate dt s
  | Start dt => startGame dt s
  | MouseMove l mx my => onMouseMove l mx my s
  | MouseDown l b => onMouseDown l b s
  end.

Definition run (es : list Event) (s : State) : State :=
  fold_left (fun s e => handle e s) es s.

End Game.

Arguments Enemy : clear implicits.
Arguments Bullet : clear implicits.
Arguments State : clear implicits.
Arguments Event : clear implicits.

(* ================================================================== *)
(** ** Notions used in the statements *)

Section Notions.
Context {num : Type} {N : Number num} {T : Trig num}.
Local Open Scope num_scope.

(** [stepDir], and the position the step moves the camera to. *)
Definition stepDir (s : State num) : Vector3 num :=
  normalize (normalize (vec3 (Math.sin (yaw s)) #0 (Math.cos (yaw s)))).

Definition stepTarget (s : State num) : Vector3 num :=
  set_y snakeHeight (addScaledVector (camera s) (stepDir s) stepSize).

(** The test of line 351. *)
Definition bulletNear (b : Bullet num) (e : Enemy num) : bool :=
  distanceTo (mesh b) (position e) <? dec 6 10.

(** The test of line 342. *)
Definition outOfWorld (b : Bullet num) : bool :=
  (Math.abs (vx (mesh b)) >? worldSize + #5)
  || (Math.abs (vz (mesh b)) >? worldSize + #5).

(** Line 340: the bullet after its move. *)
Definition fly (dt : num) (b : Bullet num) : Bullet num :=
  mkBullet (addScaledVector (mesh b) (bdir b) (bulletSpeed * dt)) (bdir b).

(** The test of line 377. *)
Definition foodNear (s : State num) (f : Vector3 num) : bool :=
  distanceTo (camera s) f <? #1.

(** The segment pushed (twice) when a food is collected. *)
Definition grownSegment (s : State num) : Vector3 num :=
  vec3 (vx (camera s)) (dec 2 10) (vz (camera s)).

(** The state after [k] collections that leave the foods [fs], the
    generator at [d], and the new enemies [es]. *)
Definition collected (k : nat) (fs : list (Vector3 num)) (d : nat)
    (es : list (Enemy num)) (s : State num) : State num :=
  set_enemies (enemies s ++ es)
    (set_drawn d
       (set_foods fs
          (set_tailSegments (tailSegments s ++ repeat (grownSegment s) (2 * k))
             (set_score (score s + k)%nat
                (set_moveSpeed (Nat.iter k (fun v => v + dec 5 100) (moveSpeed s))
                   (set_tailLength (tailLength s + 2 * k)%nat s)))))).

(** The height of the foods and enemies the spawners make. *)
Definition onFloor (v : Vector3 num) : Prop := vy v = floorY + dec 5 10.

(** The test of line 406. *)
Definition playerNear (s : State num) (e : Enemy num) : bool :=
  distanceTo (camera s) (position e) <? #1.

(** The test of line 420. *)
Definition segmentNear (s : State num) (seg : Vector3 num) : bool :=
  distanceTo (camera s) seg <? dec 4 10.

(** The registries emptied. *)
Definition cleared (s : State num) : State num :=
  set_foods [] (set_enemies [] (set_bullets []
    (set_tailPositions [] (set_tailSegments [] s)))).

(** The heights the game gives to its objects: the camera at eye height,
    the foods and the enemies at [floorY + 0.5], the segments at 0.2. *)
Definition Level (s : State num) : Prop :=
  vy (camera s) = snakeHeight /\
  Forall onFloor (foods s) /\
  Forall (fun e => onFloor (position e)) (enemies s) /\
  Forall (fun seg => vy seg = dec 2 10) (tailSegments s).

(** Where the follow loop puts the segment of index [j]: under the trail
    entry [j] places before the newest one, when there is one. *)
Definition followed (s : State num) (j : nat) (seg : Vector3 num) : Vector3 num :=
  match nth_error (rev (tailPositions s)) j with
  | Some p => vec3 (vx p) (dec 2 10) (vz p)
  | None => seg
  end.

(** The position [randomPosition(2)] makes of the draws [d] and [d + 1] of
    the generator. *)
Definition candidate (s : State num) (d : nat) : Vector3 num :=
  vec3 ((rng s d * #2 - #1) * (worldSize - #2)) (floorY + dec 5 10)
       ((rng s (S d) * #2 - #1) * (worldSize - #2)).

(** Two states that differ at most by [moveSpeed] and [lastRecordPos]. *)
Definition sameButUnread (s s' : State num) : Prop :=
  exists v p, s' = set_lastRecordPos p (set_moveSpeed v s).
End Notions.

(** The events of a session under way: everything but a click on the
    start button. *)
Definition inSession {num : Type} (e : Event num) : Prop :=
  match e with
  | Start _ => False
  | _ => True
  end.

(** *** Heights, over the reals *)

Definition onGround (seg : Vector3 R) : Prop := vy seg = (2 / 10)%R.

(** The camera at eye height, the foods and the segments at theirs. *)
Definition Grounded (s : State R) : Prop :=
  vy (camera s) = (16 / 10)%R /\
  Forall onFloor (foods s) /\
  Forall onGround (tailSegments s).

(** What no event changes in a game over the reals. *)
Definition Steady (s : State R) : Prop :=
  Grounded s /\ tailLength s = 5%nat /\ length (tailSegments s) = 5%nat /\
  moveSpeed s = 2%R /\ length (foods s) = 2%nat.

(** *** Sample states *)

(** A running session over the reals with nothing in the arena: the player
    at the origin, five segments behind it. *)
Definition emptyArena : State R :=
  mkState 0%R 0%R (vec3 0 (16 / 10) 0)%R (vec3 0 (16 / 10) 0)%R
    5 0%R 2%R 0 (newSegments 0 5) [] [] [] []
    true (mkOverlay false "" "" 0) None 0 (fun _ => 0%R) 0.

(** A running session over the reals in which an enemy stands where the
    player is (at the height of the enemies), behind four segments of which
    the last is at the same place. *)
Definition cornered : State R :=
  mkState 0%R 0%R (vec3 0 (5 / 10) 0)%R (vec3 0 (16 / 10) 0)%R
    5 0%R 2%R 0
    [vec3 0 0 9; vec3 0 0 9; vec3 0 0 9; vec3 0 (5 / 10) 0]%R
    [] [] [mkEnemy (vec3 0 (5 / 10) 0) (vec3 0 0 0)]%R []
    true (mkOverlay false "" "" 0) None 0 (fun _ => 0%R) 0.

(** A running session over the reals in which the player, lowered to the
    height of the segments, is on the first three of its five segments; the
    other two are 1.5 and 2 behind. *)
Definition headOnBody : State R :=
  mkState 0%R 0%R (vec3 0 (2 / 10) 0)%R (vec3 0 (16 / 10) 0)%R
    5 0%R 2%R 0
    [vec3 0 (2 / 10) 0; vec3 0 (2 / 10) 0; vec3 0 (2 / 10) (1 / 10);
     vec3 0 (2 / 10) (- (15 / 10)); vec3 0 (2 / 10) (- 2)]%R
    [] [] [] []
    true (mkOverlay false "" "" 0) None 0 (fun _ => 0%R) 0.


(** A bullet at [x = 54] flying along [x], and an enemy at [x = 56.5],
    beyond the bounds ([|x| > 55]). *)
Definition aBullet : Bullet PrimFloat.float :=
  mkBullet (vec3 #54 (dec 5 10) #0) (vec3 #1 #0 #0).

Definition anEnemy : Enemy PrimFloat.float :=
  mkEnemy (vec3 (dec 565 10) (dec 5 10) #0) (vec3 #0 #0 #0).

(** A running session on doubles with this bullet and this enemy. *)
Definition strayBullet : State PrimFloat.float :=
  mkState #0 #0 (vec3 #0 (dec 16 10) #0) (vec3 #0 (dec 16 10) #0)
    5 #0 #2 0 (newSegments 0 5) [] [] [anEnemy] [aBullet]
    true (mkOverlay false "" "" 0) None 0 (fun _ => dec 9 10) 0.

(** A running session on doubles with two bullets, the second one the
    stray bullet, and an enemy far from both. *)
Definition twoBullets : State PrimFloat.float :=
  mkState #0 #0 (vec3 #0 (dec 16 10) #0) (vec3 #0 (dec 16 10) #0)
    5 #0 #2 0 (newSegments 0 5) [] []
    [mkEnemy (vec3 #20 (dec 5 10) #20) (vec3 #0 #0 #0)]
    [mkBullet (vec3 #1 (dec 16 10) #2) (vec3 #0 #0 #1); aBullet]
    true (mkOverlay false "" "" 0) None 0 (fun _ => dec 9 10) 0.

(** A session on doubles with a food, an enemy, a bullet and a recorded
    position. *)
Definition crowded : State PrimFloat.float :=
  mkState #0 #0 (vec3 #0 (dec 16 10) (dec 7 10)) (vec3 #0 (dec 16 10) #0)
    5 #0 #2 0 (newSegments 0 5) [vec3 #0 (dec 16 10) (dec 7 10)]
    [vec3 #30 (dec 5 10) #30] [anEnemy] [aBullet]
    true (mkOverlay false "" "" 0) None 0 (fun _ => dec 9 10) 0.

(* ================================================================== *)
(** ** What the spawners change *)

Section Spawning.
Context {num : Type} {N : Number num} {T : Trig num}.
Local Open Scope num_scope.

(** A position drawn by [randomPosition] lies at height [floorY + 0.5]. *)
Lemma randomPosition_spec (m : num) (s : State num) :
  exists x z,
    randomPosition m s = (vec3 x (floorY + dec 5 10) z, set_drawn (S (S (drawn s))) s).
Proof.
  unfold randomPosition, Math_random. cbn. eauto.
Qed.

Lemma drawPosition_spec (fuel tries : nat) (s : State num) :
  exists x z d,
    drawPosition fuel tries s = (vec3 x (floorY + dec 5 10) z, set_drawn d s).
Proof.
  revert tries s. induction fuel as [|fuel IH]; intros tries s; cbn [drawPosition].
  - destruct (randomPosition_spec #2 s) as (x & z & ->). eauto.
  - destruct (randomPosition_spec #2 s) as (x & z & ->).
    destruct (_ && _).
    + destruct (IH (S tries) (set_drawn (S (S (drawn s))) s)) as (x' & z' & d & ->).
      exists x', z', d. destruct s; reflexivity.
    + eauto.
Qed.

(** With ten units of fuel or more the loop of the spawners leaves by its own
    test: more fuel changes nothing. *)
Lemma drawPosition_fuel (fuel tries : nat) (s : State num) :
  10 <= fuel + tries ->
  drawPosition (S fuel) tries s = drawPosition fuel tries s.
Proof.
  revert tries s. induction fuel as [|fuel IH]; intros tries s H.
  - cbn [drawPosition]. destruct (randomPosition #2 s) as [pos s'].
    destruct (Nat.ltb_spec (S tries) 10) as [Hlt|_]; [lia|].
    now rewrite andb_false_r.
  - change (drawPosition (S (S fuel)) tries s)
      with (let (pos, s) := randomPosition #2 s in
            if isPointNearSnake s pos && (S tries <? 10)%nat
            then drawPosition (S fuel) (S tries) s else (pos, s)).
    change (drawPosition (S fuel) tries s)
      with (let (pos, s) := randomPosition #2 s in
            if isPointNearSnake s pos && (S tries <? 10)%nat
            then drawPosition fuel (S tries) s else (pos, s)).
    destruct (randomPosition #2 s) as [pos s'].
    rewrite IH by lia. reflexivity.
Qed.

Lemma spawnFood_spec (s : State num) :
  exists x z d,
    spawnFood s = set_foods (foods s ++ [vec3 x (floorY + dec 5 10) z]) (set_drawn d s).
Proof.
  unfold spawnFood.
  destruct (drawPosition_spec 10 0 s) as (x & z & d & ->).
  exists x, z, d. reflexivity.
Qed.

Lemma spawnEnemy_spec (s : State num) :
  exists x z v d,
    spawnEnemy s =
    set_enemies (enemies s ++ [mkEnemy (vec3 x (floorY + dec 5 10) z) v])
      (set_drawn d s).
Proof.
  unfold spawnEnemy.
  destruct (drawPosition_spec 10 0 s) as (x & z & d & ->).
  unfold Math_random. cbn.
  eexists x, z, _, _. destruct s; reflexivity.
Qed.
End Spawning.

(* ================================================================== *)
(** ** Arrays *)

Section Arrays.
Context {A : Type}.

Lemma setAt_length (i : nat) (v : A) (l : list A) :
  length (setAt i v l) = length l.
Proof.
  revert i; induction l as [|h t IH]; intros [|i]; cbn; auto.
Qed.

Lemma removeAt_length (i : nat) (l : list A) :
  i < length l -> length (removeAt i l) = pred (length l).
Proof.
  intros Hi. unfold removeAt.
  rewrite length_app, length_firstn, length_skipn. lia.
Qed.

Lemma removeAt_length_le (i : nat) (l : list A) :
  length (removeAt i l) <= length l.
Proof.
  unfold removeAt.
  rewrite length_app, length_firstn, length_skipn. lia.
Qed.

(** Removing the last element of the first part of an array. *)
Lemma removeAt_middle (pre post : list A) (x : A) :
  removeAt (length pre) (pre ++ x :: post) = pre ++ post.
Proof.
  unfold removeAt.
  induction pre as [|h t IH]; simpl; [reflexivity | f_equal; exact IH].
Qed.

Lemma nth_error_middle (pre post : list A) (x : A) :
  nth_error (pre ++ x :: post) (length pre) = Some x.
Proof.
  rewrite nth_error_app2 by lia. rewrite Nat.sub_diag. reflexivity.
Qed.

Lemma removeAt_incl (i : nat) (l : list A) : incl (removeAt i l) l.
Proof.
  unfold removeAt. intros x Hx. apply in_app_or in Hx as [Hx|Hx].
  - rewrite <- (firstn_skipn i l). apply in_or_app. now left.
  - rewrite <- (firstn_skipn (S i) l). apply in_or_app. now right.
Qed.

Lemma removeAt_setAt (i : nat) (v : A) (l : list A) :
  removeAt i (setAt i v l) = removeAt i l.
Proof.
  unfold removeAt. revert i. induction l as [|h t IH]; intros [|i]; simpl; auto.
  f_equal. apply IH.
Qed.
End Arrays.

(* ================================================================== *)
(** ** What each part of the frame changes *)

Section Frames.
Context {num : Type} {N : Number num} {T : Trig num}.
Local Open Scope num_scope.

(** *** The step *)

Lemma stepPhase_fires (dt : num) (s : State num) :
  (stepAccumulator s + dt >=? stepInterval) = true ->
  stepPhase dt s =
  set_tailPositions (tailPositions s ++ [stepTarget s])
    (set_camera (stepTarget s)
       (set_stepAccumulator (stepAccumulator s + dt - stepInterval) s)).
Proof.
  intros H. unfold stepPhase. cbn. rewrite H. reflexivity.
Qed.

Lemma stepPhase_idle (dt : num) (s : State num) :
  (stepAccumulator s + dt >=? stepInterval) = false ->
  stepPhase dt s = set_stepAccumulator (stepAccumulator s + dt) s.
Proof.
  intros H. unfold stepPhase. cbn. rewrite H. reflexivity.
Qed.

(** *** The trail *)

Lemma trimTrail_spec (s : State num) :
  trimTrail s =
  set_tailPositions
    (skipn (length (tailPositions s) - (length (tailSegments s) + 50))
       (tailPositions s)) s.
Proof.
  unfold trimTrail.
  destruct (Nat.ltb_spec (length (tailSegments s) + 50) (length (tailPositions s)))
    as [H|H]; [reflexivity|].
  replace (_ - _)%nat with 0%nat by lia. destruct s; reflexivity.
Qed.

Lemma followLoop_spec (n i : nat) (s : State num) :
  exists segs,
    followLoop n i s = set_tailSegments segs s /\
    length segs = length (tailSegments s) /\
    forall P : Vector3 num -> Prop,
      (forall x z, P (vec3 x (dec 2 10) z)) ->
      Forall P (tailSegments s) -> Forall P segs.
Proof.
  revert i s. induction n as [|n IH]; intros i s; cbn [followLoop].
  - exists (tailSegments s). split; [destruct s; reflexivity|]. auto.
  - set (idx := (Z.of_nat (length (tailPositions s)) - 1 - Z.of_nat i)%Z).
    destruct (0 <=? idx)%Z; [destruct (nth_error _ _) as [p|]|].
    + destruct (IH (S i)
        (set_tailSegments (setAt i (vec3 (vx p) (dec 2 10) (vz p)) (tailSegments s)) s))
        as (segs & -> & Hlen & HP).
      exists segs. split; [destruct s; reflexivity|]. split.
      * rewrite Hlen. cbn. apply setAt_length.
      * intros P HP0 Hall. apply (HP P HP0). cbn.
        clear - HP0 Hall. revert i.
        induction Hall as [|h t Hh Ht IHt]; intros [|i]; cbn; auto.
    + apply IH.
    + apply IH.
Qed.

Lemma followTrail_spec (s : State num) :
  exists segs,
    followTrail s = set_tailSegments segs s /\
    length segs = length (tailSegments s) /\
    forall P : Vector3 num -> Prop,
      (forall x z, P (vec3 x (dec 2 10) z)) ->
      Forall P (tailSegments s) -> Forall P segs.
Proof. apply followLoop_spec. Qed.
End Frames.

Section Bullets.
Context {num : Type} {N : Number num} {T : Trig num}.
Local Open Scope num_scope.

(** The scan for an enemy either finds none below [j], or removes the
    one of highest index below [j] that is near, with the bullet. *)
Lemma hitEnemy_spec (b : Bullet num) (i j : nat) (s : State num) :
  (hitEnemy b i j s = s /\
   forall k e, k < j -> nth_error (enemies s) k = Some e -> bulletNear b e = false)
  \/
  (exists k e,
     k < j /\ nth_error (enemies s) k = Some e /\ bulletNear b e = true /\
     (forall k' e', k < k' < j -> nth_error (enemies s) k' = Some e' ->
                    bulletNear b e' = false) /\
     hitEnemy b i j s =
     set_score (score s + 5)%nat
       (set_bullets (removeAt i (bullets s))
          (set_enemies (removeAt k (enemies s)) s))).
Proof.
  induction j as [|j IH]; cbn [hitEnemy].
  - left. split; [reflexivity|]. intros; lia.
  - destruct (nth_error (enemies s) j) as [e|] eqn:He.
    + fold (bulletNear b e). destruct (bulletNear b e) eqn:Hn.
      * right. exists j, e. repeat split; auto; try lia.
      * destruct IH as [[-> Hnone]|(k & e' & Hk & Hke & Hnear & Hab & ->)].
        -- left. split; [reflexivity|]. intros k e' Hk Hke.
           destruct (Nat.eq_dec k j) as [->|]; [congruence|].
           apply (Hnone k); [lia|assumption].
        -- right. exists k, e'. repeat split; auto.
           intros k' e'' Hk' Hke'.
           destruct (Nat.eq_dec k' j) as [->|]; [congruence|].
           apply (Hab k'); [lia|assumption].
    + destruct IH as [[-> Hnone]|(k & e' & Hk & Hke & Hnear & Hab & ->)].
      * left. split; [reflexivity|]. intros k e' Hk Hke.
        destruct (Nat.eq_dec k j) as [->|]; [congruence|].
        apply (Hnone k); [lia|assumption].
      * right. exists k, e'. repeat split; auto.
        intros k' e'' Hk' Hke'.
        destruct (Nat.eq_dec k' j) as [->|]; [congruence|].
        apply (Hab k'); [lia|assumption].
Qed.

(** A bullet beyond the bounds is removed before any enemy is looked at. *)
Lemma bulletStep_out (dt : num) (i : nat) (s : State num) (b : Bullet num) :
  nth_error (bullets s) i = Some b ->
  outOfWorld (fly dt b) = true ->
  bulletStep dt i s = set_bullets (removeAt i (bullets s)) s.
Proof.
  intros Hb Ho. unfold bulletStep. rewrite Hb.
  fold (fly dt b). cbn [bullets set_bullets].
  unfold outOfWorld in Ho. rewrite Ho.
  rewrite removeAt_setAt. destruct s; reflexivity.
Qed.

Lemma bulletStep_in (dt : num) (i : nat) (s : State num) (b : Bullet num) :
  nth_error (bullets s) i = Some b ->
  outOfWorld (fly dt b) = false ->
  bulletStep dt i s =
  hitEnemy (fly dt b) i (length (enemies s))
    (set_bullets (setAt i (fly dt b) (bullets s)) s).
Proof.
  intros Hb Ho. unfold bulletStep. rewrite Hb.
  fold (fly dt b). cbn [bullets set_bullets].
  unfold outOfWorld in Ho. rewrite Ho. reflexivity.
Qed.

(** One bullet: at most one enemy goes, and five points come with it. *)
Lemma bulletStep_frame (dt : num) (i : nat) (s : State num) :
  exists bs es k,
    bulletStep dt i s =
    set_score (score s + 5 * k)%nat (set_bullets bs (set_enemies es s)) /\
    (length es + k)%nat = length (enemies s) /\ k <= 1 /\
    length bs <= length (bullets s) /\
    incl es (enemies s).
Proof.
  destruct (nth_error (bullets s) i) as [b|] eqn:Hb.
  - destruct (outOfWorld (fly dt b)) eqn:Ho.
    + rewrite (bulletStep_out _ _ _ Hb Ho).
      exists (removeAt i (bullets s)), (enemies s), 0.
      repeat split; try lia.
      * rewrite Nat.mul_0_r, Nat.add_0_r. destruct s; reflexivity.
      * apply removeAt_length_le.
      * apply incl_refl.
    + rewrite (bulletStep_in _ _ _ Hb Ho).
      destruct (hitEnemy_spec (fly dt b) i (length (enemies s))
                  (set_bullets (setAt i (fly dt b) (bullets s)) s))
        as [[-> _]|(k & e & Hk & Hke & _ & _ & ->)].
      * exists (setAt i (fly dt b) (bullets s)), (enemies s), 0.
        repeat split; try lia.
        -- rewrite Nat.mul_0_r, Nat.add_0_r. destruct s; reflexivity.
        -- now rewrite setAt_length.
        -- apply incl_refl.
      * cbn [enemies bullets score set_bullets] in *.
        exists (removeAt i (setAt i (fly dt b) (bullets s))),
               (removeAt k (enemies s)), 1.
        repeat split; try lia; try (destruct s; reflexivity).
        -- rewrite removeAt_length by lia. lia.
        -- rewrite removeAt_setAt. apply removeAt_length_le.
        -- apply removeAt_incl.
  - unfold bulletStep. rewrite Hb.
    exists (bullets s), (enemies s), 0. repeat split; try lia.
    + rewrite Nat.mul_0_r, Nat.add_0_r. destruct s; reflexivity.
    + apply incl_refl.
Qed.

Lemma bulletLoop_frame (dt : num) (n : nat) (s : State num) :
  exists bs es k,
    bulletLoop dt n s =
    set_score (score s + 5 * k)%nat (set_bullets bs (set_enemies es s)) /\
    (length es + k)%nat = length (enemies s) /\ k <= n /\
    length bs <= length (bullets s) /\
    incl es (enemies s).
Proof.
  revert s. induction n as [|n IH]; intros s; cbn [bulletLoop].
  - exists (bullets s), (enemies s), 0. repeat split; try lia.
    + rewrite Nat.mul_0_r, Nat.add_0_r. destruct s; reflexivity.
    + apply incl_refl.
  - destruct (bulletStep_frame dt n s) as (bs1 & es1 & k1 & -> & H1 & Hk1 & Hb1 & Hi1).
    destruct (IH (set_score (score s + 5 * k1)%nat (set_bullets bs1 (set_enemies es1 s))))
      as (bs2 & es2 & k2 & -> & H2 & Hk2 & Hb2 & Hi2).
    cbn [enemies bullets score set_score set_bullets set_enemies] in *.
    exists bs2, es2, (k1 + k2)%nat. repeat split; try lia.
    + replace (score s + 5 * k1 + 5 * k2)%nat with (score s + 5 * (k1 + k2))%nat by lia.
      destruct s; reflexivity.
    + eapply incl_tran; eassumption.
Qed.

Lemma updateBullets_frame (dt : num) (s : State num) :
  exists bs es k,
    updateBullets dt s =
    set_score (score s + 5 * k)%nat (set_bullets bs (set_enemies es s)) /\
    (length es + k)%nat = length (enemies s) /\ k <= length (bullets s) /\
    length bs <= length (bullets s) /\
    incl es (enemies s).
Proof. apply bulletLoop_frame. Qed.
End Bullets.

Section Foods.
Context {num : Type} {N : Number num} {T : Trig num}.
Local Open Scope num_scope.

(** Everything one collection changes: the food at [i] goes and one new
    food is pushed; the lengths, the speed and the score grow; and at most
    one enemy is pushed, only below five enemies and on a draw below 0.3. *)
Lemma collect_spec (i : nat) (s : State num) :
  exists f d es,
    collect i s =
    set_enemies (enemies s ++ es)
      (set_drawn d
         (set_foods (removeAt i (foods s) ++ [f])
            (set_tailSegments (tailSegments s ++ [grownSegment s; grownSegment s])
               (set_score (score s + 1)%nat
                  (set_moveSpeed (moveSpeed s + dec 5 100)
                     (set_tailLength (tailLength s + 2)%nat s)))))) /\
    vy f = floorY + dec 5 10 /\
    (es = [] \/
     length (enemies s) < 5 /\
     exists e d', es = [e] /\ vy (position e) = floorY + dec 5 10 /\
                  (rng s d' <? dec 3 10) = true).
Proof.
  unfold collect. cbv zeta.
  match goal with |- context [spawnFood ?x] =>
    destruct (spawnFood_spec x) as (x1 & z1 & d1 & ->) end.
  cbn [enemies foods set_foods set_drawn set_tailSegments set_score
       set_moveSpeed set_tailLength tailSegments camera].
  destruct (Nat.ltb_spec (length (enemies s)) 5) as [Hlt|Hge].
  - unfold Math_random.
    cbn [rng drawn enemies foods set_foods set_drawn set_tailSegments set_score
         set_moveSpeed set_tailLength tailSegments camera].
    destruct (rng s d1 <? dec 3 10) eqn:Hr.
    + match goal with |- context [spawnEnemy ?x] =>
        destruct (spawnEnemy_spec x) as (x2 & z2 & v2 & d2 & ->) end.
      exists (vec3 x1 (floorY + dec 5 10) z1), d2,
             [mkEnemy (vec3 x2 (floorY + dec 5 10) z2) v2].
      split; [|split; [reflexivity|]].
      * unfold grownSegment. rewrite <- app_assoc. destruct s; reflexivity.
      * right. split; [assumption|]. eexists _, d1. repeat split. exact Hr.
    + exists (vec3 x1 (floorY + dec 5 10) z1), (S d1), [].
      split; [|split; [reflexivity|now left]].
      unfold grownSegment. rewrite <- app_assoc, app_nil_r. destruct s; reflexivity.
  - exists (vec3 x1 (floorY + dec 5 10) z1), d1, [].
    split; [|split; [reflexivity|now left]].
    unfold grownSegment. rewrite <- app_assoc, app_nil_r. destruct s; reflexivity.
Qed.

Lemma collected_0 (s : State num) : collected 0 (foods s) (drawn s) [] s = s.
Proof.
  unfold collected. cbn [Nat.mul repeat Nat.iter nat_rect].
  rewrite !app_nil_r, !Nat.add_0_r. destruct s; reflexivity.
Qed.

Lemma collected_collected (k1 k2 : nat) (fs1 fs2 : list (Vector3 num))
    (d1 d2 : nat) (es1 es2 : list (Enemy num)) (s : State num) :
  collected k2 fs2 d2 es2 (collected k1 fs1 d1 es1 s) =
  collected (k2 + k1) fs2 d2 (es1 ++ es2) s.
Proof.
  unfold collected, grownSegment.
  cbn [enemies foods set_foods set_drawn set_tailSegments set_score set_enemies
       set_moveSpeed set_tailLength tailSegments camera score moveSpeed tailLength].
  rewrite Nat.iter_add.
  replace (2 * (k2 + k1))%nat with (2 * k1 + 2 * k2)%nat by lia.
  rewrite repeat_app, !app_assoc.
  replace (score s + k1 + k2)%nat with (score s + (k2 + k1))%nat by lia.
  replace (tailLength s + 2 * k1 + 2 * k2)%nat with (tailLength s + (2 * k1 + 2 * k2))%nat by lia.
  destruct s; reflexivity.
Qed.

Lemma collect_collected (i : nat) (s : State num) :
  exists f d es,
    collect i s = collected 1 (removeAt i (foods s) ++ [f]) d es s /\
    vy f = floorY + dec 5 10 /\
    (es = [] \/
     length (enemies s) < 5 /\
     exists e d', es = [e] /\ vy (position e) = floorY + dec 5 10 /\
                  (rng s d' <? dec 3 10) = true).
Proof.
  destruct (collect_spec i s) as (f & d & es & E & Hf & Hes).
  exists f, d, es. split; [|split; assumption].
  rewrite E. reflexivity.
Qed.

(** The food loop over the indices below [length pre]: each food of [pre]
    that is near is collected, the others stay in place, and the new foods
    are pushed behind the rest. *)
Lemma foodLoop_spec (pre post : list (Vector3 num)) (s : State num) :
  foods s = pre ++ post ->
  exists news d es,
    let k := length (filter (foodNear s) pre) in
    foodLoop (length pre) s =
    collected k (filter (fun f => negb (foodNear s f)) pre ++ post ++ news) d es s /\
    length news = k /\ Forall onFloor news /\
    length es <= k /\ Forall (fun e => onFloor (position e)) es /\
    (length (enemies s) + length es <= Nat.max (length (enemies s)) 5)%nat.
Proof.
  revert post s. induction pre as [|f pre IH] using rev_ind; intros post s Hs.
  - exists [], (drawn s), []. cbn [length filter foodLoop app] in *.
    rewrite app_nil_r, <- Hs, collected_0.
    repeat split; auto; cbn; lia.
  - rewrite length_app. cbn [length]. rewrite Nat.add_1_r. cbn [foodLoop].
    rewrite <- app_assoc in Hs. cbn [app] in Hs.
    unfold foodStep. rewrite Hs, nth_error_middle.
    fold (foodNear s f). rewrite !filter_app. cbn [filter].
    destruct (foodNear s f) eqn:Hn; cbn [negb].
    + destruct (collect_collected (length pre) s) as (f' & d1 & es1 & -> & Hf' & Hes1).
      rewrite Hs, removeAt_middle, <- app_assoc.
      destruct (IH (post ++ [f']) (collected 1 (pre ++ post ++ [f']) d1 es1 s) eq_refl)
        as (news & d2 & es2 & E & Hlen & Hfl & Hle & Hefl & Hmax).
      cbv zeta in E.
      change (foodNear (collected 1 (pre ++ post ++ [f']) d1 es1 s))
        with (foodNear s) in *.
      rewrite E, collected_collected.
      exists (f' :: news), d2, (es1 ++ es2). cbv zeta.
      rewrite !length_app. cbn [length app].
      rewrite app_nil_r, <- !app_assoc. cbn [app].
      cbn [enemies collected set_enemies] in Hmax. rewrite length_app in Hmax.
      split; [f_equal; lia|].
      repeat split.
      * lia.
      * constructor; assumption.
      * destruct Hes1 as [->|(_ & e & d' & -> & _)]; cbn [length]; lia.
      * apply Forall_app. split; [|assumption].
        destruct Hes1 as [->|(_ & e & d' & -> & He & _)]; repeat constructor; assumption.
      * destruct Hes1 as [->|(Hlt & e & d' & -> & _)]; cbn [length] in *; lia.
    + destruct (IH (f :: post) s Hs) as (news & d2 & es2 & E & Hlen & Hfl & Hle & Hefl & Hmax).
      cbv zeta in E. rewrite E.
      exists news, d2, es2. cbv zeta.
      rewrite app_nil_r, <- !app_assoc. cbn [app length].
      repeat split; assumption.
Qed.

Lemma collectFoods_spec (s : State num) :
  exists news d es,
    let k := length (filter (foodNear s) (foods s)) in
    collectFoods s =
    collected k (filter (fun f => negb (foodNear s f)) (foods s) ++ news) d es s /\
    length news = k /\ Forall onFloor news /\
    length es <= k /\ Forall (fun e => onFloor (position e)) es /\
    (length (enemies s) + length es <= Nat.max (length (enemies s)) 5)%nat.
Proof.
  destruct (foodLoop_spec (foods s) [] s) as (news & d & es & H).
  - now rewrite app_nil_r.
  - exists news, d, es. exact H.
Qed.
End Foods.

(* ================================================================== *)
(** ** The frame as a whole *)

Section Simulate.
Context {num : Type} {N : Number num} {T : Trig num}.
Local Open Scope num_scope.

(** The step changes the accumulator, the camera and the trail only. *)
Lemma stepPhase_spec (dt : num) (s : State num) :
  stepPhase dt s =
  set_tailPositions (tailPositions (stepPhase dt s))
    (set_camera (camera (stepPhase dt s))
       (set_stepAccumulator (stepAccumulator (stepPhase dt s)) s)).
Proof.
  destruct (stepAccumulator s + dt >=? stepInterval) eqn:H.
  - rewrite !(stepPhase_fires _ _ H). reflexivity.
  - rewrite !(stepPhase_idle _ _ H). destruct s; reflexivity.
Qed.

(** The state before the three final checks, from the state [s1] after
    the step: the trail is trimmed, the segments are moved, [k1] enemies
    were shot, the others wandered, and the near foods were collected. *)
Lemma simulate_spec (dt : num) (s : State num) :
  let s1 := stepPhase dt s in
  exists segs bs es k1 news d es2,
    let k := length (filter (foodNear s1) (foods s)) in
    simulate dt s =
    collected k (filter (fun f => negb (foodNear s1 f)) (foods s) ++ news) d es2
      (set_enemies (map (wander dt) es)
         (set_score (score s + 5 * k1)%nat
            (set_bullets bs
               (set_tailSegments segs (trimTrail s1))))) /\
    length segs = length (tailSegments s) /\
    (forall P : Vector3 num -> Prop,
       (forall x z, P (vec3 x (dec 2 10) z)) ->
       Forall P (tailSegments s) -> Forall P segs) /\
    (length es + k1)%nat = length (enemies s) /\
    k1 <= length (bullets s) /\
    length bs <= length (bullets s) /\
    length news = k /\ Forall onFloor news /\
    length es2 <= k /\ Forall (fun e => onFloor (position e)) es2 /\
    (length es + length es2 <= Nat.max (length es) 5)%nat.
Proof.
  intros s1. unfold simulate. fold s1.
  assert (Hseg1 : tailSegments s1 = tailSegments s)
    by (unfold s1; rewrite stepPhase_spec; reflexivity).
  assert (Hfood1 : foods s1 = foods s)
    by (unfold s1; rewrite stepPhase_spec; reflexivity).
  assert (Hen1 : enemies s1 = enemies s)
    by (unfold s1; rewrite stepPhase_spec; reflexivity).
  assert (Hbu1 : bullets s1 = bullets s)
    by (unfold s1; rewrite stepPhase_spec; reflexivity).
  assert (Hsc1 : score s1 = score s)
    by (unfold s1; rewrite stepPhase_spec; reflexivity).
  set (s2 := trimTrail s1).
  assert (H2 : tailSegments s2 = tailSegments s1 /\ foods s2 = foods s1 /\
               enemies s2 = enemies s1 /\ bullets s2 = bullets s1 /\
               score s2 = score s1 /\ camera s2 = camera s1)
    by (unfold s2; rewrite trimTrail_spec; repeat split; reflexivity).
  destruct H2 as (Hseg2 & Hfood2 & Hen2 & Hbu2 & Hsc2 & Hcam2).
  destruct (followTrail_spec s2) as (segsA & -> & HlenA & HPA).
  destruct (followTrail_spec (set_tailSegments segsA s2)) as (segsB & -> & HlenB & HPB).
  cbn [tailSegments set_tailSegments] in HlenB, HPB.
  destruct (updateBullets_frame dt (set_tailSegments segsB (set_tailSegments segsA s2)))
    as (bs & es & k1 & -> & Hk1 & Hk1' & Hbs & _).
  cbn [enemies bullets score set_tailSegments] in Hk1, Hk1', Hbs.
  unfold updateEnemies.
  cbn [enemies bullets score set_tailSegments set_enemies set_bullets set_score].
  match goal with |- context [collectFoods ?x] =>
    destruct (collectFoods_spec x) as (news & d & es2 & E & Hn & Hfl & Hle & Hefl & Hmax)
  end.
  cbv zeta in E. rewrite E. clear E.
  cbn [enemies bullets score foods camera set_tailSegments set_enemies set_bullets
       set_score] in *.
  rewrite length_map in Hmax.
  exists segsB, bs, es, k1, news, d, es2. cbv zeta.
  assert (Hnear : forall f,
            foodNear (set_enemies (map (wander dt) es)
               (set_score (score s2 + 5 * k1)%nat
                  (set_bullets bs
                     (set_tailSegments segsB (set_tailSegments segsA s2))))) f
            = foodNear s1 f).
  { intros f. unfold foodNear. cbn [camera set_enemies set_score set_bullets
                                   set_tailSegments]. now rewrite Hcam2. }
  rewrite (filter_ext _ _ Hnear) in *.
  rewrite (filter_ext _ (fun f => negb (foodNear s1 f))
             (fun f => f_equal negb (Hnear f))).
  rewrite Hfood2, Hfood1 in *. rewrite Hsc2, Hsc1.
  split.
  - reflexivity.
  - rewrite HlenB, HlenA, Hseg2, Hseg1.
    rewrite Hen2, Hen1 in Hk1. rewrite Hbu2, Hbu1 in Hk1', Hbs.
    repeat split; auto.
    intros P HP Hall. apply HPB, HPA; auto. now rewrite Hseg2, Hseg1.
Qed.
End Simulate.

Section Animate.
Context {num : Type} {N : Number num} {T : Trig num}.
Local Open Scope num_scope.

Lemma animate_inactive (dt : num) (s : State num) :
  gameActive s = false -> animate dt s = s.
Proof. intros H. unfold animate. now rewrite H. Qed.

Lemma animate_active (dt : num) (s : State num) :
  gameActive s = true ->
  animate dt s =
  if hitsEnemy (simulate dt s) then endGame msgEnemy (simulate dt s)
  else if hitsSelf (simulate dt s) then endGame msgSelf (simulate dt s)
  else if hitsWall (simulate dt s) then endGame msgWall (simulate dt s)
  else present (simulate dt s).
Proof. intros H. unfold animate. now rewrite H. Qed.

(** After [simulate], a frame only writes the activity flag, the overlay,
    the HUD and the count of rendered frames. *)
Lemma animate_simulate (dt : num) (s : State num) :
  gameActive s = true ->
  exists a o h r,
    animate dt s =
    set_rendered r (set_hud h (set_overlay o (set_gameActive a (simulate dt s)))).
Proof.
  intros H. rewrite (animate_active _ _ H).
  set (s' := simulate dt s).
  destruct (hitsEnemy s'); [|destruct (hitsSelf s'); [|destruct (hitsWall s')]].
  - exists false, (mkOverlay true "Game Over" msgEnemy (score s')), (hud s'), (rendered s').
    destruct s'; reflexivity.
  - exists false, (mkOverlay true "Game Over" msgSelf (score s')), (hud s'), (rendered s').
    destruct s'; reflexivity.
  - exists false, (mkOverlay true "Game Over" msgWall (score s')), (hud s'), (rendered s').
    destruct s'; reflexivity.
  - exists (gameActive s'), (overlay s'), (Some (score s', length (tailSegments s'))),
      (S (rendered s')).
    destruct s'; reflexivity.
Qed.

(** The frame in terms of the state after the step. *)
Lemma simulate_step (dt : num) (s : State num) :
  camera (simulate dt s) = camera (stepPhase dt s) /\
  stepAccumulator (simulate dt s) = stepAccumulator (stepPhase dt s) /\
  tailPositions (simulate dt s) = tailPositions (trimTrail (stepPhase dt s)) /\
  gameActive (simulate dt s) = gameActive s /\
  overlay (simulate dt s) = overlay s /\
  hud (simulate dt s) = hud s /\
  rendered (simulate dt s) = rendered s /\
  yaw (simulate dt s) = yaw s /\
  pitch (simulate dt s) = pitch s.
Proof.
  destruct (simulate_spec dt s) as (segs & bs & es & k1 & news & d & es2 & E & _).
  cbv zeta in E. rewrite E. unfold collected.
  rewrite trimTrail_spec.
  cbn [camera stepAccumulator tailPositions gameActive overlay hud rendered yaw pitch
       set_enemies set_drawn set_foods set_tailSegments set_score set_moveSpeed
       set_tailLength set_bullets set_tailPositions].
  rewrite (stepPhase_spec dt s).
  cbn [camera stepAccumulator tailPositions gameActive overlay hud rendered yaw pitch
       set_tailPositions set_camera set_stepAccumulator tailSegments].
  repeat split; reflexivity.
Qed.
End Animate.

(* ================================================================== *)
(** ** The game over the real numbers *)

Section RealArithmetic.
Local Open Scope R_scope.

Lemma Rltb_true (a b : R) : a < b -> Rltb a b = true.
Proof. intros H. unfold Rltb. destruct (Rlt_dec a b); [reflexivity|contradiction]. Qed.

Lemma Rltb_false (a b : R) : b <= a -> Rltb a b = false.
Proof. intros H. unfold Rltb. destruct (Rlt_dec a b); [lra|reflexivity]. Qed.

Lemma Rleb_true (a b : R) : a <= b -> Rleb a b = true.
Proof. intros H. unfold Rleb. destruct (Rle_dec a b); [reflexivity|contradiction]. Qed.

Lemma Rleb_false (a b : R) : b < a -> Rleb a b = false.
Proof. intros H. unfold Rleb. destruct (Rle_dec a b); [lra|reflexivity]. Qed.

Lemma Rleb_le (a b : R) : Rleb a b = true -> a <= b.
Proof. unfold Rleb. destruct (Rle_dec a b); [auto|discriminate]. Qed.

(** The forward vector is a unit vector: normalizing it changes nothing. *)
Lemma normalize_forward (a : R) :
  normalize (vec3 (sin a) 0 (cos a)) = vec3 (sin a) 0 (cos a).
Proof.
  unfold normalize, vlength, divideScalar, multiplyScalar, Math.sqrt.
  cbn [vx vy vz nsqrt nmul nadd ndiv ofZ ntruthy Real].
  replace (sin a * sin a + 0 * 0 + cos a * cos a) with 1
    by (generalize (sin2_cos2 a); unfold Rsqr; lra).
  rewrite sqrt_1.
  destruct (Req_dec_T 1 0) as [E|_]; [lra|].
  f_equal; lra.
Qed.

Lemma stepDir_real (s : State R) :
  stepDir s = vec3 (sin (yaw s)) 0 (cos (yaw s)).
Proof.
  unfold stepDir, Math.sin, Math.cos. cbn [nsin ncos RealTrig ofZ Real].
  now rewrite !normalize_forward.
Qed.

(** One step: [stepSize] along the forward vector, at eye height. *)
Lemma stepTarget_real (s : State R) :
  stepTarget s =
  vec3 (vx (camera s) + sin (yaw s) * (7 / 10)) (16 / 10)
       (vz (camera s) + cos (yaw s) * (7 / 10)).
Proof.
  unfold stepTarget. rewrite stepDir_real. reflexivity.
Qed.

(** A distance is at least the difference of the heights. *)
Lemma distanceTo_height (p q : Vector3 R) :
  Rabs (vy p - vy q) <= distanceTo p q.
Proof.
  unfold distanceTo, distanceToSquared, Math.sqrt.
  cbn [nsqrt nmul nadd nsub Real].
  rewrite <- sqrt_Rsqr_abs. apply sqrt_le_1_alt. unfold Rsqr.
  generalize (Rle_0_sqr (vx p - vx q)) (Rle_0_sqr (vz p - vz q)).
  unfold Rsqr. lra.
Qed.
End RealArithmetic.

(* ================================================================== *)
(** ** The stepper *)

Section Stepper.
Context {num : Type} {N : Number num} {T : Trig num}.
Local Open Scope num_scope.

Lemma animate_step_fires (dt : num) (s : State num) :
  gameActive s = true ->
  (stepAccumulator s + dt >=? stepInterval) = true ->
  stepAccumulator (animate dt s) = stepAccumulator s + dt - stepInterval /\
  camera (animate dt s) = stepTarget s /\
  tailPositions (stepPhase dt s) = tailPositions s ++ [stepTarget s].
Proof.
  intros Ha Hf.
  destruct (animate_simulate dt _ Ha) as (a & o & h & r & ->).
  cbn [stepAccumulator camera set_rendered set_hud set_overlay set_gameActive].
  destruct (simulate_step dt s) as (-> & -> & _).
  rewrite (stepPhase_fires _ _ Hf). repeat split; reflexivity.
Qed.

Lemma animate_step_idle (dt : num) (s : State num) :
  gameActive s = true ->
  (stepAccumulator s + dt >=? stepInterval) = false ->
  stepAccumulator (animate dt s) = stepAccumulator s + dt /\
  camera (animate dt s) = camera s /\
  tailPositions (stepPhase dt s) = tailPositions s.
Proof.
  intros Ha Hf.
  destruct (animate_simulate dt _ Ha) as (a & o & h & r & ->).
  cbn [stepAccumulator camera set_rendered set_hud set_overlay set_gameActive].
  destruct (simulate_step dt s) as (-> & -> & _).
  rewrite (stepPhase_idle _ _ Hf). repeat split; reflexivity.
Qed.
End Stepper.

(** C1. In every frame of a running session the elapsed time [dt] is added
    to the accumulator; a step is made if and only if the sum has reached
    [stepInterval]; then exactly one interval is subtracted (the remainder is
    kept), the camera is moved by one step and one position is recorded;
    otherwise nothing moves.  This holds for any arithmetic.  Over the reals,
    with [dt >= 0] the accumulator stays non-negative, and a [dt] of ten
    intervals makes one step only and leaves nine intervals and what was
    accumulated before, a positive remainder.  On doubles, from an empty
    accumulator, a [dt] of ten intervals makes one step and leaves the double
    6.3, whatever [Math.sin] and [Math.cos] return. *)
Theorem C1_step_accumulator :
  (forall (num : Type) (N : Number num) (T : Trig num) (dt : num) (s : State num),
     gameActive s = true ->
     let acc := (stepAccumulator s + dt)%num in
     ((acc >=? stepInterval)%num = true ->
      stepAccumulator (animate dt s) = (acc - stepInterval)%num /\
      camera (animate dt s) = stepTarget s /\
      tailPositions (stepPhase dt s) = tailPositions s ++ [stepTarget s]) /\
     ((acc >=? stepInterval)%num = false ->
      stepAccumulator (animate dt s) = acc /\
      camera (animate dt s) = camera s /\
      tailPositions (stepPhase dt s) = tailPositions s))
  /\
  (forall (dt : R) (s : State R),
     gameActive s = true ->
     (0 <= stepAccumulator s)%R -> (0 <= dt)%R ->
     (0 <= stepAccumulator (animate dt s))%R /\
     (dt = 10 * stepInterval ->
      stepAccumulator (animate dt s) = stepAccumulator s + 9 * stepInterval /\
      0 < stepAccumulator (animate dt s) /\
      camera (animate dt s) = stepTarget s /\
      tailPositions (stepPhase dt s) = tailPositions s ++ [stepTarget s])%R)
  /\
  (forall (T : Trig PrimFloat.float) (s : State PrimFloat.float),
     gameActive s = true -> stepAccumulator s = #0 ->
     stepAccumulator (animate (#10 * stepInterval)%num s) = dec 63 10 /\
     (#0 <? stepAccumulator (animate (#10 * stepInterval)%num s))%num = true /\
     camera (animate (#10 * stepInterval)%num s) = stepTarget s /\
     tailPositions (stepPhase (#10 * stepInterval)%num s)
     = tailPositions s ++ [stepTarget s]).
Proof.
  split; [|split].
  - intros num N T dt s Ha acc. split; intros Hf.
    + apply animate_step_fires; assumption.
    + apply animate_step_idle; assumption.
  - intros dt s Ha Hacc Hdt.
    assert (HI : (stepInterval = 7 / 10 :> R)%R) by reflexivity.
    split.
    + destruct (stepAccumulator s + dt >=? stepInterval)%num eqn:Hf.
      * destruct (animate_step_fires _ _ Ha Hf) as (-> & _).
        apply Rleb_le in Hf. cbn [nadd nsub Real] in *. lra.
      * destruct (animate_step_idle _ _ Ha Hf) as (-> & _).
        cbn [nadd Real]. lra.
    + intros ->.
      assert (Hf : (stepAccumulator s + (10 * stepInterval)%R >=? stepInterval)%num = true).
      { apply Rleb_true. cbn [nadd Real]. lra. }
      destruct (animate_step_fires _ _ Ha Hf) as (-> & -> & ->).
      cbn [nadd nsub Real]. repeat split; lra.
  - intros T s Ha Hacc.
    assert (Hf : (stepAccumulator s + #10 * stepInterval >=? stepInterval)%num = true)
      by (rewrite Hacc; vm_compute; reflexivity).
    destruct (animate_step_fires _ _ Ha Hf) as (-> & -> & ->).
    rewrite Hacc. repeat split; vm_compute; reflexivity.
Qed.

(** The empty arena after ten intervals in one frame: one step, and 6.3
    seconds stay in the accumulator. *)
Lemma C1_step_accumulator_witness :
  stepAccumulator (animate 7%R emptyArena) = (63 / 10)%R /\
  camera (animate 7%R emptyArena) = stepTarget emptyArena.
Proof.
  destruct (proj1 (proj2 C1_step_accumulator) 7%R emptyArena eq_refl) as [_ H].
  - cbn. lra.
  - lra.
  - destruct H as (H1 & _ & H2 & _).
    + unfold stepInterval, dec. cbn. lra.
    + split; [rewrite H1; unfold stepInterval, dec; cbn; lra | exact H2].
Defined.

(* ================================================================== *)
(** ** The trail history *)

Section Trail.
Context {num : Type} {N : Number num} {T : Trig num}.

Lemma last_skipn {A : Type} (k : nat) (l : list A) (d : A) :
  k < length l -> last (skipn k l) d = last l d.
Proof.
  revert k. induction l as [|h t IH]; intros k Hk; [cbn in Hk; lia|].
  destruct k as [|k]; [reflexivity|].
  cbn [skipn]. rewrite IH by (cbn in Hk; lia).
  destruct t; [cbn in Hk; lia | reflexivity].
Qed.

Lemma simulate_segments (dt : num) (s : State num) :
  length (tailSegments s) <= length (tailSegments (simulate dt s)).
Proof.
  destruct (simulate_spec dt s) as (segs & bs & es & k1 & news & d & es2 & E & Hs & _).
  cbv zeta in E. rewrite E. unfold collected.
  cbn [tailSegments set_enemies set_drawn set_foods set_tailSegments set_score
       set_bullets].
  rewrite length_app, Hs. lia.
Qed.

Lemma animate_segments (dt : num) (s : State num) :
  gameActive s = true ->
  tailSegments (animate dt s) = tailSegments (simulate dt s) /\
  tailPositions (animate dt s) = tailPositions (trimTrail (stepPhase dt s)).
Proof.
  intros Ha. destruct (animate_simulate dt _ Ha) as (a & o & h & r & ->).
  cbn [tailSegments tailPositions set_rendered set_hud set_overlay set_gameActive].
  destruct (simulate_step dt s) as (_ & _ & -> & _). split; reflexivity.
Qed.
(** The trail at the end of a frame of a running session. *)
Lemma animate_trail (dt : num) (s : State num) :
  gameActive s = true ->
  length (tailPositions (animate dt s))
    <= length (tailSegments (animate dt s)) + 50 /\
  (exists k, tailPositions (animate dt s)
             = skipn k (tailPositions (stepPhase dt s))) /\
  (forall d, tailPositions (stepPhase dt s) <> [] ->
             last (tailPositions (animate dt s)) d
             = last (tailPositions (stepPhase dt s)) d).
Proof.
  intros Ha.
  destruct (animate_segments dt _ Ha) as (-> & ->).
  pose proof (simulate_segments dt s) as Hseg.
  rewrite trimTrail_spec. cbn [tailPositions set_tailPositions].
  assert (Hs1 : tailSegments (stepPhase dt s) = tailSegments s)
    by (rewrite stepPhase_spec; reflexivity).
  rewrite Hs1.
  set (trail := tailPositions (stepPhase dt s)) in *.
  split; [|split].
  - rewrite length_skipn. lia.
  - eexists. reflexivity.
  - intros d Hne. apply last_skipn.
    destruct trail; [congruence|]. cbn [length]. lia.
Qed.
End Trail.

(** C6. After a frame of a running session the trail history is no longer
    than the number of body segments plus 50; what the frame leaves of the
    trail is what remains after dropping entries from the front, and the
    newest recorded position is still its last entry. *)
Theorem C6_trail_bounded :
  forall (num : Type) (N : Number num) (T : Trig num) (dt : num) (s : State num),
    gameActive s = true ->
    length (tailPositions (animate dt s))
      <= length (tailSegments (animate dt s)) + 50 /\
    (exists k, tailPositions (animate dt s)
               = skipn k (tailPositions (stepPhase dt s))) /\
    (forall d, tailPositions (stepPhase dt s) <> [] ->
               last (tailPositions (animate dt s)) d
               = last (tailPositions (stepPhase dt s)) d).
Proof.
  intros num N T dt s. apply animate_trail.
Qed.

(** The empty arena: a frame that steps records one position and keeps it. *)
Lemma C6_trail_bounded_witness :
  length (tailPositions (animate 1%R emptyArena))
    <= length (tailSegments (animate 1%R emptyArena)) + 50.
Proof.
  apply (@C6_trail_bounded R Real RealTrig 1%R emptyArena eq_refl).
Defined.

(* ================================================================== *)
(** ** The checks that end a session *)

Section Checks.
Context {num : Type} {N : Number num} {T : Trig num}.
Local Open Scope num_scope.

Lemma enemyLoop_true (n : nat) (s : State num) :
  enemyLoop n s = true <->
  exists i e, i < n /\ nth_error (enemies s) i = Some e /\ playerNear s e = true.
Proof.
  induction n as [|n IH]; cbn [enemyLoop].
  - split; [discriminate|]. intros (i & e & Hi & _). lia.
  - destruct (nth_error (enemies s) n) as [e|] eqn:He.
    + fold (playerNear s e). destruct (playerNear s e) eqn:Hn.
      * split; [|reflexivity]. intros _. exists n, e. auto.
      * rewrite IH. split; intros (i & e' & Hi & Hie & Hne).
        -- exists i, e'. auto.
        -- exists i, e'. repeat split; auto.
           destruct (Nat.eq_dec i n) as [->|]; [congruence|lia].
    + rewrite IH. split; intros (i & e' & Hi & Hie & Hne).
      * exists i, e'. auto.
      * exists i, e'. repeat split; auto.
        destruct (Nat.eq_dec i n) as [->|]; [congruence|lia].
Qed.

Lemma hitsEnemy_true (s : State num) :
  hitsEnemy s = true <-> exists e, In e (enemies s) /\ playerNear s e = true.
Proof.
  unfold hitsEnemy. rewrite enemyLoop_true. split.
  - intros (i & e & _ & Hie & Hn). exists e. split; [|assumption].
    eapply nth_error_In; eassumption.
  - intros (e & He & Hn). apply In_nth_error in He as (i & Hie).
    exists i, e. repeat split; auto.
    apply nth_error_Some. congruence.
Qed.

(** The self-collision loop answers [true] only for a segment at or after
    the index it starts from. *)
Lemma selfLoop_true (fuel i : nat) (s : State num) :
  selfLoop fuel i s = true ->
  exists j seg, i <= j /\ nth_error (tailSegments s) j = Some seg /\
                segmentNear s seg = true.
Proof.
  revert i. induction fuel as [|fuel IH]; intros i; cbn [selfLoop]; [discriminate|].
  destruct (i <? length (tailSegments s))%nat; [|discriminate].
  destruct (nth_error (tailSegments s) i) as [seg|] eqn:Hs; [|discriminate].
  fold (segmentNear s seg). destruct (segmentNear s seg) eqn:Hn.
  - intros _. exists i, seg. auto.
  - intros H. destruct (IH _ H) as (j & seg' & Hj & Hjs & Hnear).
    exists j, seg'. repeat split; auto. lia.
Qed.

(** With fuel for every index, the loop finds any near segment from [i] on. *)
Lemma selfLoop_complete (fuel i j : nat) (s : State num) (seg : Vector3 num) :
  length (tailSegments s) <= fuel + i ->
  i <= j -> nth_error (tailSegments s) j = Some seg -> segmentNear s seg = true ->
  selfLoop fuel i s = true.
Proof.
  revert i. induction fuel as [|fuel IH]; intros i Hf Hij Hj Hn.
  - assert (j < length (tailSegments s)) by (apply nth_error_Some; congruence). lia.
  - cbn [selfLoop].
    assert (Hjl : j < length (tailSegments s)) by (apply nth_error_Some; congruence).
    destruct (Nat.ltb_spec i (length (tailSegments s))) as [Hi|Hi]; [|lia].
    destruct (nth_error (tailSegments s) i) as [seg'|] eqn:Hs.
    + fold (segmentNear s seg'). destruct (segmentNear s seg') eqn:Hn'; [reflexivity|].
      apply IH; auto; [lia|].
      destruct (Nat.eq_dec i j) as [->|]; [congruence|lia].
    + apply nth_error_None in Hs. lia.
Qed.

Lemma hitsSelf_true (s : State num) :
  hitsSelf s = true <->
  exists j seg, 3 <= j /\ nth_error (tailSegments s) j = Some seg /\
                segmentNear s seg = true.
Proof.
  split.
  - apply selfLoop_true.
  - intros (j & seg & Hj & Hjs & Hn).
    apply (selfLoop_complete _ s (j := j) (seg := seg)); auto. lia.
Qed.
End Checks.

(** C3. In a frame of a running session, when after the movement and the
    other updates of the frame an enemy is within the hit radius (1) of the
    player, the frame ends the session with the message of the enemy, whether
    or not a segment of the body is within the self-collision radius too, and
    later frames leave the ended session as it is.  Whichever check ends the
    session in a frame, the frame stops there: it is [endGame] on the state
    the checks were made in, the HUD is not written and nothing is
    rendered. *)
Theorem C3_eaten_by_enemy :
  forall (num : Type) (N : Number num) (T : Trig num) (dt : num) (s : State num),
    gameActive s = true ->
    ((exists e, In e (enemies (simulate dt s)) /\
                playerNear (simulate dt s) e = true) ->
     animate dt s = endGame msgEnemy (simulate dt s) /\
     gameActive (animate dt s) = false /\
     message (overlay (animate dt s)) = msgEnemy /\
     forall dt', animate dt' (animate dt s) = animate dt s) /\
    (gameActive (animate dt s) = false ->
     (exists msg, (msg = msgEnemy \/ msg = msgSelf \/ msg = msgWall) /\
                  animate dt s = endGame msg (simulate dt s)) /\
     hud (animate dt s) = hud s /\
     rendered (animate dt s) = rendered s).
Proof.
  intros num N T dt s Ha.
  destruct (simulate_step dt s) as (_ & _ & _ & Hact & _ & Hh & Hr & _).
  split.
  - intros Hnear. apply hitsEnemy_true in Hnear.
    assert (E : animate dt s = endGame msgEnemy (simulate dt s))
      by (rewrite (animate_active _ _ Ha), Hnear; reflexivity).
    rewrite E. repeat split; auto.
  - rewrite (animate_active _ _ Ha).
    destruct (hitsEnemy _); [|destruct (hitsSelf _); [|destruct (hitsWall _)]].
    + intros _. split; [exists msgEnemy; auto|]. split; assumption.
    + intros _. split; [exists msgSelf; auto|]. split; assumption.
    + intros _. split; [exists msgWall; auto|]. split; assumption.
    + unfold present. cbn [gameActive set_rendered set_hud]. congruence.
Qed.

(* ================================================================== *)
(** ** Running the game over the reals *)

Section RealEvaluation.
Local Open Scope R_scope.

(** Comparing a distance with a radius, through the squares. *)
Lemma distanceTo_lt (p q : Vector3 R) (r : R) :
  0 < r -> distanceToSquared p q < r * r -> Rltb (distanceTo p q) r = true.
Proof.
  intros Hr H. apply Rltb_true. unfold distanceTo, Math.sqrt. cbn [nsqrt Real].
  rewrite <- (sqrt_square r) by lra. apply sqrt_lt_1_alt. split; [|assumption].
  unfold distanceToSquared. cbn [nadd nsub nmul Real].
  generalize (Rle_0_sqr (vx p - vx q)) (Rle_0_sqr (vy p - vy q)) (Rle_0_sqr (vz p - vz q)).
  unfold Rsqr. lra.
Qed.
End RealEvaluation.

(** Decides the comparisons of closed real expressions in the goal. *)
Ltac rdecide :=
  repeat match goal with
  | |- context [Rltb ?a ?b] =>
      first [rewrite (@Rltb_true a b) by lra | rewrite (@Rltb_false a b) by lra]
  | |- context [Rleb ?a ?b] =>
      first [rewrite (@Rleb_true a b) by lra | rewrite (@Rleb_false a b) by lra]
  end.

(** The cornered player is eaten, although the fourth segment is in its
    place too. *)
Lemma C3_eaten_by_enemy_witness :
  animate 0%R cornered = endGame msgEnemy (simulate 0%R cornered) /\
  message (overlay (animate 0%R cornered)) = msgEnemy.
Proof.
  destruct (proj1 (@C3_eaten_by_enemy R Real RealTrig 0%R cornered eq_refl))
    as (H1 & _ & H3 & _).
  - unfold simulate.
    rewrite stepPhase_idle by (apply Rleb_false; cbn; lra).
    unfold cornered, updateEnemies, wander, playerNear.
    cbn -[Rltb Rleb distanceTo]. rdecide. cbn -[Rltb Rleb distanceTo].
    eexists. split; [left; reflexivity|].
    apply distanceTo_lt; cbn; lra.
  - split; assumption.
Defined.

(* ================================================================== *)
(** ** Pickups *)

Section Pickups.
Context {num : Type} {N : Number num} {T : Trig num}.
Local Open Scope num_scope.


(** The whole frame, with [k] foods near the player after the step. *)
Lemma animate_pickups (dt : num) (s : State num) :
  gameActive s = true ->
  let s1 := stepPhase dt s in
  let k := length (filter (foodNear s1) (foods s)) in
  (exists news,
     foods (animate dt s)
     = filter (fun f => negb (foodNear s1 f)) (foods s) ++ news /\
     length news = k) /\
  length (foods (animate dt s)) = length (foods s) /\
  tailLength (animate dt s) = (tailLength s + 2 * k)%nat /\
  length (tailSegments (animate dt s)) = (length (tailSegments s) + 2 * k)%nat /\
  moveSpeed (animate dt s) = Nat.iter k (fun v => v + dec 5 100) (moveSpeed s) /\
  (exists shot, shot <= length (bullets s) /\
                score (animate dt s) = (score s + 5 * shot + k)%nat) /\
  length (enemies (animate dt s)) <= Nat.max (length (enemies s)) 5.
Proof.
  intros Ha s1 k. subst s1 k.
  destruct (animate_simulate dt _ Ha) as (a & o & h & r & ->).
  destruct (simulate_spec dt s)
    as (segs & bs & es & k1 & news & d & es2 & E & Hsegs & _ & Hes & Hk1 & _ & Hnews & _ & _ & _ & Hmax).
  cbv zeta in E. rewrite E. unfold collected.
  rewrite trimTrail_spec.
  cbn [foods tailLength tailSegments moveSpeed score enemies
       set_rendered set_hud set_overlay set_gameActive
       set_enemies set_drawn set_foods set_tailSegments set_score set_moveSpeed
       set_tailLength set_bullets set_tailPositions].
  assert (H1 : tailLength (stepPhase dt s) = tailLength s /\
               moveSpeed (stepPhase dt s) = moveSpeed s)
    by (rewrite stepPhase_spec; split; reflexivity).
  destruct H1 as (-> & ->).
  repeat split.
  - exists news. auto.
  - rewrite length_app, Hnews.
    pose proof (filter_length (foodNear (stepPhase dt s)) (foods s)) as HF. lia.
  - rewrite length_app, repeat_length, Hsegs. reflexivity.
  - exists k1. split; [assumption|reflexivity].
  - rewrite length_app, length_map. lia.
Qed.
End Pickups.



(* ================================================================== *)
(** ** Projectiles *)

(** C7, as stated, fails: in a frame of 0.1 s the bullet arrives where the
    enemy is, within the hit radius; it is beyond the bounds and is removed
    first, the enemy stays and no score is given. *)
Lemma C7_counterexample :
  bullets strayBullet = [aBullet] /\
  enemies strayBullet = [anEnemy] /\
  bulletNear (fly (dec 1 10) aBullet) anEnemy = true /\
  bullets (updateBullets (dec 1 10) strayBullet) = [] /\
  enemies (updateBullets (dec 1 10) strayBullet) = enemies strayBullet /\
  score (updateBullets (dec 1 10) strayBullet) = score strayBullet.
Proof. vm_compute. repeat split. Qed.

(** C7, amended. For each bullet the bounds are checked first, after its
    move: a bullet beyond them is removed and no enemy is tested.  A bullet
    within the bounds is tested against the enemies from the last one down:
    if none is within the hit radius (0.6) only its position changes;
    otherwise the near enemy of highest index and the bullet are removed and
    5 is added to the score, the other enemies being left alone.  So one
    bullet removes at most one enemy in a frame, and a frame removes at
    most as many enemies as there are bullets, with 5 points for each. *)
Theorem C7_bullet_bounds_then_enemies :
  (forall (num : Type) (N : Number num) (dt : num) (i : nat) (s : State num)
          (b : Bullet num),
     nth_error (bullets s) i = Some b ->
     (outOfWorld (fly dt b) = true ->
      bulletStep dt i s = set_bullets (removeAt i (bullets s)) s) /\
     (outOfWorld (fly dt b) = false ->
      (forall e, In e (enemies s) -> bulletNear (fly dt b) e = false) ->
      bulletStep dt i s = set_bullets (setAt i (fly dt b) (bullets s)) s) /\
     (outOfWorld (fly dt b) = false ->
      forall j e,
        nth_error (enemies s) j = Some e -> bulletNear (fly dt b) e = true ->
        (forall j' e', j < j' -> nth_error (enemies s) j' = Some e' ->
                       bulletNear (fly dt b) e' = false) ->
        bulletStep dt i s =
        set_score (score s + 5)
          (set_bullets (removeAt i (bullets s))
             (set_enemies (removeAt j (enemies s)) s))))
  /\
  (forall (num : Type) (N : Number num) (dt : num) (s : State num),
     exists shot,
       shot <= length (bullets s) /\
       length (enemies (updateBullets dt s)) + shot = length (enemies s) /\
       score (updateBullets dt s) = score s + 5 * shot).
Proof.
  split.
  - intros num N dt i s b Hb. split; [|split].
    + intros Ho. apply (bulletStep_out _ _ _ Hb Ho).
    + intros Ho Hnone. rewrite (bulletStep_in _ _ _ Hb Ho).
      destruct (hitEnemy_spec (fly dt b) i (length (enemies s))
                  (set_bullets (setAt i (fly dt b) (bullets s)) s))
        as [[-> _]|(k & e & Hk & Hke & Hn & _)]; [reflexivity|].
      cbn [enemies set_bullets] in Hke.
      rewrite (Hnone e) in Hn; [discriminate|].
      eapply nth_error_In; eassumption.
    + intros Ho j e Hje Hn Habove. rewrite (bulletStep_in _ _ _ Hb Ho).
      destruct (hitEnemy_spec (fly dt b) i (length (enemies s))
                  (set_bullets (setAt i (fly dt b) (bullets s)) s))
        as [[_ Hnone]|(k & e' & Hk & Hke & Hn' & Hab & ->)].
      * cbn [enemies set_bullets] in Hnone.
        rewrite (Hnone j e) in Hn; [discriminate| |assumption].
        apply nth_error_Some. congruence.
      * cbn [enemies bullets score set_bullets] in *.
        assert (Hjl : j < length (enemies s)) by (apply nth_error_Some; congruence).
        assert (k = j).
        { destruct (Nat.lt_trichotomy k j) as [Hlt|[Heq|Hgt]]; [|assumption|].
          - rewrite (Hab j e) in Hn; [discriminate|lia|assumption].
          - rewrite (Habove k e') in Hn'; [discriminate|lia|assumption]. }
        subst k. rewrite removeAt_setAt. destruct s; reflexivity.
  - intros num N dt s.
    destruct (updateBullets_frame dt s) as (bs & es & k & -> & Hk & Hle & _).
    exists k. cbn [enemies score set_score set_bullets set_enemies].
    repeat split; auto.
Qed.

(** The stray bullet: beyond the bounds after its move, it is removed. *)
Lemma C7_bullet_bounds_then_enemies_witness :
  bulletStep (dec 1 10) 0 strayBullet
  = set_bullets (removeAt 0 (bullets strayBullet)) strayBullet.
Proof.
  refine (proj1 (proj1 C7_bullet_bounds_then_enemies _ Double (dec 1 10) 0 strayBullet
                   aBullet _) _).
  - reflexivity.
  - vm_compute. reflexivity.
Defined.

(* ================================================================== *)
(** ** Start, end and restart *)

Section Sessions.
Context {num : Type} {N : Number num} {T : Trig num}.
Local Open Scope num_scope.

(** What the reset leaves: the initial constants, empty bullets and trail,
    the five initial segments, two new foods and two new enemies. *)
Lemma resetGame_spec (s : State num) :
  exists f1 f2 e1 e2,
    foods (resetGame s) = [f1; f2] /\ onFloor f1 /\ onFloor f2 /\
    enemies (resetGame s) = [e1; e2] /\
    onFloor (position e1) /\ onFloor (position e2) /\
    bullets (resetGame s) = [] /\
    tailPositions (resetGame s) = [] /\
    tailSegments (resetGame s) = newSegments 0 5 /\
    tailLength (resetGame s) = 5 /\
    moveSpeed (resetGame s) = #2 /\
    score (resetGame s) = 0 /\
    stepAccumulator (resetGame s) = #0 /\
    yaw (resetGame s) = #0 /\
    camera (resetGame s) = vec3 #0 snakeHeight #0 /\
    gameActive (resetGame s) = true.
Proof.
  unfold resetGame. cbv zeta.
  repeat match goal with
  | |- context [spawnFood ?x] =>
      let x1 := fresh "x" in let z1 := fresh "z" in let d1 := fresh "d" in
      destruct (spawnFood_spec x) as (x1 & z1 & d1 & ->)
  end.
  repeat match goal with
  | |- context [spawnEnemy ?x] =>
      let x1 := fresh "x" in let z1 := fresh "z" in
      let v1 := fresh "v" in let d1 := fresh "d" in
      destruct (spawnEnemy_spec x) as (x1 & z1 & v1 & d1 & ->)
  end.
  do 4 eexists. repeat split; reflexivity.
Qed.

Lemma resetGame_cleared (s : State num) : resetGame s = resetGame (cleared s).
Proof. destruct s; reflexivity. Qed.

Lemma initScene_enemies (page : Overlay) (rnd : nat -> num) :
  length (enemies (initScene page rnd)) = 2.
Proof.
  unfold initScene. cbv zeta.
  repeat match goal with
  | |- context [spawnFood ?x] =>
      let x1 := fresh "x" in let z1 := fresh "z" in let d1 := fresh "d" in
      destruct (spawnFood_spec x) as (x1 & z1 & d1 & ->)
  end.
  repeat match goal with
  | |- context [spawnEnemy ?x] =>
      let x1 := fresh "x" in let z1 := fresh "z" in
      let v1 := fresh "v" in let d1 := fresh "d" in
      destruct (spawnEnemy_spec x) as (x1 & z1 & v1 & d1 & ->)
  end.
  reflexivity.
Qed.

Lemma startGame_inactive (dt : num) (s : State num) :
  gameActive s = false -> startGame dt s = animate dt (resetGame s).
Proof. intros H. unfold startGame. now rewrite H. Qed.

Lemma startGame_active (dt : num) (s : State num) :
  gameActive s = true -> startGame dt s = s.
Proof. intros H. unfold startGame. now rewrite H. Qed.
End Sessions.

(** C8, as stated, fails: after [endGame] the food, the enemy, the bullet
    and the trail of the ended session are still there. *)
Lemma C8_counterexample :
  gameActive (endGame msgWall crowded) = false /\
  length (foods (endGame msgWall crowded)) = 1 /\
  length (enemies (endGame msgWall crowded)) = 1 /\
  length (bullets (endGame msgWall crowded)) = 1 /\
  length (tailPositions (endGame msgWall crowded)) = 1.
Proof. repeat split. Qed.

(** C8, amended. [endGame] stops the session and shows the overlay; it
    leaves the foods, the enemies, the bullets, the trail and the segments
    as they are.  They are emptied by the next [startGame], which acts only
    on a session that is not running, before anything is spawned: the reset
    state has no bullet, an empty trail, the five initial segments, two foods
    and two enemies, and is the same whatever the registries held. *)
Theorem C8_registries_cleared_at_restart :
  (forall (num : Type) (N : Number num) (msg : string) (s : State num),
     gameActive (endGame msg s) = false /\
     foods (endGame msg s) = foods s /\
     enemies (endGame msg s) = enemies s /\
     bullets (endGame msg s) = bullets s /\
     tailPositions (endGame msg s) = tailPositions s /\
     tailSegments (endGame msg s) = tailSegments s)
  /\
  (forall (num : Type) (N : Number num) (T : Trig num) (dt : num) (s : State num),
     gameActive s = false ->
     startGame dt s = animate dt (resetGame s) /\
     bullets (resetGame s) = [] /\
     tailPositions (resetGame s) = [] /\
     tailSegments (resetGame s) = newSegments 0 5 /\
     length (foods (resetGame s)) = 2 /\
     length (enemies (resetGame s)) = 2 /\
     resetGame s = resetGame (cleared s)).
Proof.
  split.
  - intros num N msg s. repeat split.
  - intros num N T dt s Ha.
    destruct (resetGame_spec s)
      as (f1 & f2 & e1 & e2 & Hf & _ & _ & He & _ & _ & Hb & Ht & Hs & _).
    rewrite Hf, He, Hb, Ht, Hs.
    repeat split; auto using startGame_inactive, resetGame_cleared.
Qed.

(** The empty arena, ended at a wall and started again. *)
Lemma C8_registries_cleared_at_restart_witness :
  bullets (resetGame (endGame msgWall emptyArena)) = [] /\
  tailPositions (resetGame (endGame msgWall emptyArena)) = [] /\
  length (foods (resetGame (endGame msgWall emptyArena))) = 2 /\
  length (enemies (resetGame (endGame msgWall emptyArena))) = 2.
Proof.
  destruct (proj2 C8_registries_cleared_at_restart R Real RealTrig 0%R
              (endGame msgWall emptyArena) eq_refl)
    as (_ & H1 & H2 & _ & H3 & H4 & _).
  repeat split; assumption.
Defined.

(* ================================================================== *)
(** ** Invariants of the runs *)

Section Runs.
Context {num : Type} {N : Number num} {T : Trig num}.
Local Open Scope num_scope.

(** The mouse changes the orientation only, a click adds a bullet only. *)
Lemma onMouseMove_spec (l : bool) (mx my : num) (s : State num) :
  onMouseMove l mx my s =
  set_pitch (pitch (onMouseMove l mx my s)) (set_yaw (yaw (onMouseMove l mx my s)) s).
Proof.
  unfold onMouseMove.
  destruct (negb (gameActive s) || negb l); [destruct s; reflexivity|].
  cbv zeta. cbn [pitch yaw set_pitch set_yaw].
  repeat match goal with |- context [if ?c then _ else _] => destruct c end;
    destruct s; reflexivity.
Qed.

Lemma onMouseDown_spec (l : bool) (b : nat) (s : State num) :
  onMouseDown l b s = set_bullets (bullets (onMouseDown l b s)) s.
Proof.
  unfold onMouseDown, shoot.
  destruct (negb (gameActive s)); [|destruct (negb l); [|destruct (b =? 0)%nat]];
    destruct s; reflexivity.
Qed.

Lemma animate_enemies (dt : num) (s : State num) :
  length (enemies (animate dt s)) <= Nat.max (length (enemies s)) 5.
Proof.
  destruct (gameActive s) eqn:Ha.
  - apply (animate_pickups dt _ Ha).
  - rewrite (animate_inactive _ _ Ha). lia.
Qed.

Lemma handle_enemies (e : Event num) (s : State num) :
  length (enemies s) <= 5 -> length (enemies (handle e s)) <= 5.
Proof.
  intros H. destruct e as [dt|dt|l mx my|l b]; cbn [handle].
  - pose proof (animate_enemies dt s). lia.
  - destruct (gameActive s) eqn:Ha.
    + now rewrite (startGame_active _ _ Ha).
    + rewrite (startGame_inactive _ _ Ha).
      pose proof (animate_enemies dt (resetGame s)) as H5.
      destruct (resetGame_spec s) as (f1 & f2 & e1 & e2 & _ & _ & _ & He & _).
      rewrite He in H5. cbn [length] in H5. lia.
  - rewrite onMouseMove_spec. exact H.
  - rewrite onMouseDown_spec. exact H.
Qed.

Lemma run_enemies (es : list (Event num)) (s : State num) :
  length (enemies s) <= 5 -> length (enemies (run es s)) <= 5.
Proof.
  revert s. induction es as [|e es IH]; intros s H; [exact H|].
  cbn [run fold_left]. apply IH, handle_enemies, H.
Qed.

(** With five enemies or more, a collection spawns none. *)
Lemma collect_guard (i : nat) (s : State num) :
  5 <= length (enemies s) -> enemies (collect i s) = enemies s.
Proof.
  intros H. destruct (collect_spec i s) as (f & d & es & -> & _ & [->|(Hlt & _)]).
  - cbn [enemies set_enemies]. apply app_nil_r.
  - lia.
Qed.
End Runs.

(** C10. A session starts with exactly two enemies; the one place of a
    frame where an enemy is spawned, the collection of a food, spawns none
    when there are five enemies or more; so, in every state the page reaches
    from its initial scene, whatever the events and the random numbers,
    there are at most five enemies. *)
Theorem C10_at_most_five_enemies :
  forall (num : Type) (N : Number num) (T : Trig num),
    (forall s : State num, length (enemies (resetGame s)) = 2) /\
    (forall (i : nat) (s : State num),
       5 <= length (enemies s) -> enemies (collect i s) = enemies s) /\
    (forall (dt : num) (s : State num),
       length (enemies (animate dt s)) <= Nat.max (length (enemies s)) 5) /\
    (forall (page : Overlay) (rnd : nat -> num) (es : list (Event num)),
       length (enemies (run es (initScene page rnd))) <= 5).
Proof.
  intros num N T. split; [|split; [|split]].
  - intros s.
    destruct (resetGame_spec s) as (f1 & f2 & e1 & e2 & _ & _ & _ & -> & _).
    reflexivity.
  - apply collect_guard.
  - apply animate_enemies.
  - intros page rnd es. apply run_enemies. rewrite initScene_enemies. lia.
Qed.

(* ================================================================== *)
(** ** The heights of the game, over the reals

    The camera is kept at eye height (1.6), the foods and the enemies at
    0.5, the segments at 0.2, and the proximity tests use the distance in
    space: with these heights a food or an enemy is at 1.1 at least from the
    player and a segment at 1.4 at least. *)

Section Heights.
Local Open Scope R_scope.

Lemma foodNear_far (s : State R) (f : Vector3 R) :
  vy (camera s) = 16 / 10 -> onFloor f -> foodNear s f = false.
Proof.
  intros Hc Hf. unfold foodNear. apply Rltb_false.
  pose proof (distanceTo_height (camera s) f) as H.
  unfold onFloor, floorY, dec in Hf. cbn [nadd ndiv ofZ Real] in Hf.
  rewrite Hc, Hf in H.
  replace (16 / 10 - (0 + 5 / 10)) with (11 / 10) in H by lra.
  rewrite Rabs_pos_eq in H by lra. cbn [ofZ Real]. lra.
Qed.

Lemma playerNear_far (s : State R) (e : Enemy R) :
  vy (camera s) = 16 / 10 -> onFloor (position e) -> playerNear s e = false.
Proof.
  intros Hc He. exact (@foodNear_far s (position e) Hc He).
Qed.

Lemma segmentNear_far (s : State R) (seg : Vector3 R) :
  vy (camera s) = 16 / 10 -> onGround seg -> segmentNear s seg = false.
Proof.
  intros Hc Hs. unfold segmentNear. apply Rltb_false.
  pose proof (distanceTo_height (camera s) seg) as H.
  unfold onGround in Hs. rewrite Hc, Hs in H.
  replace (16 / 10 - 2 / 10) with (14 / 10) in H by lra.
  rewrite Rabs_pos_eq in H by lra. unfold dec. cbn [ndiv ofZ Real]. lra.
Qed.

Lemma newSegments_onGround (from count : nat) :
  Forall onGround (newSegments from count : list (Vector3 R)).
Proof.
  revert from. induction count as [|c IH]; intros from; cbn [newSegments];
    constructor; [reflexivity | apply IH].
Qed.

Lemma filter_none {A : Type} (f : A -> bool) (l : list A) :
  Forall (fun x => f x = false) l -> filter f l = [].
Proof.
  induction 1 as [|x l Hx _ IH]; cbn [filter]; [reflexivity|].
  now rewrite Hx.
Qed.

Lemma filter_all {A : Type} (f : A -> bool) (l : list A) :
  Forall (fun x => f x = false) l -> filter (fun x => negb (f x)) l = l.
Proof.
  induction 1 as [|x l Hx _ IH]; cbn [filter]; [reflexivity|].
  rewrite Hx. cbn [negb]. now rewrite IH.
Qed.

Lemma stepPhase_height (dt : R) (s : State R) :
  vy (camera s) = 16 / 10 -> vy (camera (stepPhase dt s)) = 16 / 10.
Proof.
  intros Hc. destruct (stepAccumulator s + dt >=? stepInterval)%num eqn:H.
  - rewrite (stepPhase_fires _ _ H). reflexivity.
  - rewrite (stepPhase_idle _ _ H). exact Hc.
Qed.

(** In a grounded state no food is collected, and neither an enemy nor a
    segment is ever near the player: a frame changes the bullets, the
    enemies and the score of the enemies shot. *)
Lemma grounded_simulate (dt : R) (s : State R) :
  Grounded s ->
  hitsEnemy (simulate dt s) = false /\
  hitsSelf (simulate dt s) = false /\
  Grounded (simulate dt s) /\
  tailLength (simulate dt s) = tailLength s /\
  moveSpeed (simulate dt s) = moveSpeed s /\
  foods (simulate dt s) = foods s /\
  length (tailSegments (simulate dt s)) = length (tailSegments s) /\
  exists shot, (shot <= length (bullets s))%nat /\
               score (simulate dt s) = (score s + 5 * shot)%nat.
Proof.
  intros (Hc & Hf & Hg).
  pose proof (stepPhase_height dt s Hc) as Hc1.
  assert (Hfar : Forall (fun f => foodNear (stepPhase dt s) f = false) (foods s)).
  { eapply Forall_impl; [|exact Hf]. intros f. now apply foodNear_far. }
  destruct (simulate_spec dt s)
    as (segs & bs & es & k1 & news & d & es2 & E & Hsegs & HP & Hes & Hk1 & _
        & Hnews & _ & Hes2 & _ & _).
  cbv zeta in E, Hnews, Hes2.
  rewrite (filter_none _ Hfar) in E, Hnews, Hes2. rewrite (filter_all _ Hfar) in E.
  cbn [length] in *.
  destruct news; [|discriminate]. destruct es2; [|cbn [length] in Hes2; lia].
  assert (Hcam : camera (simulate dt s) = camera (stepPhase dt s))
    by apply simulate_step.
  assert (Hsegs' : tailSegments (simulate dt s) = segs).
  { rewrite E. unfold collected.
    cbn [tailSegments set_enemies set_drawn set_foods set_tailSegments set_score
         set_moveSpeed set_tailLength Nat.mul repeat]. apply app_nil_r. }
  assert (Hen : enemies (simulate dt s) = map (wander dt) es).
  { rewrite E. unfold collected.
    cbn [enemies set_enemies set_drawn set_foods set_tailSegments set_score
         set_moveSpeed set_tailLength set_bullets]. apply app_nil_r. }
  assert (Hground : Forall onGround segs) by (apply HP; [reflexivity|assumption]).
  assert (H1 : tailLength (stepPhase dt s) = tailLength s /\
               moveSpeed (stepPhase dt s) = moveSpeed s)
    by (rewrite stepPhase_spec; split; reflexivity).
  split; [|split; [|split; [|split; [|split; [|split; [|split]]]]]].
  - destruct (hitsEnemy (simulate dt s)) eqn:Hh; [|reflexivity].
    apply hitsEnemy_true in Hh as (e & He & Hn).
    rewrite playerNear_far in Hn; [discriminate| now rewrite Hcam |].
    rewrite Hen in He. apply in_map_iff in He as (e0 & <- & _). reflexivity.
  - destruct (hitsSelf (simulate dt s)) eqn:Hh; [|reflexivity].
    apply hitsSelf_true in Hh as (j & seg & _ & Hj & Hn).
    rewrite segmentNear_far in Hn; [discriminate| now rewrite Hcam |].
    rewrite Hsegs' in Hj. apply nth_error_In in Hj.
    rewrite Forall_forall in Hground. now apply Hground.
  - repeat split.
    + now rewrite Hcam.
    + rewrite E. unfold collected.
      cbn [foods set_enemies set_drawn set_foods]. now rewrite app_nil_r.
    + now rewrite Hsegs'.
  - rewrite E. unfold collected. rewrite trimTrail_spec.
    cbn [tailLength set_enemies set_drawn set_foods set_tailSegments set_score
         set_moveSpeed set_tailLength set_bullets set_tailPositions].
    destruct H1 as (-> & _). lia.
  - rewrite E. unfold collected. rewrite trimTrail_spec.
    cbn [moveSpeed set_enemies set_drawn set_foods set_tailSegments set_score
         set_moveSpeed set_tailLength set_bullets set_tailPositions Nat.iter nat_rect].
    apply H1.
  - rewrite E. unfold collected.
    cbn [foods set_enemies set_drawn set_foods]. apply app_nil_r.
  - now rewrite Hsegs'.
  - exists k1. split; [assumption|].
    rewrite E. unfold collected.
    cbn [score set_enemies set_drawn set_foods set_tailSegments set_score]. lia.
Qed.
End Heights.

(* ================================================================== *)
(** ** Growth within a session *)

Section Growth.
Context {num : Type} {N : Number num} {T : Trig num}.

Lemma handle_grows (e : Event num) (s : State num) :
  inSession e ->
  tailLength s <= tailLength (handle e s) /\
  length (tailSegments s) <= length (tailSegments (handle e s)).
Proof.
  intros He. destruct e as [dt|dt|l mx my|l b]; cbn [handle]; [|contradiction| |].
  - destruct (gameActive s) eqn:Ha.
    + destruct (animate_pickups dt _ Ha) as (_ & _ & -> & -> & _). lia.
    + rewrite (animate_inactive _ _ Ha). lia.
  - rewrite onMouseMove_spec. cbn [tailLength tailSegments set_pitch set_yaw]. lia.
  - rewrite onMouseDown_spec. cbn [tailLength tailSegments set_bullets]. lia.
Qed.

Lemma run_grows (es : list (Event num)) (s : State num) :
  Forall inSession es ->
  tailLength s <= tailLength (run es s) /\
  length (tailSegments s) <= length (tailSegments (run es s)).
Proof.
  intros H. revert s. induction H as [|e es He _ IH]; intros s; [cbn; lia|].
  cbn [run fold_left]. fold (run es (handle e s)).
  destruct (@handle_grows e s He), (IH (handle e s)). lia.
Qed.
End Growth.

Section RealGrowth.
Local Open Scope R_scope.

Lemma speed_grows (k : nat) (v : R) :
  v <= Nat.iter k (fun v => (v + dec 5 100)%num) v.
Proof.
  induction k as [|k IH]; cbn [Nat.iter nat_rect]; [lra|].
  fold (Nat.iter k (fun v => (v + dec 5 100)%num) v).
  set (x := Nat.iter k (fun v => (v + dec 5 100)%num) v) in *.
  unfold dec. cbn [nadd ndiv ofZ Real]. lra.
Qed.

Lemma handle_speed (e : Event R) (s : State R) :
  inSession e -> moveSpeed s <= moveSpeed (handle e s).
Proof.
  intros He. destruct e as [dt|dt|l mx my|l b]; cbn [handle]; [|contradiction| |].
  - destruct (gameActive s) eqn:Ha.
    + destruct (animate_pickups dt _ Ha) as (_ & _ & _ & _ & -> & _).
      apply speed_grows.
    + rewrite (animate_inactive _ _ Ha). lra.
  - rewrite onMouseMove_spec. cbn [moveSpeed set_pitch set_yaw]. lra.
  - rewrite onMouseDown_spec. cbn [moveSpeed set_bullets]. lra.
Qed.

Lemma run_speed (es : list (Event R)) (s : State R) :
  Forall inSession es -> moveSpeed s <= moveSpeed (run es s).
Proof.
  intros H. revert s. induction H as [|e es He _ IH]; intros s; [cbn; lra|].
  cbn [run fold_left]. fold (run es (handle e s)).
  pose proof (@handle_speed e s He). pose proof (IH (handle e s)). lra.
Qed.

Lemma resetGame_grounded (s : State R) : Grounded (resetGame s).
Proof.
  destruct (resetGame_spec s)
    as (f1 & f2 & e1 & e2 & Hf & Hf1 & Hf2 & _ & _ & _ & _ & _ & Hs & _ & _ & _ & _ & _ & Hc & _).
  unfold Grounded. rewrite Hf, Hs, Hc. repeat split.
  - repeat constructor; assumption.
  - apply newSegments_onGround.
Qed.

(** In a grounded state the frame ends the session at the walls only. *)
Lemma grounded_animate (dt : R) (s : State R) :
  gameActive s = true -> Grounded s ->
  animate dt s =
  if hitsWall (simulate dt s) then endGame msgWall (simulate dt s)
  else present (simulate dt s).
Proof.
  intros Ha Hg. rewrite (animate_active _ _ Ha).
  destruct (@grounded_simulate dt s Hg) as (-> & -> & _). reflexivity.
Qed.

(** The first frame of a session leaves the length, the speed and the score
    at their initial values. *)
Lemma startGame_constants (dt : R) (s : State R) :
  gameActive s = false ->
  tailLength (startGame dt s) = 5%nat /\
  length (tailSegments (startGame dt s)) = 5%nat /\
  moveSpeed (startGame dt s) = 2 /\
  score (startGame dt s) = 0%nat.
Proof.
  intros Ha. rewrite (startGame_inactive _ _ Ha).
  pose proof (resetGame_grounded s) as Hg.
  destruct (resetGame_spec s)
    as (f1 & f2 & e1 & e2 & _ & _ & _ & _ & _ & _ & Hb & _ & Hs & Hl & Hm & Hsc & _ & _ & _ & Hact).
  destruct (@grounded_simulate dt (resetGame s) Hg)
    as (_ & _ & _ & Hl' & Hm' & _ & Hs' & shot & Hshot & Hsc').
  rewrite Hb in Hshot. cbn [length] in Hshot.
  rewrite (@grounded_animate dt (resetGame s) Hact Hg).
  assert (Hfin : forall x : State R,
            tailLength (if hitsWall (simulate dt (resetGame s))
                        then endGame msgWall x else present x) = tailLength x /\
            tailSegments (if hitsWall (simulate dt (resetGame s))
                          then endGame msgWall x else present x) = tailSegments x /\
            moveSpeed (if hitsWall (simulate dt (resetGame s))
                       then endGame msgWall x else present x) = moveSpeed x /\
            score (if hitsWall (simulate dt (resetGame s))
                   then endGame msgWall x else present x) = score x)
    by (intros x; destruct (hitsWall _); repeat split).
  destruct (Hfin (simulate dt (resetGame s))) as (-> & -> & -> & ->).
  rewrite Hl', Hm', Hs', Hsc', Hl, Hm, Hsc, Hs.
  repeat split. lia.
Qed.
(** The initial scene is grounded, and every event keeps a state so. *)
Lemma initScene_grounded (page : Overlay) (rnd : nat -> R) :
  Grounded (initScene page rnd) /\ tailLength (initScene page rnd) = 5%nat.
Proof.
  unfold initScene. cbv zeta.
  repeat match goal with
  | |- context [spawnFood ?x] =>
      let x1 := fresh "x" in let z1 := fresh "z" in let d1 := fresh "d" in
      destruct (spawnFood_spec x) as (x1 & z1 & d1 & ->)
  end.
  repeat match goal with
  | |- context [spawnEnemy ?x] =>
      let x1 := fresh "x" in let z1 := fresh "z" in
      let v1 := fresh "v" in let d1 := fresh "d" in
      destruct (spawnEnemy_spec x) as (x1 & z1 & v1 & d1 & ->)
  end.
  split; [|reflexivity]. unfold Grounded. repeat split.
  - repeat constructor.
  - apply newSegments_onGround.
Qed.

Lemma animate_grounded (dt : R) (s : State R) :
  Grounded s ->
  Grounded (animate dt s) /\ tailLength (animate dt s) = tailLength s.
Proof.
  intros Hg. destruct (gameActive s) eqn:Ha.
  - rewrite (@grounded_animate dt s Ha Hg).
    destruct (@grounded_simulate dt s Hg) as (_ & _ & Hg' & Hl & _).
    destruct (hitsWall (simulate dt s)); split; assumption.
  - rewrite (animate_inactive _ _ Ha). split; [assumption|reflexivity].
Qed.

Lemma handle_grounded (e : Event R) (s : State R) :
  Grounded s /\ tailLength s = 5%nat ->
  Grounded (handle e s) /\ tailLength (handle e s) = 5%nat.
Proof.
  intros (Hg & Hl). destruct e as [dt|dt|l mx my|l b]; cbn [handle].
  - destruct (@animate_grounded dt s Hg) as (Hg' & ->). split; assumption.
  - destruct (gameActive s) eqn:Ha.
    + rewrite (startGame_active _ _ Ha). split; assumption.
    + rewrite (startGame_inactive _ _ Ha).
      destruct (@animate_grounded dt (resetGame s) (resetGame_grounded s)) as (Hg' & ->).
      split; [assumption|].
      destruct (resetGame_spec s)
        as (f1 & f2 & e1 & e2 & _ & _ & _ & _ & _ & _ & _ & _ & _ & Hl' & _).
      exact Hl'.
  - rewrite onMouseMove_spec. split; assumption.
  - rewrite onMouseDown_spec. split; assumption.
Qed.

(** Over the reals, whatever the events and the random numbers, the body
    of the game never grows: the camera stays at eye height, 1.1 above the
    foods and the enemies and 1.4 above the segments, and the tests of
    lines 377, 406 and 420 compare the distance in space with 1, 1 and 0.4.
    No food is collected, and no session ends by an enemy or by the body. *)
Lemma reachable_grounded (page : Overlay) (rnd : nat -> R) (es : list (Event R)) :
  Grounded (run es (initScene page rnd)) /\
  tailLength (run es (initScene page rnd)) = 5%nat.
Proof.
  pose proof (initScene_grounded page rnd) as H.
  revert H. generalize (initScene page rnd).
  induction es as [|e es IH]; intros s H; [exact H|].
  cbn [run fold_left]. apply IH, handle_grounded, H.
Qed.
End RealGrowth.

(** C9. Along the events of a session under way (frames, mouse moves and
    clicks, in any number and order) [tailLength] and the number of segments
    never decrease, for any arithmetic, and over the reals [moveSpeed] never
    decreases.  The reset of [startGame] sets [tailLength] to 5, [moveSpeed]
    to 2 and the score to 0, and, over the reals, they still have these
    values when [startGame], called on a session that is not running,
    returns after its first frame. *)
Theorem C9_growth_and_reset :
  (forall (num : Type) (N : Number num) (T : Trig num)
          (es : list (Event num)) (s : State num),
     Forall inSession es ->
     tailLength s <= tailLength (run es s) /\
     length (tailSegments s) <= length (tailSegments (run es s)))
  /\
  (forall (es : list (Event R)) (s : State R),
     Forall inSession es -> (moveSpeed s <= moveSpeed (run es s))%R)
  /\
  (forall (num : Type) (N : Number num) (s : State num),
     tailLength (resetGame s) = 5 /\
     length (tailSegments (resetGame s)) = 5 /\
     moveSpeed (resetGame s) = #2 /\
     score (resetGame s) = 0)
  /\
  (forall (dt : R) (s : State R),
     gameActive s = false ->
     tailLength (startGame dt s) = 5 /\
     length (tailSegments (startGame dt s)) = 5 /\
     moveSpeed (startGame dt s) = 2%R /\
     score (startGame dt s) = 0).
Proof.
  split; [|split; [|split]].
  - intros num N T es s. apply run_grows.
  - apply run_speed.
  - intros num N s.
    destruct (resetGame_spec s)
      as (f1 & f2 & e1 & e2 & _ & _ & _ & _ & _ & _ & _ & _ & Hs & Hl & Hm & Hsc & _).
    rewrite Hs, Hl, Hm, Hsc. repeat split.
  - apply startGame_constants.
Qed.

(** The empty arena through a second of frames and a click; and its restart
    once it has ended. *)
Lemma C9_growth_and_reset_witness :
  (moveSpeed emptyArena
   <= moveSpeed (run [Frame (1 / 2); MouseDown true 0; Frame (1 / 2)] emptyArena))%R /\
  tailLength (startGame 0%R (endGame msgWall emptyArena)) = 5 /\
  moveSpeed (startGame 0%R (endGame msgWall emptyArena)) = 2%R /\
  score (startGame 0%R (endGame msgWall emptyArena)) = 0.
Proof.
  destruct C9_growth_and_reset as (_ & H2 & _ & H4).
  split.
  - apply H2. repeat constructor.
  - destruct (H4 0%R (endGame msgWall emptyArena) eq_refl) as (Ha & _ & Hb & Hc).
    repeat split; assumption.
Defined.

(* ================================================================== *)
(** ** The step of the player *)

Section StepOfPlayer.
Context {num : Type} {N : Number num} {T : Trig num}.
Local Open Scope num_scope.

(** A frame that steps: the camera is at the target of the step, which is
    the newest entry of the trail at the end of the frame. *)
Lemma animate_step_recorded (dt : num) (s : State num) :
  gameActive s = true ->
  (stepAccumulator s + dt >=? stepInterval) = true ->
  camera (animate dt s) = stepTarget s /\
  forall d, last (tailPositions (animate dt s)) d = stepTarget s.
Proof.
  intros Ha Hf.
  destruct (animate_step_fires _ _ Ha Hf) as (_ & Hc & Ht).
  split; [exact Hc|]. intros d.
  destruct (animate_trail dt _ Ha) as (_ & _ & Hlast).
  rewrite Hlast; rewrite Ht; [apply last_last|].
  destruct (tailPositions s); discriminate.
Qed.
End StepOfPlayer.

Section RealStep.
Local Open Scope R_scope.

(** The step covers exactly [stepSize] on the ground. *)
Lemma stepTarget_distance (s : State R) :
  vy (camera s) = 16 / 10 -> distanceTo (stepTarget s) (camera s) = 7 / 10.
Proof.
  intros Hc. rewrite stepTarget_real.
  unfold distanceTo, distanceToSquared, Math.sqrt.
  cbn [vx vy vz nsqrt nadd nsub nmul Real]. rewrite Hc.
  replace (_ + _ + _) with ((7 / 10) * (7 / 10)).
  - apply sqrt_square. lra.
  - generalize (sin2_cos2 (yaw s)). unfold Rsqr. intros H.
    replace ((vx (camera s) + sin (yaw s) * (7 / 10) - vx (camera s)) *
             (vx (camera s) + sin (yaw s) * (7 / 10) - vx (camera s)) +
             (16 / 10 - 16 / 10) * (16 / 10 - 16 / 10) +
             (vz (camera s) + cos (yaw s) * (7 / 10) - vz (camera s)) *
             (vz (camera s) + cos (yaw s) * (7 / 10) - vz (camera s)))
      with ((7 / 10) * (7 / 10) * (sin (yaw s) * sin (yaw s) + cos (yaw s) * cos (yaw s)))
      by ring.
    rewrite H. ring.
Qed.

(** The first frame of a fresh session, when it is shorter than a step
    interval: the session runs, the player has not moved. *)
Lemma startGame_fresh (dt0 : R) (s0 : State R) :
  gameActive s0 = false -> 0 <= dt0 < 7 / 10 ->
  gameActive (startGame dt0 s0) = true /\
  camera (startGame dt0 s0) = vec3 0 (16 / 10) 0 /\
  yaw (startGame dt0 s0) = 0 /\
  stepAccumulator (startGame dt0 s0) = 0 + dt0 /\
  tailPositions (startGame dt0 s0) = [].
Proof.
  intros Ha Hdt. rewrite (startGame_inactive _ _ Ha).
  set (r := resetGame s0).
  pose proof (resetGame_grounded s0) as Hg. fold r in Hg.
  destruct (resetGame_spec s0)
    as (f1 & f2 & e1 & e2 & _ & _ & _ & _ & _ & _ & _ & Ht & _ & _ & _ & _ & Hacc & Hyaw
        & Hcam & Hact).
  fold r in Ht, Hacc, Hyaw, Hcam, Hact.
  cbn [ofZ Real] in Hacc, Hyaw, Hcam.
  assert (Hidle : (stepAccumulator r + dt0 >=? stepInterval)%num = false).
  { rewrite Hacc. apply Rleb_false. unfold stepInterval, dec.
    cbn [nadd ndiv ofZ Real]. lra. }
  destruct (simulate_step dt0 r) as (Hc & Hac & Htp & Hga & _ & _ & _ & Hy & _).
  rewrite (stepPhase_idle _ _ Hidle) in Hc, Hac, Htp.
  cbn [camera stepAccumulator set_stepAccumulator] in Hc, Hac.
  rewrite trimTrail_spec in Htp.
  cbn [tailPositions tailSegments set_stepAccumulator set_tailPositions] in Htp.
  rewrite Ht, skipn_nil in Htp.
  assert (Hwall : hitsWall (simulate dt0 r) = false).
  { unfold hitsWall. rewrite Hc, Hcam. unfold worldSize, dec.
    cbn [vx vz nlt nadd nsub nneg ndiv ofZ Real]. rdecide. reflexivity. }
  rewrite (@grounded_animate dt0 r Hact Hg), Hwall. unfold present.
  cbn [gameActive camera yaw stepAccumulator tailPositions set_rendered set_hud].
  rewrite Hga, Hc, Hy, Hac, Htp, Hact, Hcam, Hyaw, Hacc.
  unfold snakeHeight, dec. cbn [ndiv ofZ Real]. repeat split.
Qed.

(** A fresh session, then one full step interval: the player is one step
    ahead along the initial forward direction, and the trail has this one
    position. *)
Lemma fresh_session_first_step (dt0 : R) (s0 : State R) :
  gameActive s0 = false -> 0 <= dt0 < 7 / 10 ->
  camera (animate stepInterval (startGame dt0 s0)) = vec3 0 (16 / 10) (7 / 10) /\
  tailPositions (animate stepInterval (startGame dt0 s0))
  = [vec3 0 (16 / 10) (7 / 10)].
Proof.
  intros Ha Hdt.
  destruct (@startGame_fresh dt0 s0 Ha Hdt) as (Hact & Hcam & Hyaw & Hacc & Htp).
  set (s1 := startGame dt0 s0) in *.
  assert (Hf : (stepAccumulator s1 + stepInterval >=? stepInterval)%num = true).
  { rewrite Hacc. apply Rleb_true. unfold stepInterval, dec.
    cbn [nadd ndiv ofZ Real]. lra. }
  assert (Htarget : stepTarget s1 = vec3 0 (16 / 10) (7 / 10)).
  { rewrite stepTarget_real, Hcam, Hyaw. cbn [vx vz].
    rewrite sin_0, cos_0. f_equal; lra. }
  destruct (animate_step_fires _ _ Hact Hf) as (_ & Hc & Ht).
  destruct (animate_segments stepInterval _ Hact) as (_ & Htr).
  rewrite Hc, Htr, trimTrail_spec. cbn [tailPositions set_tailPositions].
  rewrite Ht, Htp, Htarget. cbn [app length].
  replace (1 - _)%nat with 0%nat by lia. split; reflexivity.
Qed.
End RealStep.

(** C2. A frame that steps moves the camera by [stepSize] along [stepDir],
    the normalized vector [(sin yaw, 0, cos yaw)] in which the pitch does not
    occur, sets its height to the eye height, and records this position,
    which is the newest entry of the trail when the frame ends; this for any
    arithmetic.  Over the reals the new position is
    [(x + 0.7 sin yaw, 1.6, z + 0.7 cos yaw)], at distance 0.7 from the old
    one when it was at eye height; and a fresh session, once its first frame
    (shorter than an interval) and then a full step interval have passed, has
    the player at [(0, 1.6, 0.7)] and this position alone in the trail. *)
Theorem C2_step_moves_player :
  (forall (num : Type) (N : Number num) (T : Trig num) (dt : num) (s : State num),
     gameActive s = true ->
     (stepAccumulator s + dt >=? stepInterval)%num = true ->
     camera (animate dt s)
     = set_y snakeHeight (addScaledVector (camera s) (stepDir s) stepSize) /\
     (forall p, stepDir (set_pitch p s) = stepDir s) /\
     (forall d, last (tailPositions (animate dt s)) d = camera (animate dt s)))
  /\
  (forall (dt : R) (s : State R),
     gameActive s = true ->
     (stepAccumulator s + dt >=? stepInterval)%num = true ->
     camera (animate dt s)
     = vec3 (vx (camera s) + sin (yaw s) * stepSize) snakeHeight
            (vz (camera s) + cos (yaw s) * stepSize) /\
     (vy (camera s) = snakeHeight ->
      distanceTo (camera (animate dt s)) (camera s) = stepSize))%R
  /\
  (forall (dt0 : R) (s0 : State R),
     gameActive s0 = false -> (0 <= dt0 < stepInterval)%R ->
     camera (animate stepInterval (startGame dt0 s0))
     = vec3 0%R snakeHeight stepSize /\
     tailPositions (animate stepInterval (startGame dt0 s0))
     = [vec3 0%R snakeHeight stepSize] /\
     length (tailPositions (animate stepInterval (startGame dt0 s0))) = 1).
Proof.
  split; [|split].
  - intros num N T dt s Ha Hf.
    destruct (animate_step_recorded _ _ Ha Hf) as (Hc & Hl).
    rewrite Hc. repeat split; auto.
  - intros dt s Ha Hf.
    destruct (animate_step_recorded _ _ Ha Hf) as (-> & _).
    split; [apply stepTarget_real|]. intros Hc. now apply stepTarget_distance.
  - intros dt0 s0 Ha Hdt.
    destruct (@fresh_session_first_step dt0 s0 Ha Hdt) as (Hc & Ht).
    rewrite Ht. repeat split. exact Hc.
Qed.

(** The restart of the ended empty arena, a first frame of 0.1 s, then a
    frame of a full interval. *)
Lemma C2_step_moves_player_witness :
  camera (animate stepInterval (startGame (1 / 10)%R (endGame msgWall emptyArena)))
  = vec3 0%R snakeHeight stepSize /\
  length (tailPositions
            (animate stepInterval (startGame (1 / 10)%R (endGame msgWall emptyArena))))
  = 1.
Proof.
  destruct (proj2 (proj2 C2_step_moves_player) (1 / 10)%R (endGame msgWall emptyArena)
              eq_refl) as (H1 & _ & H2).
  - unfold stepInterval, dec. cbn. lra.
  - split; assumption.
Defined.

(* ================================================================== *)
(** ** More of the game: sessions that are not running *)

Section Idle.
Context {num : Type} {N : Number num} {T : Trig num}.

Lemma handle_inactive (e : Event num) (s : State num) :
  gameActive s = false -> inSession e -> handle e s = s.
Proof.
  intros Ha He. destruct e as [dt|dt|l mx my|l b]; cbn [handle]; [|contradiction| |].
  - apply animate_inactive, Ha.
  - unfold onMouseMove. now rewrite Ha.
  - unfold onMouseDown. now rewrite Ha.
Qed.

Lemma run_inactive (es : list (Event num)) (s : State num) :
  gameActive s = false -> Forall inSession es -> run es s = s.
Proof.
  intros Ha H. induction H as [|e es He _ IH]; [reflexivity|].
  cbn [run fold_left]. rewrite (@handle_inactive e s Ha He). exact IH.
Qed.
End Idle.

(** X1. While no session runs (before the first start, or after the end of
    a session), frames, mouse moves and mouse clicks change nothing at all:
    no bullet is fired, the view does not turn, nothing moves. *)
Theorem idle_session_ignores_input :
  forall (num : Type) (N : Number num) (T : Trig num)
         (es : list (Event num)) (s : State num),
    gameActive s = false -> Forall inSession es -> run es s = s.
Proof.
  intros num N T es s. apply run_inactive.
Qed.

(** The empty arena, ended at a wall: a frame, a mouse move and a click. *)
Lemma idle_session_ignores_input_witness :
  run [Frame 1%R; MouseMove true 3%R 4%R; MouseDown true 0]
      (endGame msgWall emptyArena)
  = endGame msgWall emptyArena.
Proof.
  apply (@idle_session_ignores_input R Real RealTrig); [reflexivity|].
  repeat constructor.
Defined.

(* ================================================================== *)
(** ** More of the game: what every reachable state satisfies *)

Section Reachable.
Context {num : Type} {N : Number num} {T : Trig num}.
Local Open Scope num_scope.

Lemma newSegments_level (from count : nat) :
  Forall (fun seg : Vector3 num => vy seg = dec 2 10) (newSegments from count).
Proof.
  revert from. induction count as [|c IH]; intros from; cbn [newSegments];
    constructor; [reflexivity | apply IH].
Qed.

Lemma newSegments_length (from count : nat) :
  length (newSegments from count : list (Vector3 num)) = count.
Proof.
  revert from. induction count as [|c IH]; intros from; cbn [newSegments length];
    [reflexivity | now rewrite IH].
Qed.

(** The initial scene: five segments, two foods, two enemies, no bullet, no
    trail, the camera at the origin at eye height, and no session running. *)
Lemma initScene_spec (page : Overlay) (rnd : nat -> num) :
  exists f1 f2 e1 e2,
    foods (initScene page rnd) = [f1; f2] /\ onFloor f1 /\ onFloor f2 /\
    enemies (initScene page rnd) = [e1; e2] /\
    onFloor (position e1) /\ onFloor (position e2) /\
    bullets (initScene page rnd) = [] /\
    tailPositions (initScene page rnd) = [] /\
    tailSegments (initScene page rnd) = newSegments 0 5 /\
    tailLength (initScene page rnd) = 5%nat /\
    score (initScene page rnd) = 0%nat /\
    camera (initScene page rnd) = vec3 #0 snakeHeight #0 /\
    gameActive (initScene page rnd) = false.
Proof.
  unfold initScene. cbv zeta.
  repeat match goal with
  | |- context [spawnFood ?x] =>
      let x1 := fresh "x" in let z1 := fresh "z" in let d1 := fresh "d" in
      destruct (spawnFood_spec x) as (x1 & z1 & d1 & ->)
  end.
  repeat match goal with
  | |- context [spawnEnemy ?x] =>
      let x1 := fresh "x" in let z1 := fresh "z" in
      let v1 := fresh "v" in let d1 := fresh "d" in
      destruct (spawnEnemy_spec x) as (x1 & z1 & v1 & d1 & ->)
  end.
  do 4 eexists. repeat split; reflexivity.
Qed.

Lemma stepPhase_level (dt : num) (s : State num) :
  vy (camera s) = snakeHeight -> vy (camera (stepPhase dt s)) = snakeHeight.
Proof.
  intros Hc. destruct (stepAccumulator s + dt >=? stepInterval) eqn:H.
  - rewrite (stepPhase_fires _ _ H). reflexivity.
  - rewrite (stepPhase_idle _ _ H). exact Hc.
Qed.

Lemma Forall_filter_keep {A : Type} (P : A -> Prop) (f : A -> bool) (l : list A) :
  Forall P l -> Forall P (filter f l).
Proof.
  rewrite !Forall_forall. intros H x Hx. apply filter_In in Hx as [Hx _]. auto.
Qed.

Lemma simulate_level (dt : num) (s : State num) :
  Level s -> Level (simulate dt s).
Proof.
  intros (Hc & Hf & _ & Hg).
  destruct (simulate_spec dt s)
    as (segs & bs & es & k1 & news & d & es2 & E & _ & HP & _ & _ & _ & _ & Hn & _ & He2 & _).
  cbv zeta in E. rewrite E. unfold Level, collected. rewrite trimTrail_spec.
  cbn [camera foods enemies tailSegments set_enemies set_drawn set_foods
       set_tailSegments set_score set_moveSpeed set_tailLength set_bullets
       set_tailPositions].
  repeat split.
  - apply stepPhase_level, Hc.
  - apply Forall_app. split; [apply Forall_filter_keep, Hf | exact Hn].
  - apply Forall_app. split; [|exact He2].
    apply Forall_forall. intros e He. apply in_map_iff in He as (e0 & <- & _).
    reflexivity.
  - apply Forall_app. split; [apply HP; [reflexivity|exact Hg]|].
    apply Forall_forall. intros x Hx. apply repeat_spec in Hx. subst x. reflexivity.
Qed.

Lemma animate_level (dt : num) (s : State num) :
  Level s -> Level (animate dt s).
Proof.
  intros Hl. destruct (gameActive s) eqn:Ha.
  - destruct (animate_simulate dt _ Ha) as (a & o & h & r & ->).
    exact (simulate_level dt Hl).
  - now rewrite (animate_inactive _ _ Ha).
Qed.

Lemma resetGame_level (s : State num) : Level (resetGame s).
Proof.
  destruct (resetGame_spec s)
    as (f1 & f2 & e1 & e2 & Hf & Hf1 & Hf2 & He & He1 & He2 & _ & _ & Hs & _ & _ & _
        & _ & _ & Hc & _).
  unfold Level. rewrite Hf, He, Hs, Hc. repeat split.
  - repeat constructor; assumption.
  - repeat constructor; assumption.
  - apply newSegments_level.
Qed.

Lemma handle_level (e : Event num) (s : State num) :
  Level s -> Level (handle e s).
Proof.
  intros Hl. destruct e as [dt|dt|l mx my|l b]; cbn [handle].
  - now apply animate_level.
  - destruct (gameActive s) eqn:Ha.
    + now rewrite (startGame_active _ _ Ha).
    + rewrite (startGame_inactive _ _ Ha). apply animate_level, resetGame_level.
  - rewrite onMouseMove_spec. exact Hl.
  - rewrite onMouseDown_spec. exact Hl.
Qed.

Lemma handle_length (e : Event num) (s : State num) :
  tailLength s = length (tailSegments s) ->
  tailLength (handle e s) = length (tailSegments (handle e s)).
Proof.
  assert (Hframe : forall dt x, tailLength x = length (tailSegments x) ->
            tailLength (animate dt x) = length (tailSegments (animate dt x))).
  { intros dt x Hx. destruct (gameActive x) eqn:Ha.
    - destruct (animate_pickups dt _ Ha) as (_ & _ & -> & -> & _). now rewrite Hx.
    - now rewrite (animate_inactive _ _ Ha). }
  intros H. destruct e as [dt|dt|l mx my|l b]; cbn [handle].
  - now apply Hframe.
  - destruct (gameActive s) eqn:Ha.
    + now rewrite (startGame_active _ _ Ha).
    + rewrite (startGame_inactive _ _ Ha). apply Hframe.
      destruct (resetGame_spec s)
        as (f1 & f2 & e1 & e2 & _ & _ & _ & _ & _ & _ & _ & _ & -> & -> & _).
      now rewrite newSegments_length.
  - rewrite onMouseMove_spec. exact H.
  - rewrite onMouseDown_spec. exact H.
Qed.
End Reachable.

(** X2. In every state the page reaches from its initial scene, whatever
    the events, the random numbers and the arithmetic, the camera is at eye
    height (1.6), every food and every enemy is at height [floorY + 0.5],
    and every segment at height 0.2. *)
Theorem reachable_heights :
  forall (num : Type) (N : Number num) (T : Trig num)
         (page : Overlay) (rnd : nat -> num) (es : list (Event num)),
    Level (run es (initScene page rnd)).
Proof.
  intros num N T page rnd es.
  assert (H : Level (initScene page rnd)).
  { destruct (initScene_spec page rnd)
      as (f1 & f2 & e1 & e2 & Hf & Hf1 & Hf2 & He & He1 & He2 & _ & _ & Hs & _ & _ & Hc & _).
    unfold Level. rewrite Hf, He, Hs, Hc. repeat split.
    - repeat constructor; assumption.
    - repeat constructor; assumption.
    - apply newSegments_level. }
  revert H. generalize (initScene page rnd).
  induction es as [|e es IH]; intros s H; [exact H|].
  cbn [run fold_left]. apply IH, handle_level, H.
Qed.

(** X3. In every reachable state the counter [tailLength] is the number of
    segment meshes: the length the HUD shows is the length of the body. *)
Theorem reachable_tailLength_is_segments :
  forall (num : Type) (N : Number num) (T : Trig num)
         (page : Overlay) (rnd : nat -> num) (es : list (Event num)),
    tailLength (run es (initScene page rnd))
    = length (tailSegments (run es (initScene page rnd))).
Proof.
  intros num N T page rnd es.
  assert (H : tailLength (initScene page rnd)
              = length (tailSegments (initScene page rnd))).
  { destruct (initScene_spec page rnd)
      as (f1 & f2 & e1 & e2 & _ & _ & _ & _ & _ & _ & _ & _ & -> & -> & _).
    now rewrite newSegments_length. }
  revert H. generalize (initScene page rnd).
  induction es as [|e es IH]; intros s H; [exact H|].
  cbn [run fold_left]. apply IH, handle_length, H.
Qed.

(* ================================================================== *)
(** ** More of the game: the HUD, the overlay and the score *)

Section Display.
Context {num : Type} {N : Number num} {T : Trig num}.

Lemma animate_outcome (dt : num) (s : State num) :
  gameActive s = true ->
  (gameActive (animate dt s) = true ->
   hud (animate dt s)
   = Some (score (animate dt s), length (tailSegments (animate dt s))) /\
   rendered (animate dt s) = S (rendered s) /\
   overlay (animate dt s) = overlay s) /\
  (gameActive (animate dt s) = false ->
   display (overlay (animate dt s)) = true /\
   heading (overlay (animate dt s)) = "Game Over"%string /\
   shownScore (overlay (animate dt s)) = score (animate dt s) /\
   hud (animate dt s) = hud s).
Proof.
  intros Ha. rewrite (animate_active _ _ Ha).
  destruct (simulate_step dt s) as (_ & _ & _ & Hact & Ho & Hh & Hr & _).
  destruct (hitsEnemy _); [|destruct (hitsSelf _); [|destruct (hitsWall _)]].
  - split; [discriminate|]. intros _. repeat split. exact Hh.
  - split; [discriminate|]. intros _. repeat split. exact Hh.
  - split; [discriminate|]. intros _. repeat split. exact Hh.
  - unfold present. cbn [gameActive hud rendered overlay score tailSegments
                         set_rendered set_hud].
    split; [|congruence]. intros _. rewrite Hr, Ho. repeat split.
Qed.

Lemma handle_score (e : Event num) (s : State num) :
  inSession e -> score s <= score (handle e s).
Proof.
  intros He. destruct e as [dt|dt|l mx my|l b]; cbn [handle]; [|contradiction| |].
  - destruct (gameActive s) eqn:Ha.
    + destruct (animate_pickups dt _ Ha) as (_ & _ & _ & _ & _ & (shot & _ & ->) & _).
      lia.
    + rewrite (animate_inactive _ _ Ha). lia.
  - rewrite onMouseMove_spec. cbn [score set_pitch set_yaw]. lia.
  - rewrite onMouseDown_spec. cbn [score set_bullets]. lia.
Qed.

Lemma run_score (es : list (Event num)) (s : State num) :
  Forall inSession es -> score s <= score (run es s).
Proof.
  intros H. revert s. induction H as [|e es He _ IH]; intros s; [cbn; lia|].
  cbn [run fold_left]. fold (run es (handle e s)).
  pose proof (@handle_score e s He). pose proof (IH (handle e s)). lia.
Qed.
End Display.

(** X4. A frame of a running session either keeps it running, and then it
    writes to the HUD the score and the number of segments as they are at
    the end of the frame, renders once and leaves the overlay alone; or it
    ends it, and then the overlay is shown with the heading "Game Over" and
    the score the session ended with, and the HUD keeps its last text. *)
Theorem frame_presents_or_ends :
  forall (num : Type) (N : Number num) (T : Trig num) (dt : num) (s : State num),
    gameActive s = true ->
    (gameActive (animate dt s) = true ->
     hud (animate dt s)
     = Some (score (animate dt s), length (tailSegments (animate dt s))) /\
     rendered (animate dt s) = S (rendered s) /\
     overlay (animate dt s) = overlay s) /\
    (gameActive (animate dt s) = false ->
     display (overlay (animate dt s)) = true /\
     heading (overlay (animate dt s)) = "Game Over"%string /\
     shownScore (overlay (animate dt s)) = score (animate dt s) /\
     hud (animate dt s) = hud s).
Proof.
  intros num N T dt s. apply animate_outcome.
Qed.

(** The cornered player: its frame ends the session. *)
Lemma frame_presents_or_ends_witness :
  (gameActive (animate 0%R cornered) = true ->
   hud (animate 0%R cornered)
   = Some (score (animate 0%R cornered), length (tailSegments (animate 0%R cornered))) /\
   rendered (animate 0%R cornered) = S (rendered cornered) /\
   overlay (animate 0%R cornered) = overlay cornered) /\
  (gameActive (animate 0%R cornered) = false ->
   display (overlay (animate 0%R cornered)) = true /\
   heading (overlay (animate 0%R cornered)) = "Game Over"%string /\
   shownScore (overlay (animate 0%R cornered)) = score (animate 0%R cornered) /\
   hud (animate 0%R cornered) = hud cornered).
Proof.
  exact (@frame_presents_or_ends R Real RealTrig 0%R cornered eq_refl).
Defined.

(** X5. Within a session the score never decreases, whatever the frames,
    the mouse moves and the clicks. *)
Theorem score_never_decreases :
  forall (num : Type) (N : Number num) (T : Trig num)
         (es : list (Event num)) (s : State num),
    Forall inSession es -> score s <= score (run es s).
Proof.
  intros num N T es s. apply run_score.
Qed.

(** The empty arena through two frames and a click. *)
Lemma score_never_decreases_witness :
  score emptyArena
  <= score (run [Frame (1 / 2)%R; MouseDown true 0; Frame (1 / 2)%R] emptyArena).
Proof.
  apply (@score_never_decreases R Real RealTrig). repeat constructor.
Defined.

(* ================================================================== *)
(** ** More of the game: the bullets of a frame *)

Section MoreArrays.
Context {A : Type}.

Lemma skipn_removeAt (i : nat) (l : list A) :
  skipn i (removeAt i l) = skipn (S i) l.
Proof.
  unfold removeAt. revert i. induction l as [|h t IH]; intros [|i]; simpl; auto.
Qed.

Lemma skipn_setAt (i : nat) (v : A) (l : list A) :
  i < length l -> skipn i (setAt i v l) = v :: skipn (S i) l.
Proof.
  revert i. induction l as [|h t IH]; intros [|i] H; simpl in *; try lia; auto.
  apply IH. lia.
Qed.

Lemma setAt_middle (pre post : list A) (x v : A) :
  setAt (length pre) v (pre ++ x :: post) = pre ++ v :: post.
Proof.
  induction pre as [|h t IH]; cbn; [reflexivity | now rewrite IH].
Qed.

Lemma nth_error_setAt (i j : nat) (v : A) (l : list A) :
  nth_error (setAt i v l) j
  = if Nat.eqb i j then option_map (fun _ => v) (nth_error l j)
    else nth_error l j.
Proof.
  revert i j. induction l as [|h t IH]; intros [|i] [|j]; simpl;
    try reflexivity; try (destruct (Nat.eqb _ _); reflexivity).
  apply IH.
Qed.
End MoreArrays.

Section MoreBullets.
Context {num : Type} {N : Number num} {T : Trig num}.
Local Open Scope num_scope.

Lemma bulletStep_inbounds (dt : num) (i : nat) (s : State num) :
  Forall (fun b => outOfWorld b = false) (skipn (S i) (bullets s)) ->
  Forall (fun b => outOfWorld b = false) (skipn i (bullets (bulletStep dt i s))).
Proof.
  intros H. destruct (nth_error (bullets s) i) as [b|] eqn:Hb.
  - assert (Hi : i < length (bullets s)) by (apply nth_error_Some; congruence).
    destruct (outOfWorld (fly dt b)) eqn:Ho.
    + rewrite (bulletStep_out _ _ _ Hb Ho). cbn [bullets set_bullets].
      now rewrite skipn_removeAt.
    + rewrite (bulletStep_in _ _ _ Hb Ho).
      destruct (hitEnemy_spec (fly dt b) i (length (enemies s))
                  (set_bullets (setAt i (fly dt b) (bullets s)) s))
        as [[-> _]|(k & e & _ & _ & _ & _ & ->)];
        cbn [bullets set_bullets set_score set_enemies].
      * rewrite skipn_setAt by assumption. constructor; assumption.
      * now rewrite removeAt_setAt, skipn_removeAt.
  - unfold bulletStep. rewrite Hb.
    apply nth_error_None in Hb. rewrite skipn_all2 by lia. constructor.
Qed.

Lemma bulletLoop_inbounds (dt : num) (n : nat) (s : State num) :
  Forall (fun b => outOfWorld b = false) (skipn n (bullets s)) ->
  Forall (fun b => outOfWorld b = false) (bullets (bulletLoop dt n s)).
Proof.
  revert s. induction n as [|n IH]; intros s H; cbn [bulletLoop]; [exact H|].
  apply IH, bulletStep_inbounds, H.
Qed.

(** The bullets a frame works on are those of the state. *)
Lemma simulate_bullets (dt : num) (s : State num) :
  exists s0,
    bullets s0 = bullets s /\ enemies s0 = enemies s /\ score s0 = score s /\
    bullets (simulate dt s) = bullets (updateBullets dt s0).
Proof.
  unfold simulate.
  set (s1 := stepPhase dt s).
  assert (H1 : bullets s1 = bullets s /\ enemies s1 = enemies s /\ score s1 = score s)
    by (unfold s1; rewrite stepPhase_spec; repeat split).
  destruct H1 as (Hb1 & He1 & Hs1).
  destruct (followTrail_spec (trimTrail s1)) as (segsA & EA & _).
  destruct (followTrail_spec (followTrail (trimTrail s1))) as (segsB & EB & _).
  exists (followTrail (followTrail (trimTrail s1))). repeat split.
  - rewrite EB, EA, trimTrail_spec. exact Hb1.
  - rewrite EB, EA, trimTrail_spec. exact He1.
  - rewrite EB, EA, trimTrail_spec. exact Hs1.
  - match goal with |- context [collectFoods ?x] =>
      destruct (collectFoods_spec x) as (news & d & es2 & E & _) end.
    cbv zeta in E. rewrite E. reflexivity.
Qed.

(** With no enemy within the hit radius of any bullet, the bullet loop keeps
    the bullets that stay within the bounds, moved and in their order. *)
Lemma bulletLoop_no_hit (dt : num) (pre post : list (Bullet num)) (s : State num) :
  bullets s = pre ++ post ->
  (forall b e, In b pre -> In e (enemies s) -> bulletNear (fly dt b) e = false) ->
  bulletLoop dt (length pre) s =
  set_bullets
    (filter (fun b => negb (outOfWorld b)) (map (fly dt) pre) ++ post) s.
Proof.
  revert post s. induction pre as [|b pre IH] using rev_ind; intros post s Hs Hfar.
  - cbn [length bulletLoop map filter app] in *. rewrite <- Hs. destruct s; reflexivity.
  - rewrite length_app. cbn [length]. rewrite Nat.add_1_r. cbn [bulletLoop].
    rewrite <- app_assoc in Hs. cbn [app] in Hs.
    assert (Hb : nth_error (bullets s) (length pre) = Some b)
      by (rewrite Hs; apply nth_error_middle).
    rewrite map_app, filter_app. cbn [map filter].
    destruct (outOfWorld (fly dt b)) eqn:Ho; cbn [negb].
    + rewrite (bulletStep_out _ _ _ Hb Ho), Hs, removeAt_middle.
      rewrite (IH post (set_bullets (pre ++ post) s) eq_refl).
      * rewrite app_nil_r. destruct s; reflexivity.
      * intros b' e Hb' He. apply Hfar; [apply in_or_app; now left | exact He].
    + rewrite (bulletStep_in _ _ _ Hb Ho).
      destruct (hitEnemy_spec (fly dt b) (length pre) (length (enemies s))
                  (set_bullets (setAt (length pre) (fly dt b) (bullets s)) s))
        as [[-> _]|(k & e & _ & Hke & Hn & _)].
      * rewrite Hs, setAt_middle.
        rewrite (IH (fly dt b :: post) (set_bullets (pre ++ fly dt b :: post) s) eq_refl).
        -- rewrite <- app_assoc. destruct s; reflexivity.
        -- intros b' e Hb' He. apply Hfar; [apply in_or_app; now left | exact He].
      * cbn [enemies set_bullets] in Hke. apply nth_error_In in Hke.
        rewrite (Hfar b e) in Hn; [discriminate| |exact Hke].
        apply in_or_app. right. now left.
Qed.
End MoreBullets.

(** X6. After the bullet loop of a frame no bullet is beyond the bounds:
    every bullet that is left, at the end of a frame of a running session,
    has [|x| <= worldSize + 5] and [|z| <= worldSize + 5] as the test of line
    342 decides it. *)
Theorem no_bullet_beyond_bounds :
  forall (num : Type) (N : Number num) (T : Trig num) (dt : num) (s : State num),
    Forall (fun b => outOfWorld b = false) (bullets (updateBullets dt s)) /\
    (gameActive s = true ->
     Forall (fun b => outOfWorld b = false) (bullets (animate dt s))).
Proof.
  intros num N T dt s.
  assert (H : forall x : State num,
            Forall (fun b => outOfWorld b = false) (bullets (updateBullets dt x))).
  { intros x. apply bulletLoop_inbounds. rewrite skipn_all. constructor. }
  split; [apply H|]. intros Ha.
  destruct (animate_simulate dt _ Ha) as (a & o & h & r & ->).
  cbn [bullets set_rendered set_hud set_overlay set_gameActive].
  destruct (simulate_bullets dt s) as (s0 & _ & _ & _ & ->). apply H.
Qed.

(** X7. When no enemy is within the hit radius of any bullet after its
    move, the bullet loop changes the bullets only: it keeps those that stay
    within the bounds, each moved by [bulletSpeed * dt] along its direction,
    in their order; the enemies and the score are as before. *)
Theorem bullets_fly_or_leave :
  forall (num : Type) (N : Number num) (dt : num) (s : State num),
    (forall b e, In b (bullets s) -> In e (enemies s) ->
                 bulletNear (fly dt b) e = false) ->
    updateBullets dt s =
    set_bullets
      (filter (fun b => negb (outOfWorld b)) (map (fly dt) (bullets s))) s.
Proof.
  intros num N dt s Hfar. unfold updateBullets.
  rewrite (@bulletLoop_no_hit num N dt (bullets s) [] s).
  - now rewrite app_nil_r.
  - now rewrite app_nil_r.
  - exact Hfar.
Qed.

(** Two bullets, of which the stray one leaves the world. *)
Lemma bullets_fly_or_leave_witness :
  bullets (updateBullets (dec 1 10) twoBullets)
  = [mkBullet (vec3 #1 (dec 16 10) (dec 45 10)) (vec3 #0 #0 #1)].
Proof.
  rewrite (@bullets_fly_or_leave _ Double (dec 1 10) twoBullets).
  - vm_compute. reflexivity.
  - intros b e [<-|[<-|[]]] [<-|[]]; vm_compute; reflexivity.
Defined.

(* ================================================================== *)
(** ** More of the game: the body follows the trail *)

Section Following.
Context {num : Type} {N : Number num} {T : Trig num}.
Local Open Scope num_scope.

(** One turn of the follow loop, at index [i]. *)
Lemma followLoop_step (n i : nat) (s : State num) :
  followLoop (S n) i s =
  followLoop n (S i)
    (match nth_error (rev (tailPositions s)) i with
     | Some p =>
         set_tailSegments (setAt i (vec3 (vx p) (dec 2 10) (vz p)) (tailSegments s)) s
     | None => s
     end).
Proof.
  cbn [followLoop]. rewrite nth_error_rev.
  destruct (Nat.ltb_spec i (length (tailPositions s))) as [Hi|Hi].
  - replace (0 <=? Z.of_nat (length (tailPositions s)) - 1 - Z.of_nat i)%Z with true
      by (symmetry; apply Z.leb_le; lia).
    replace (Z.to_nat (Z.of_nat (length (tailPositions s)) - 1 - Z.of_nat i))
      with (length (tailPositions s) - S i)%nat by lia.
    reflexivity.
  - replace (0 <=? Z.of_nat (length (tailPositions s)) - 1 - Z.of_nat i)%Z with false
      by (symmetry; apply Z.leb_gt; lia).
    reflexivity.
Qed.

Lemma followLoop_nth (n i j : nat) (s : State num) :
  nth_error (tailSegments (followLoop n i s)) j
  = if (i <=? j)%nat && (j <? i + n)%nat
    then option_map (followed s j) (nth_error (tailSegments s) j)
    else nth_error (tailSegments s) j.
Proof.
  revert i s. induction n as [|n IH]; intros i s.
  - cbn [followLoop].
    destruct (Nat.leb_spec i j), (Nat.ltb_spec j (i + 0)); cbn [andb];
      try reflexivity; lia.
  - rewrite followLoop_step, IH.
    assert (Hfol : forall x,
              followed (match nth_error (rev (tailPositions s)) i with
                        | Some p =>
                            set_tailSegments
                              (setAt i (vec3 (vx p) (dec 2 10) (vz p)) (tailSegments s)) s
                        | None => s
                        end) j x = followed s j x)
      by (intros x; destruct (nth_error (rev (tailPositions s)) i); reflexivity).
    destruct (Nat.eq_dec i j) as [->|Hne].
    + replace ((S j <=? j)%nat && (j <? S j + n)%nat) with false
        by (destruct (Nat.leb_spec (S j) j); [lia|reflexivity]).
      replace ((j <=? j)%nat && (j <? j + S n)%nat) with true
        by (destruct (Nat.leb_spec j j), (Nat.ltb_spec j (j + S n)); cbn; lia || reflexivity).
      unfold followed.
      destruct (nth_error (rev (tailPositions s)) j) as [p|].
      * cbn [tailSegments set_tailSegments]. rewrite nth_error_setAt, Nat.eqb_refl.
        reflexivity.
      * destruct (nth_error (tailSegments s) j); reflexivity.
    + replace ((S i <=? j)%nat && (j <? S i + n)%nat)
        with ((i <=? j)%nat && (j <? i + S n)%nat)
        by (destruct (Nat.leb_spec i j), (Nat.ltb_spec j (i + S n)),
                     (Nat.leb_spec (S i) j), (Nat.ltb_spec j (S i + n));
            cbn [andb]; try reflexivity; lia).
      assert (Hnth : nth_error
                (tailSegments (match nth_error (rev (tailPositions s)) i with
                        | Some p =>
                            set_tailSegments
                              (setAt i (vec3 (vx p) (dec 2 10) (vz p)) (tailSegments s)) s
                        | None => s
                        end)) j = nth_error (tailSegments s) j).
      { destruct (nth_error (rev (tailPositions s)) i); [|reflexivity].
        cbn [tailSegments set_tailSegments]. rewrite nth_error_setAt.
        apply Nat.eqb_neq in Hne. now rewrite Hne. }
      rewrite Hnth.
      destruct ((i <=? j)%nat && (j <? i + S n)%nat); [|reflexivity].
      destruct (nth_error (tailSegments s) j); [|reflexivity].
      cbn [option_map]. now rewrite Hfol.
Qed.

Lemma followTrail_nth (j : nat) (s : State num) :
  nth_error (tailSegments (followTrail s)) j
  = option_map (followed s j) (nth_error (tailSegments s) j).
Proof.
  unfold followTrail. rewrite followLoop_nth. cbn [Nat.leb Nat.add].
  destruct (Nat.ltb_spec j (length (tailSegments s))) as [H|H]; cbn [andb];
    [reflexivity|].
  apply nth_error_None in H. now rewrite H.
Qed.

Lemma followTrail_twice (s : State num) :
  followTrail (followTrail s) = followTrail s.
Proof.
  destruct (followTrail_spec s) as (segs & E & _).
  destruct (followTrail_spec (followTrail s)) as (segs' & E' & _).
  assert (Hsegs : tailSegments (followTrail (followTrail s))
                  = tailSegments (followTrail s)).
  { apply nth_error_ext. intros j. rewrite followTrail_nth.
    assert (Hf : forall x, followed (followTrail s) j x = followed s j x)
      by (intros x; rewrite E; reflexivity).
    rewrite followTrail_nth.
    destruct (nth_error (tailSegments s) j) as [seg|]; [|reflexivity].
    cbn [option_map]. rewrite Hf. unfold followed.
    destruct (nth_error (rev (tailPositions s)) j); reflexivity. }
  rewrite E', E in Hsegs. cbn [tailSegments set_tailSegments] in Hsegs.
  rewrite E', Hsegs, E. destruct s; reflexivity.
Qed.
End Following.

(** X8. The follow loop changes the segments only, and puts the segment of
    index [j] at height 0.2 under the trail entry [j] places before the
    newest one; a segment with no such entry stays where it is.  Running
    the loop a second time, as [animate] does, changes nothing more. *)
Theorem segments_follow_trail :
  forall (num : Type) (N : Number num) (s : State num),
    followTrail s = set_tailSegments (tailSegments (followTrail s)) s /\
    length (tailSegments (followTrail s)) = length (tailSegments s) /\
    (forall j, nth_error (tailSegments (followTrail s)) j
               = option_map (followed s j) (nth_error (tailSegments s) j)) /\
    followTrail (followTrail s) = followTrail s.
Proof.
  intros num N s.
  destruct (followTrail_spec s) as (segs & E & Hlen & _).
  repeat split.
  - rewrite E. destruct s; reflexivity.
  - rewrite E. exact Hlen.
  - intros j. apply followTrail_nth.
  - apply followTrail_twice.
Qed.

Section FollowingFrame.
Context {num : Type} {N : Number num} {T : Trig num}.
Local Open Scope num_scope.

Lemma nth_error_rev_head {A : Type} (l : list A) (d : A) :
  l <> [] -> nth_error (rev l) 0 = Some (last l d).
Proof.
  intros H. destruct (exists_last H) as (l' & a & ->).
  rewrite rev_app_distr, last_last. reflexivity.
Qed.

(** The segments at the end of the frame: those the follow loop has placed
    along the trimmed trail, then the ones grown in the frame. *)
Lemma simulate_segments_placed (dt : num) (s : State num) :
  exists grown,
    tailSegments (simulate dt s)
    = tailSegments (followTrail (trimTrail (stepPhase dt s))) ++ grown.
Proof.
  unfold simulate. rewrite followTrail_twice.
  set (F := followTrail (trimTrail (stepPhase dt s))).
  destruct (updateBullets_frame dt F) as (bs & es & k & -> & _).
  unfold updateEnemies.
  match goal with |- context [collectFoods ?x] =>
    destruct (collectFoods_spec x) as (news & d & es2 & E & _) end.
  cbv zeta in E. rewrite E. unfold collected.
  cbn [tailSegments set_enemies set_drawn set_foods set_tailSegments set_score
       set_bullets].
  eexists. reflexivity.
Qed.

Lemma animate_follows (dt : num) (s : State num) (j : nat) :
  gameActive s = true -> j < length (tailSegments s) ->
  nth_error (tailSegments (animate dt s)) j
  = option_map (followed (animate dt s) j) (nth_error (tailSegments s) j).
Proof.
  intros Ha Hj.
  destruct (animate_segments dt _ Ha) as (Hs & Ht).
  assert (Hf : forall x, followed (animate dt s) j x
                         = followed (trimTrail (stepPhase dt s)) j x)
    by (intros x; unfold followed; now rewrite Ht).
  rewrite Hs. destruct (simulate_segments_placed dt s) as (grown & ->).
  destruct (followTrail_spec (trimTrail (stepPhase dt s))) as (segs & E & Hlen & _).
  assert (Hseg0 : tailSegments (trimTrail (stepPhase dt s)) = tailSegments s)
    by (rewrite trimTrail_spec, stepPhase_spec; reflexivity).
  rewrite nth_error_app1.
  - rewrite followTrail_nth, Hseg0.
    destruct (nth_error (tailSegments s) j); [|reflexivity].
    cbn [option_map]. now rewrite Hf.
  - rewrite E. cbn [tailSegments set_tailSegments]. rewrite Hlen, Hseg0. exact Hj.
Qed.
End FollowingFrame.

(** X9. At the end of a frame of a running session every segment the body
    had is at height 0.2 under the trail entry of its index, counted back
    from the newest one (when the trail has that many entries); so after a
    frame that steps, the first segment is right under the player. *)
Theorem body_follows_player :
  forall (num : Type) (N : Number num) (T : Trig num) (dt : num) (s : State num),
    gameActive s = true ->
    (forall j, j < length (tailSegments s) ->
       nth_error (tailSegments (animate dt s)) j
       = option_map (followed (animate dt s) j) (nth_error (tailSegments s) j)) /\
    ((stepAccumulator s + dt >=? stepInterval)%num = true ->
     tailSegments s <> [] ->
     nth_error (tailSegments (animate dt s)) 0
     = Some (vec3 (vx (camera (animate dt s))) (dec 2 10)
                  (vz (camera (animate dt s))))).
Proof.
  intros num N T dt s Ha. split.
  - intros j Hj. now apply animate_follows.
  - intros Hf Hne.
    destruct (tailSegments s) as [|seg0 rest] eqn:Hsegs; [congruence|].
    rewrite (@animate_follows num N T dt s 0 Ha) by (rewrite Hsegs; cbn; lia).
    rewrite Hsegs. cbn [nth_error option_map]. unfold followed.
    destruct (animate_step_recorded _ _ Ha Hf) as (Hc & Hl).
    assert (Htr : tailPositions (animate dt s) <> []).
    { destruct (animate_trail dt _ Ha) as (_ & (k & Hk) & Hlast).
      intros E. specialize (Hl seg0). rewrite E in Hl. cbn [last] in Hl.
      specialize (Hlast (stepTarget s)).
      rewrite E in Hlast. cbn [last] in Hlast.
      destruct (animate_step_fires _ _ Ha Hf) as (_ & _ & Ht).
      rewrite Ht in Hk. rewrite E in Hk.
      assert (Hlen : length (skipn k (tailPositions s ++ [stepTarget s])) = 0%nat)
        by (now rewrite <- Hk).
      rewrite length_skipn, length_app in Hlen. cbn [length] in Hlen.
      destruct (animate_segments dt _ Ha) as (_ & Htp).
      rewrite E, trimTrail_spec in Htp. cbn [tailPositions set_tailPositions] in Htp.
      apply (f_equal (@length _)) in Htp. rewrite length_skipn in Htp.
      cbn [length] in Htp. rewrite Ht, length_app in Htp. cbn [length] in Htp. lia. }
    rewrite (nth_error_rev_head (stepTarget s) Htr), Hl, Hc. reflexivity.
Qed.

(** The empty arena after a frame of one second: it steps. *)
Lemma body_follows_player_witness :
  nth_error (tailSegments (animate 1%R emptyArena)) 0
  = Some (vec3 (vx (camera (animate 1%R emptyArena))) (dec 2 10)
               (vz (camera (animate 1%R emptyArena)))).
Proof.
  apply (proj2 (@body_follows_player R Real RealTrig 1%R emptyArena eq_refl)).
  - apply Rleb_true. unfold stepInterval, dec. cbn. lra.
  - discriminate.
Defined.

(* ================================================================== *)
(** ** More of the game: spawning *)

Section MoreSpawning.
Context {num : Type} {N : Number num} {T : Trig num}.

Lemma draw_twice (s : State num) :
  set_drawn (S (S (drawn s))) (set_drawn (S (drawn s)) s)
  = set_drawn (drawn s + 2) s.
Proof.
  replace (drawn s + 2) with (S (S (drawn s))) by lia. destruct s; reflexivity.
Qed.

(** The loop of the spawners, when [k0] candidates are rejected. *)
Lemma drawPosition_tries (fuel tries : nat) (s : State num) :
  tries < 10 ->
  exists k0,
    k0 + tries < 10 /\ k0 <= fuel /\
    drawPosition fuel tries s
    = (candidate s (drawn s + 2 * k0), set_drawn (drawn s + 2 * k0 + 2) s) /\
    (forall m, m < k0 -> isPointNearSnake s (candidate s (drawn s + 2 * m)) = true) /\
    (isPointNearSnake s (candidate s (drawn s + 2 * k0)) = false \/
     k0 + tries = 9 \/ k0 = fuel).
Proof.
  revert tries s. induction fuel as [|fuel IH]; intros tries s Ht.
  - exists 0. cbn [drawPosition]. unfold randomPosition, Math_random.
    cbn [rng drawn set_drawn]. rewrite !Nat.mul_0_r, !Nat.add_0_r.
    split; [lia|]. split; [lia|]. split; [|split].
    + rewrite draw_twice. reflexivity.
    + intros m Hm. lia.
    + right. right. reflexivity.
  - cbn [drawPosition]. unfold randomPosition at 1, Math_random.
    cbn [rng drawn set_drawn].
    change (vec3 ((rng s (drawn s) * #2 - #1) * (worldSize - #2))%num
                 (floorY + dec 5 10)%num
                 ((rng s (S (drawn s)) * #2 - #1) * (worldSize - #2))%num)
      with (candidate s (drawn s)).
    change (isPointNearSnake (set_drawn (S (S (drawn s))) (set_drawn (S (drawn s)) s))
              (candidate s (drawn s)))
      with (isPointNearSnake s (candidate s (drawn s))).
    destruct (isPointNearSnake s (candidate s (drawn s))) eqn:Hnear;
      [destruct (Nat.ltb_spec (S tries) 10) as [Hlt|Hge]|]; cbn [andb].
    + destruct (IH (S tries) (set_drawn (S (S (drawn s))) (set_drawn (S (drawn s)) s)) Hlt)
        as (k0 & Hk & Hkf & E & Hrej & Hlast).
      exists (S k0). cbn [drawn set_drawn] in E, Hrej, Hlast.
      split; [lia|]. split; [lia|]. split; [|split].
      * rewrite E. f_equal.
        -- unfold candidate. cbn [rng set_drawn].
           replace (drawn s + 2 * S k0)%nat with (S (S (drawn s)) + 2 * k0)%nat by lia.
           reflexivity.
        -- replace (drawn s + 2 * S k0 + 2)%nat with (S (S (drawn s)) + 2 * k0 + 2)%nat
             by lia.
           destruct s; reflexivity.
      * intros [|m] Hm.
        -- rewrite Nat.mul_0_r, Nat.add_0_r. exact Hnear.
        -- replace (drawn s + 2 * S m)%nat with (S (S (drawn s)) + 2 * m)%nat by lia.
           apply (Hrej m). lia.
      * replace (drawn s + 2 * S k0)%nat with (S (S (drawn s)) + 2 * k0)%nat by lia.
        destruct Hlast as [H|[H|H]]; [left; exact H | right; left; lia | right; right; lia].
    + exists 0. rewrite !Nat.mul_0_r, !Nat.add_0_r.
      split; [lia|]. split; [lia|]. split; [|split].
      * rewrite draw_twice. reflexivity.
      * intros m Hm. lia.
      * right. left. lia.
    + exists 0. rewrite !Nat.mul_0_r, !Nat.add_0_r.
      split; [lia|]. split; [lia|]. split; [|split].
      * rewrite draw_twice. reflexivity.
      * intros m Hm. lia.
      * left. exact Hnear.
Qed.

Lemma spawnFood_tries (s : State num) :
  exists k0,
    k0 < 10 /\
    spawnFood s
    = set_foods (foods s ++ [candidate s (drawn s + 2 * k0)])
        (set_drawn (drawn s + 2 * k0 + 2) s) /\
    (forall m, m < k0 -> isPointNearSnake s (candidate s (drawn s + 2 * m)) = true) /\
    (isPointNearSnake s (candidate s (drawn s + 2 * k0)) = false \/ k0 = 9).
Proof.
  destruct (@drawPosition_tries 10 0 s) as (k0 & Hk & _ & E & Hrej & Hlast); [lia|].
  exists k0. unfold spawnFood. rewrite E.
  repeat split; try lia; [exact Hrej|].
  destruct Hlast as [H|[H|H]]; [now left | right; lia | lia].
Qed.

Lemma spawnEnemy_tries (s : State num) :
  exists k0,
    k0 < 10 /\
    spawnEnemy s
    = set_enemies
        (enemies s ++
         [mkEnemy (candidate s (drawn s + 2 * k0))
            (normalize (vec3 (rng s (drawn s + 2 * k0 + 2) * #2 - #1)%num #0
                             (rng s (drawn s + 2 * k0 + 3) * #2 - #1)%num))])
        (set_drawn (drawn s + 2 * k0 + 4) s) /\
    (forall m, m < k0 -> isPointNearSnake s (candidate s (drawn s + 2 * m)) = true) /\
    (isPointNearSnake s (candidate s (drawn s + 2 * k0)) = false \/ k0 = 9).
Proof.
  destruct (@drawPosition_tries 10 0 s) as (k0 & Hk & _ & E & Hrej & Hlast); [lia|].
  exists k0. unfold spawnEnemy. rewrite E. unfold Math_random.
  cbn [rng drawn enemies set_drawn].
  repeat split; try lia; [|exact Hrej|].
  - replace (S (drawn s + 2 * k0 + 2)) with (drawn s + 2 * k0 + 3)%nat by lia.
    replace (S (drawn s + 2 * k0 + 3)) with (drawn s + 2 * k0 + 4)%nat by lia.
    destruct s; reflexivity.
  - destruct Hlast as [H|[H|H]]; [now left | right; lia | lia].
Qed.
End MoreSpawning.

(** X10. [spawnFood] pushes one food and [spawnEnemy] one enemy, and they
    change nothing else but the position in the random sequence.  Each draws
    candidate positions, two random numbers apiece, rejects a candidate
    within 5 of the player on the ground plane, and takes the first one that
    is not, or the tenth whatever it is; the enemy then takes two more
    numbers for its direction. *)
Theorem spawners_try_ten_times :
  forall (num : Type) (N : Number num) (s : State num),
    (exists k0,
       k0 < 10 /\
       spawnFood s
       = set_foods (foods s ++ [candidate s (drawn s + 2 * k0)])
           (set_drawn (drawn s + 2 * k0 + 2) s) /\
       (forall m, m < k0 ->
          isPointNearSnake s (candidate s (drawn s + 2 * m)) = true) /\
       (isPointNearSnake s (candidate s (drawn s + 2 * k0)) = false \/ k0 = 9))
    /\
    (exists k0,
       k0 < 10 /\
       spawnEnemy s
       = set_enemies
           (enemies s ++
            [mkEnemy (candidate s (drawn s + 2 * k0))
               (normalize (vec3 (rng s (drawn s + 2 * k0 + 2) * #2 - #1)%num #0
                                (rng s (drawn s + 2 * k0 + 3) * #2 - #1)%num))])
           (set_drawn (drawn s + 2 * k0 + 4) s) /\
       (forall m, m < k0 ->
          isPointNearSnake s (candidate s (drawn s + 2 * m)) = true) /\
       (isPointNearSnake s (candidate s (drawn s + 2 * k0)) = false \/ k0 = 9)).
Proof.
  intros num N s. split; [apply spawnFood_tries | apply spawnEnemy_tries].
Qed.

(* ================================================================== *)
(** ** More of the game, over the reals: directions *)

Section RealDirections.
Local Open Scope R_scope.

Lemma vlength_real (v : Vector3 R) :
  vlength v = sqrt (vx v * vx v + vy v * vy v + vz v * vz v).
Proof. reflexivity. Qed.

Lemma squares_nonneg (a b c : R) : 0 <= a * a + b * b + c * c.
Proof.
  generalize (Rle_0_sqr a) (Rle_0_sqr b) (Rle_0_sqr c). unfold Rsqr. lra.
Qed.

(** A vector of length 1 is its own normalization. *)
Lemma normalize_of_unit (v : Vector3 R) :
  vx v * vx v + vy v * vy v + vz v * vz v = 1 -> normalize v = v.
Proof.
  intros H. unfold normalize. rewrite vlength_real, H, sqrt_1.
  unfold divideScalar, multiplyScalar. cbn [ntruthy nmul ndiv ofZ Real].
  destruct (Req_dec_T 1 0) as [E|_]; [lra|].
  destruct v as [x y z]. cbn [vx vy vz]. f_equal; lra.
Qed.

(** The normalization of a vector that is not null has length 1. *)
Lemma normalize_length (v : Vector3 R) :
  vlength v <> 0 -> vlength (normalize v) = 1.
Proof.
  intros Hl. unfold normalize. cbn [ntruthy Real].
  destruct (Req_dec_T (vlength v) 0) as [E|_]; [contradiction|].
  rewrite vlength_real in *.
  set (q := vx v * vx v + vy v * vy v + vz v * vz v) in *.
  assert (Hq : 0 <= q) by apply squares_nonneg.
  assert (Hs : sqrt q * sqrt q = q) by (apply sqrt_sqrt; exact Hq).
  unfold divideScalar, multiplyScalar. cbn [vx vy vz nmul ndiv ofZ Real].
  change (vlength v) with (sqrt q).
  replace (vx v * (1 / sqrt q) * (vx v * (1 / sqrt q)) +
           vy v * (1 / sqrt q) * (vy v * (1 / sqrt q)) +
           vz v * (1 / sqrt q) * (vz v * (1 / sqrt q)))
    with (q / (sqrt q * sqrt q)) by (unfold q; field; exact Hl).
  rewrite Hs. unfold Rdiv. rewrite Rinv_r; [apply sqrt_1|].
  intros Hq0. apply Hl. rewrite Hq0. apply sqrt_0.
Qed.

(** The normalization of the null vector is the null vector. *)
Lemma normalize_null (v : Vector3 R) :
  vlength v = 0 -> normalize v = vec3 0 0 0.
Proof.
  intros Hl. unfold normalize. cbn [ntruthy Real].
  destruct (Req_dec_T (vlength v) 0) as [_|E]; [|contradiction].
  rewrite vlength_real in Hl.
  apply sqrt_eq_0 in Hl; [|apply squares_nonneg].
  assert (Hx : vx v = 0 /\ vy v = 0 /\ vz v = 0).
  { generalize (Rle_0_sqr (vx v)) (Rle_0_sqr (vy v)) (Rle_0_sqr (vz v)).
    unfold Rsqr. intros Hx Hy Hz.
    repeat split; apply Rsqr_0_uniq; unfold Rsqr; lra. }
  destruct Hx as (Hx & Hy & Hz).
  unfold divideScalar, multiplyScalar. cbn [nmul ndiv ofZ Real].
  rewrite Hx, Hy, Hz. f_equal; lra.
Qed.

(** The direction of view is a unit vector. *)
Lemma view_direction_unit (a p : R) :
  sin a * cos p * (sin a * cos p) + sin p * sin p + cos a * cos p * (cos a * cos p) = 1.
Proof.
  generalize (sin2_cos2 a) (sin2_cos2 p). unfold Rsqr. intros Ha Hp.
  replace (sin a * cos p * (sin a * cos p) + sin p * sin p
           + cos a * cos p * (cos a * cos p))
    with ((sin a * sin a + cos a * cos a) * (cos p * cos p) + sin p * sin p) by ring.
  rewrite Ha. lra.
Qed.

Lemma shoot_real (s : State R) :
  shoot s =
  set_bullets
    (bullets s ++
     [mkBullet (camera s)
        (vec3 (sin (yaw s) * cos (pitch s)) (sin (pitch s))
              (cos (yaw s) * cos (pitch s)))]) s.
Proof.
  unfold shoot, Math.sin, Math.cos. cbn [nsin ncos nmul Real RealTrig].
  rewrite normalize_of_unit; [reflexivity|].
  cbn [vx vy vz]. apply view_direction_unit.
Qed.
End RealDirections.

(** X11. Over the reals, a left click on a running session with the
    pointer locked adds one bullet, behind the others, at the position of the
    camera, with the unit vector
    [(sin yaw cos pitch, sin pitch, cos yaw cos pitch)] as its direction,
    and changes nothing else; any other click changes nothing. *)
Theorem click_fires_along_view :
  forall (locked : bool) (button : nat) (s : State R),
    (gameActive s = true -> locked = true -> button = 0 ->
     onMouseDown locked button s =
     set_bullets
       (bullets s ++
        [mkBullet (camera s)
           (vec3 (sin (yaw s) * cos (pitch s)) (sin (pitch s))
                 (cos (yaw s) * cos (pitch s)))%R]) s /\
     vlength (vec3 (sin (yaw s) * cos (pitch s)) (sin (pitch s))
                   (cos (yaw s) * cos (pitch s)))%R = 1%R) /\
    (gameActive s = false \/ locked = false \/ button <> 0 ->
     onMouseDown locked button s = s).
Proof.
  intros locked button s. split.
  - intros Ha -> ->. unfold onMouseDown. rewrite Ha. cbn [negb Nat.eqb].
    split; [apply shoot_real|].
    rewrite vlength_real. cbn [vx vy vz].
    rewrite view_direction_unit. apply sqrt_1.
  - intros H. unfold onMouseDown.
    destruct (gameActive s); [|reflexivity]. cbn [negb].
    destruct locked; [|reflexivity]. cbn [negb].
    destruct H as [H|[H|H]]; try discriminate.
    destruct button; [congruence|reflexivity].
Qed.

(** A left click in the empty arena. *)
Lemma click_fires_along_view_witness :
  onMouseDown true 0 emptyArena =
  set_bullets
    (bullets emptyArena ++
     [mkBullet (camera emptyArena)
        (vec3 (sin (yaw emptyArena) * cos (pitch emptyArena)) (sin (pitch emptyArena))
              (cos (yaw emptyArena) * cos (pitch emptyArena)))%R]) emptyArena.
Proof.
  apply (proj1 (click_fires_along_view true 0 emptyArena)); reflexivity.
Defined.

(* ================================================================== *)
(** ** More of the game, over the reals: where things are spawned *)

Section RealSpawning.
Local Open Scope R_scope.

Lemma candidate_in_arena (s : State R) (d : nat) :
  (forall n, 0 <= rng s n < 1) ->
  -48 <= vx (candidate s d) < 48 /\
  vy (candidate s d) = 5 / 10 /\
  -48 <= vz (candidate s d) < 48.
Proof.
  intros H. pose proof (H d) as H1. pose proof (H (S d)) as H2.
  unfold candidate, worldSize, floorY, dec.
  cbn [vx vy vz nadd nsub nmul ndiv ofZ Real].
  repeat split; lra.
Qed.

Lemma spawned_direction (a b : R) :
  vy (normalize (vec3 a 0 b)) = 0 /\
  (vlength (normalize (vec3 a 0 b)) = 1 \/ normalize (vec3 a 0 b) = vec3 0 0 0).
Proof.
  split.
  - unfold normalize, divideScalar, multiplyScalar. cbn [vy nmul Real]. lra.
  - destruct (Req_dec_T (vlength (vec3 a 0 b)) 0) as [E|E].
    + right. now apply normalize_null.
    + left. now apply normalize_length.
Qed.
End RealSpawning.

(** X12. Over the reals, when [Math.random] returns numbers of [[0, 1)],
    the food that [spawnFood] adds and the enemy that [spawnEnemy] adds are
    inside the arena, two units at least from the walls
    ([-48 <= x < 48], [-48 <= z < 48]), at height 0.5; and the direction of
    the enemy is horizontal, of length 1, or null when both draws give 0.5. *)
Theorem spawned_inside_arena :
  forall s : State R,
    (forall n, 0 <= rng s n < 1)%R ->
    (exists f,
       foods (spawnFood s) = foods s ++ [f] /\
       (-48 <= vx f < 48 /\ vy f = 5 / 10 /\ -48 <= vz f < 48)%R) /\
    (exists e,
       enemies (spawnEnemy s) = enemies s ++ [e] /\
       (-48 <= vx (position e) < 48 /\ vy (position e) = 5 / 10 /\
        -48 <= vz (position e) < 48)%R /\
       vy (dir e) = 0%R /\
       (vlength (dir e) = 1%R \/ dir e = vec3 0%R 0%R 0%R)).
Proof.
  intros s H. split.
  - destruct (spawnFood_tries s) as (k0 & _ & -> & _).
    eexists. split; [reflexivity|]. now apply candidate_in_arena.
  - destruct (spawnEnemy_tries s) as (k0 & _ & -> & _).
    eexists. split; [reflexivity|]. cbn [position dir].
    split; [now apply candidate_in_arena|]. apply spawned_direction.
Qed.

(** The empty arena, whose generator returns 0 for ever. *)
Lemma spawned_inside_arena_witness :
  exists f,
    foods (spawnFood emptyArena) = foods emptyArena ++ [f] /\
    (-48 <= vx f < 48 /\ vy f = 5 / 10 /\ -48 <= vz f < 48)%R.
Proof.
  apply (spawned_inside_arena emptyArena). intros n. cbn. lra.
Defined.

(* ================================================================== *)
(** ** More of the game, over the reals: the mouse *)

Section RealMouse.
Local Open Scope R_scope.

Lemma maxPitch_positive : 0 < PI / 2 - 5 / 100.
Proof. pose proof PI2_1. lra. Qed.
End RealMouse.

(** X13. Over the reals, a mouse move on a running session with the pointer
    locked turns the yaw by [- movementX * 0.0025] and the pitch by
    [- movementY * 0.0025], the pitch being then clamped to
    [[-(PI/2 - 0.05), PI/2 - 0.05]]; it changes nothing else. *)
Theorem mouse_turns_and_clamps :
  forall (mx my : R) (s : State R),
    gameActive s = true ->
    let maxPitch := (PI / 2 - 5 / 100)%R in
    let s' := onMouseMove true mx my s in
    s' = set_pitch (pitch s') (set_yaw (yaw s') s) /\
    yaw s' = (yaw s - mx * (25 / 10000))%R /\
    (- maxPitch <= pitch s' <= maxPitch)%R /\
    ((- maxPitch <= pitch s - my * (25 / 10000) <= maxPitch)%R ->
     pitch s' = (pitch s - my * (25 / 10000))%R) /\
    ((maxPitch < pitch s - my * (25 / 10000))%R -> pitch s' = maxPitch) /\
    ((pitch s - my * (25 / 10000) < - maxPitch)%R -> pitch s' = (- maxPitch)%R).
Proof.
  intros mx my s Ha maxPitch s'.
  split; [apply onMouseMove_spec|].
  pose proof maxPitch_positive as Hpos. fold maxPitch in Hpos.
  unfold s', onMouseMove. rewrite Ha. cbn [negb orb].
  cbn [pitch yaw set_pitch set_yaw].
  unfold Math.PI, sensitivity, dec. cbn [npi nlt nsub nmul ndiv nneg ofZ Real RealTrig].
  fold maxPitch.
  set (p := (pitch s - my * (25 / 10000))%R).
  unfold Rltb.
  destruct (Rlt_dec maxPitch p) as [H1|H1]; cbn [pitch yaw set_pitch set_yaw].
  - destruct (Rlt_dec maxPitch (- maxPitch)) as [H2|H2];
      cbn [pitch yaw set_pitch set_yaw]; [lra|].
    repeat split; try lra.
  - destruct (Rlt_dec p (- maxPitch)) as [H2|H2];
      cbn [pitch yaw set_pitch set_yaw]; repeat split; try lra.
Qed.

(** A strong move of the mouse downwards in the empty arena. *)
Lemma mouse_turns_and_clamps_witness :
  (- (PI / 2 - 5 / 100) <= pitch (onMouseMove true 3 4000 emptyArena)
   <= PI / 2 - 5 / 100)%R.
Proof.
  apply (@mouse_turns_and_clamps 3%R 4000%R emptyArena eq_refl).
Defined.

(* ================================================================== *)
(** ** More of the game, over the reals: the enemies *)

Section RealEnemies.
Local Open Scope R_scope.

Lemma wander_real (dt : R) (e : Enemy R) :
  let e' := wander dt e in
  vx (position e') = vx (position e) + vx (dir e) * (1 * dt) /\
  vy (position e') = 5 / 10 /\
  vz (position e') = vz (position e) + vz (dir e) * (1 * dt) /\
  vy (dir e') = vy (dir e) /\
  (-49 <= vx (position e') <= 49 -> vx (dir e') = vx (dir e)) /\
  (vx (position e') < -49 \/ 49 < vx (position e') -> vx (dir e') = - vx (dir e)) /\
  (-49 <= vz (position e') <= 49 -> vz (dir e') = vz (dir e)) /\
  (vz (position e') < -49 \/ 49 < vz (position e') -> vz (dir e') = - vz (dir e)) /\
  vlength (dir e') = vlength (dir e).
Proof.
  destruct e as [[px py pz] [dx dy dz]].
  unfold wander, addScaledVector, enemySpeed, worldSize, floorY, dec, set_x, set_y, set_z.
  cbn [position dir vx vy vz nadd nsub nmul ndiv nneg nlt ofZ Real].
  set (x' := px + dx * (1 * dt)). set (z' := pz + dz * (1 * dt)).
  unfold Rltb.
  repeat match goal with
  | |- context [Rlt_dec ?a ?b] => destruct (Rlt_dec a b)
  end;
    cbn [orb vx vy vz position dir];
    (split; [reflexivity|]); (split; [lra|]); (split; [reflexivity|]);
    (split; [reflexivity|]); (split; [intros; lra|]); (split; [intros; lra|]);
    (split; [intros; lra|]); (split; [intros; lra|]);
    rewrite !vlength_real; cbn [vx vy vz]; f_equal; ring.
Qed.
End RealEnemies.

(** X14. Over the reals, [enemies.forEach] of a frame keeps every enemy, in
    its place of the array: the enemy moves by its direction times
    [enemySpeed * dt] and is put at height 0.5; the [x] (the [z]) of its
    direction changes sign exactly when the new [x] ([z]) is beyond 49 on
    either side, whatever the sign it had; the length of the direction,
    hence the speed, is kept, and nothing but the enemies is changed. *)
Theorem enemies_wander :
  forall (dt : R) (s : State R),
    updateEnemies dt s = set_enemies (enemies (updateEnemies dt s)) s /\
    length (enemies (updateEnemies dt s)) = length (enemies s) /\
    forall j e,
      nth_error (enemies s) j = Some e ->
      exists e',
        nth_error (enemies (updateEnemies dt s)) j = Some e' /\
        (vx (position e') = vx (position e) + vx (dir e) * (1 * dt) /\
         vy (position e') = 5 / 10 /\
         vz (position e') = vz (position e) + vz (dir e) * (1 * dt) /\
         vy (dir e') = vy (dir e) /\
         (-49 <= vx (position e') <= 49 -> vx (dir e') = vx (dir e)) /\
         (vx (position e') < -49 \/ 49 < vx (position e') ->
          vx (dir e') = - vx (dir e)) /\
         (-49 <= vz (position e') <= 49 -> vz (dir e') = vz (dir e)) /\
         (vz (position e') < -49 \/ 49 < vz (position e') ->
          vz (dir e') = - vz (dir e)) /\
         vlength (dir e') = vlength (dir e))%R.
Proof.
  intros dt s. unfold updateEnemies. cbn [enemies set_enemies].
  split; [destruct s; reflexivity|]. split; [apply length_map|].
  intros j e Hj. exists (wander dt e). split.
  - rewrite nth_error_map, Hj. reflexivity.
  - apply wander_real.
Qed.

(* ================================================================== *)
(** ** More of the game, over the reals: the walls and the sessions *)

Section RealWalls.
Local Open Scope R_scope.

Lemma hitsWall_real (s : State R) :
  hitsWall s = false <->
  -(495 / 10) <= vx (camera s) <= 495 / 10 /\
  -(495 / 10) <= vz (camera s) <= 495 / 10.
Proof.
  unfold hitsWall, worldSize, dec.
  cbn [nadd nsub ndiv nneg nlt ofZ Real]. unfold Rltb.
  repeat match goal with
  | |- context [Rlt_dec ?a ?b] => destruct (Rlt_dec a b)
  end;
    cbn [orb]; split; try discriminate; try lra; intros _; lra.
Qed.

(** The first frame of a session: the player is at the origin or one step
    from it, far from the walls. *)
Lemma startGame_first_frame (dt : R) (s : State R) :
  gameActive s = false ->
  startGame dt s = present (simulate dt (resetGame s)) /\
  (camera (startGame dt s) = vec3 0 (16 / 10) 0 \/
   camera (startGame dt s) = vec3 0 (16 / 10) (7 / 10)).
Proof.
  intros Ha. rewrite (startGame_inactive _ _ Ha).
  set (r := resetGame s).
  pose proof (resetGame_grounded s) as Hg. fold r in Hg.
  destruct (resetGame_spec s)
    as (f1 & f2 & e1 & e2 & _ & _ & _ & _ & _ & _ & _ & _ & _ & _ & _ & _ & _ & Hyaw
        & Hcam & Hact).
  fold r in Hyaw, Hcam, Hact. cbn [ofZ Real] in Hyaw, Hcam.
  destruct (simulate_step dt r) as (Hc & _).
  assert (Hpos : camera (simulate dt r) = vec3 0 (16 / 10) 0 \/
                 camera (simulate dt r) = vec3 0 (16 / 10) (7 / 10)).
  { rewrite Hc.
    destruct (stepAccumulator r + dt >=? stepInterval)%num eqn:H.
    - right. rewrite (stepPhase_fires _ _ H). cbn [camera set_tailPositions set_camera].
      rewrite stepTarget_real, Hyaw, Hcam, sin_0, cos_0. cbn [vx vz].
      unfold snakeHeight, dec. cbn [ndiv ofZ Real]. f_equal; lra.
    - left. rewrite (stepPhase_idle _ _ H). cbn [camera set_stepAccumulator].
      rewrite Hcam. unfold snakeHeight, dec. cbn [ndiv ofZ Real]. reflexivity. }
  assert (Hwall : hitsWall (simulate dt r) = false).
  { apply hitsWall_real. destruct Hpos as [-> | ->]; cbn [vx vz]; lra. }
  rewrite (@grounded_animate dt r Hact Hg), Hwall.
  split; [reflexivity|]. exact Hpos.
Qed.

Lemma startGame_running (dt : R) (s : State R) :
  gameActive (startGame dt s) = true.
Proof.
  destruct (gameActive s) eqn:Ha.
  - now rewrite (startGame_active _ _ Ha).
  - destruct (startGame_first_frame dt s Ha) as (-> & _).
    cbn [present gameActive set_rendered set_hud].
    destruct (simulate_step dt (resetGame s)) as (_ & _ & _ & -> & _).
    destruct (resetGame_spec s)
      as (f1 & f2 & e1 & e2 & _ & _ & _ & _ & _ & _ & _ & _ & _ & _ & _ & _ & _ & _
          & _ & Hact).
    exact Hact.
Qed.

Lemma animate_steady (dt : R) (s : State R) : Steady s -> Steady (animate dt s).
Proof.
  intros (Hg & Hl & Hs & Hm & Hf). destruct (gameActive s) eqn:Ha.
  - rewrite (@grounded_animate dt s Ha Hg).
    destruct (@grounded_simulate dt s Hg) as (_ & _ & Hg' & Hl' & Hm' & Hf' & Hs' & _).
    assert (H : Steady (simulate dt s)).
    { unfold Steady. rewrite Hl', Hm', Hf', Hs'. repeat split; try assumption; apply Hg'. }
    destruct (hitsWall (simulate dt s)); exact H.
  - rewrite (animate_inactive _ _ Ha). repeat split; try assumption; apply Hg.
Qed.

Lemma resetGame_steady (s : State R) : Steady (resetGame s).
Proof.
  pose proof (resetGame_grounded s) as Hg.
  destruct (resetGame_spec s)
    as (f1 & f2 & e1 & e2 & Hf & _ & _ & _ & _ & _ & _ & _ & Hs & Hl & Hm & _).
  unfold Steady. rewrite Hf, Hs, Hl, Hm. repeat split; try apply Hg.
Qed.

Lemma handle_steady (e : Event R) (s : State R) : Steady s -> Steady (handle e s).
Proof.
  intros H. destruct e as [dt|dt|l mx my|l b]; cbn [handle].
  - now apply animate_steady.
  - destruct (gameActive s) eqn:Ha.
    + now rewrite (startGame_active _ _ Ha).
    + rewrite (startGame_inactive _ _ Ha). apply animate_steady, resetGame_steady.
  - rewrite onMouseMove_spec. exact H.
  - rewrite onMouseDown_spec. exact H.
Qed.

Lemma initScene_steady (page : Overlay) (rnd : nat -> R) : Steady (initScene page rnd).
Proof.
  destruct (initScene_grounded page rnd) as (Hg & Hl).
  unfold Steady. split; [exact Hg|]. split; [exact Hl|]. clear Hg Hl.
  unfold initScene. cbv zeta.
  repeat match goal with
  | |- context [spawnFood ?x] =>
      let x1 := fresh "x" in let z1 := fresh "z" in let d1 := fresh "d" in
      destruct (spawnFood_spec x) as (x1 & z1 & d1 & ->)
  end.
  repeat match goal with
  | |- context [spawnEnemy ?x] =>
      let x1 := fresh "x" in let z1 := fresh "z" in
      let v1 := fresh "v" in let d1 := fresh "d" in
      destruct (spawnEnemy_spec x) as (x1 & z1 & v1 & d1 & ->)
  end.
  repeat split.
Qed.

Lemma reachable_steady (page : Overlay) (rnd : nat -> R) (es : list (Event R)) :
  Steady (run es (initScene page rnd)).
Proof.
  pose proof (initScene_steady page rnd) as H.
  revert H. generalize (initScene page rnd).
  induction es as [|e es IH]; intros s H; [exact H|].
  cbn [run fold_left]. apply IH, handle_steady, H.
Qed.
End RealWalls.

(** X15. Over the reals, a press on the start button of a stopped game
    always leaves a running session, whatever the time the clock gives to
    its first frame: the frame is rendered, the player is at the origin or
    one step of 0.7 ahead of it along [z], at eye height, and a second press
    changes nothing. *)
Theorem start_leaves_running_session :
  forall (dt : R) (s : State R),
    gameActive s = false ->
    gameActive (startGame dt s) = true /\
    rendered (startGame dt s) = S (rendered s) /\
    hud (startGame dt s) = Some (score (startGame dt s), 5%nat) /\
    (camera (startGame dt s) = vec3 0 (16 / 10) 0 \/
     camera (startGame dt s) = vec3 0 (16 / 10) (7 / 10))%R /\
    forall dt', startGame dt' (startGame dt s) = startGame dt s.
Proof.
  intros dt s Ha.
  pose proof (startGame_running dt s) as Hrun.
  destruct (startGame_first_frame dt s Ha) as (E & Hpos).
  split; [exact Hrun|]. split; [|split; [|split; [exact Hpos|]]].
  - rewrite E. cbn [present rendered set_rendered set_hud].
    destruct (simulate_step dt (resetGame s)) as (_ & _ & _ & _ & _ & _ & -> & _).
    f_equal. unfold resetGame. cbv zeta.
    repeat match goal with
    | |- context [spawnFood ?x] =>
        let x1 := fresh "x" in let z1 := fresh "z" in let d1 := fresh "d" in
        destruct (spawnFood_spec x) as (x1 & z1 & d1 & ->)
    end.
    repeat match goal with
    | |- context [spawnEnemy ?x] =>
        let x1 := fresh "x" in let z1 := fresh "z" in
        let v1 := fresh "v" in let d1 := fresh "d" in
        destruct (spawnEnemy_spec x) as (x1 & z1 & v1 & d1 & ->)
    end.
    reflexivity.
  - rewrite E at 1. cbn [present hud set_rendered set_hud score tailSegments].
    rewrite E. cbn [present score set_rendered set_hud]. do 2 f_equal.
    destruct (@grounded_simulate dt (resetGame s) (resetGame_grounded s))
      as (_ & _ & _ & _ & _ & _ & -> & _).
    destruct (resetGame_spec s)
      as (f1 & f2 & e1 & e2 & _ & _ & _ & _ & _ & _ & _ & _ & -> & _).
    reflexivity.
  - intros dt'. now apply startGame_active.
Qed.

(** A game ended at the walls, started again with a first frame of a second. *)
Lemma start_leaves_running_session_witness :
  gameActive (startGame 1%R (endGame msgWall emptyArena)) = true.
Proof.
  apply (@start_leaves_running_session 1%R (endGame msgWall emptyArena) eq_refl).
Defined.

(** X16. Over the reals, whatever the page, the random numbers and the
    events, the game never leaves its initial size: the body has five
    segments, the speed is 2 and there are two foods.  A frame of a running
    session collects no food; it keeps the session running exactly when the
    player, after the step, is within 49.5 of the centre along [x] and [z],
    and the only message a frame ever shows is the one of the walls. *)
Theorem only_walls_end_sessions :
  forall (page : Overlay) (rnd : nat -> R) (es : list (Event R)) (dt : R),
    let s := run es (initScene page rnd) in
    let s' := animate dt s in
    (tailLength s = 5%nat /\ length (tailSegments s) = 5%nat /\
     moveSpeed s = 2%R /\ length (foods s) = 2%nat) /\
    (gameActive s = true ->
     foods s' = foods s /\
     (gameActive s' = true <->
      (-(495 / 10) <= vx (camera s') <= 495 / 10 /\
       -(495 / 10) <= vz (camera s') <= 495 / 10)%R) /\
     (gameActive s' = false ->
      overlay s' = mkOverlay true "Game Over" msgWall (score s'))).
Proof.
  intros page rnd es dt s s'.
  destruct (reachable_steady page rnd es) as (Hg & Hl & Hs & Hm & Hf).
  fold s in Hg, Hl, Hs, Hm, Hf.
  split; [repeat split; assumption|]. intros Ha.
  unfold s'. rewrite (@grounded_animate dt s Ha Hg).
  destruct (@grounded_simulate dt s Hg) as (_ & _ & _ & _ & _ & Hf' & _).
  destruct (simulate_step dt s) as (_ & _ & _ & Hact & _).
  pose proof (hitsWall_real (simulate dt s)) as Hw.
  destruct (hitsWall (simulate dt s)) eqn:W.
  - cbn [endGame foods camera gameActive overlay score set_gameActive set_overlay].
    split; [exact Hf'|]. split; [|reflexivity].
    split; [discriminate|]. intros H. apply Hw in H. discriminate.
  - cbn [present foods camera gameActive overlay score set_rendered set_hud].
    split; [exact Hf'|]. split; [|congruence].
    split; [intros _; now apply Hw|]. intros _. congruence.
Qed.

(** The game started once, with a first frame of a second. *)
Lemma only_walls_end_sessions_witness :
  foods (animate 1%R (run [Start 1%R] (initScene (mkOverlay true "" "" 0) (fun _ => 0%R))))
  = foods (run [Start 1%R] (initScene (mkOverlay true "" "" 0) (fun _ => 0%R))).
Proof.
  apply (@only_walls_end_sessions (mkOverlay true "" "" 0) (fun _ => 0%R)
           [Start 1%R] 1%R).
  apply startGame_running.
Defined.

(* ================================================================== *)
(** ** The variables the game writes and never reads *)

Section Unread.
Context {num : Type} {N : Number num} {T : Trig num}.

(** A function made of assignments and tests only. *)
Ltac unread H :=
  let v := fresh "v" in
  let p := fresh "p" in
  destruct H as (v & p & ->);
  match goal with s : State _ |- _ => destruct s end;
  cbn;
  repeat match goal with
  | |- context [if ?c then _ else _] => destruct c
  | |- context [match ?c with Some _ => _ | None => _ end] => destruct c
  end;
  eexists _, _; reflexivity.

Lemma unread_fields (s s' : State num) :
  sameButUnread s s' ->
  bullets s' = bullets s /\ enemies s' = enemies s /\ foods s' = foods s /\
  tailSegments s' = tailSegments s /\ gameActive s' = gameActive s /\
  camera s' = camera s.
Proof. intros (v & p & ->). repeat split. Qed.

Lemma stepPhase_unread (dt : num) (s s' : State num) :
  sameButUnread s s' -> sameButUnread (stepPhase dt s) (stepPhase dt s').
Proof. intros H. unfold stepPhase. unread H. Qed.

Lemma trimTrail_unread (s s' : State num) :
  sameButUnread s s' -> sameButUnread (trimTrail s) (trimTrail s').
Proof. intros H. unfold trimTrail. unread H. Qed.

Lemma followLoop_unread (n i : nat) (s s' : State num) :
  sameButUnread s s' -> sameButUnread (followLoop n i s) (followLoop n i s').
Proof.
  revert i s s'. induction n as [|n IH]; intros i s s' H; cbn [followLoop]; [exact H|].
  apply IH. unread H.
Qed.

Lemma followTrail_unread (s s' : State num) :
  sameButUnread s s' -> sameButUnread (followTrail s) (followTrail s').
Proof.
  intros H. unfold followTrail.
  destruct (unread_fields H) as (_ & _ & _ & -> & _).
  now apply followLoop_unread.
Qed.

Lemma hitEnemy_unread (b : Bullet num) (i j : nat) (s s' : State num) :
  sameButUnread s s' -> sameButUnread (hitEnemy b i j s) (hitEnemy b i j s').
Proof.
  intros H. induction j as [|j IH]; cbn [hitEnemy]; [exact H|].
  destruct (unread_fields H) as (_ & -> & _).
  destruct (nth_error (enemies s) j) as [e|]; [|exact IH].
  destruct (nlt _ _); [|exact IH].
  destruct H as (v & p & ->). destruct s. eexists _, _. reflexivity.
Qed.

Lemma bulletStep_unread (dt : num) (i : nat) (s s' : State num) :
  sameButUnread s s' -> sameButUnread (bulletStep dt i s) (bulletStep dt i s').
Proof.
  intros H. unfold bulletStep.
  destruct (unread_fields H) as (-> & He & _).
  destruct (nth_error (bullets s) i) as [b|]; [|exact H].
  cbv zeta. cbn [enemies set_bullets bullets]. rewrite He.
  destruct (_ || _).
  - destruct H as (v & p & ->). destruct s. eexists _, _. reflexivity.
  - apply hitEnemy_unread.
    destruct H as (v & p & ->). destruct s. eexists _, _. reflexivity.
Qed.

Lemma bulletLoop_unread (dt : num) (n : nat) (s s' : State num) :
  sameButUnread s s' -> sameButUnread (bulletLoop dt n s) (bulletLoop dt n s').
Proof.
  revert s s'. induction n as [|n IH]; intros s s' H; cbn [bulletLoop]; [exact H|].
  now apply IH, bulletStep_unread.
Qed.

Lemma updateBullets_unread (dt : num) (s s' : State num) :
  sameButUnread s s' -> sameButUnread (updateBullets dt s) (updateBullets dt s').
Proof.
  intros H. unfold updateBullets.
  destruct (unread_fields H) as (-> & _).
  now apply bulletLoop_unread.
Qed.

Lemma updateEnemies_unread (dt : num) (s s' : State num) :
  sameButUnread s s' -> sameButUnread (updateEnemies dt s) (updateEnemies dt s').
Proof.
  intros H. unfold updateEnemies.
  destruct H as (v & p & ->). destruct s. eexists _, _. reflexivity.
Qed.

Lemma drawPosition_unread (fuel tries : nat) (s s' : State num) :
  sameButUnread s s' ->
  fst (drawPosition fuel tries s') = fst (drawPosition fuel tries s) /\
  sameButUnread (snd (drawPosition fuel tries s)) (snd (drawPosition fuel tries s')).
Proof.
  revert tries s s'. induction fuel as [|fuel IH]; intros tries s s' H.
  - destruct H as (v & p & ->). destruct s. cbn. split; [reflexivity|].
    eexists _, _. reflexivity.
  - destruct H as (v & p & ->). destruct s.
    cbn [drawPosition randomPosition Math_random rng drawn set_drawn
         set_lastRecordPos set_moveSpeed yaw pitch camera lastRecordPos tailLength
         stepAccumulator moveSpeed score tailSegments tailPositions foods enemies
         bullets gameActive overlay hud rendered isPointNearSnake].
    destruct (_ && _).
    + apply IH. eexists _, _. reflexivity.
    + cbn [fst snd]. split; [reflexivity|]. eexists _, _. reflexivity.
Qed.

Lemma spawnFood_unread (s s' : State num) :
  sameButUnread s s' -> sameButUnread (spawnFood s) (spawnFood s').
Proof.
  intros H. unfold spawnFood.
  destruct (drawPosition_unread 10 0 H) as (Hp & Hs).
  destruct (drawPosition 10 0 s) as [pos s1], (drawPosition 10 0 s') as [pos' s1'].
  cbn [fst snd] in Hp, Hs. subst pos'.
  destruct Hs as (v & p & ->). destruct s1. eexists _, _. reflexivity.
Qed.

Lemma spawnEnemy_unread (s s' : State num) :
  sameButUnread s s' -> sameButUnread (spawnEnemy s) (spawnEnemy s').
Proof.
  intros H. unfold spawnEnemy.
  destruct (drawPosition_unread 10 0 H) as (Hp & Hs).
  destruct (drawPosition 10 0 s) as [pos s1], (drawPosition 10 0 s') as [pos' s1'].
  cbn [fst snd] in Hp, Hs. subst pos'.
  destruct Hs as (v & p & ->). destruct s1. eexists _, _. reflexivity.
Qed.

Lemma collect_unread (i : nat) (s s' : State num) :
  sameButUnread s s' -> sameButUnread (collect i s) (collect i s').
Proof.
  intros H. unfold collect. cbv zeta.
  match goal with
  | |- sameButUnread (if (length (enemies (spawnFood ?X)) <? 5)%nat then _ else _)
                     (if (length (enemies (spawnFood ?X')) <? 5)%nat then _ else _) =>
      assert (HX : sameButUnread X X')
        by (destruct H as (v & p & ->); destruct s; eexists _, _; reflexivity);
      generalize (spawnFood_unread HX);
      generalize (spawnFood X'); generalize (spawnFood X)
  end.
  intros x x' Hx.
  destruct (unread_fields Hx) as (_ & -> & _).
  destruct (length (enemies x) <? 5)%nat; [|exact Hx].
  assert (Hr : fst (Math_random x') = fst (Math_random x) /\
               sameButUnread (snd (Math_random x)) (snd (Math_random x'))).
  { destruct Hx as (v & p & ->). destruct x. split; [reflexivity|].
    eexists _, _. reflexivity. }
  destruct (Math_random x) as [r y], (Math_random x') as [r' y'].
  cbn [fst snd] in Hr. destruct Hr as (-> & Hy).
  destruct (nlt r _); [now apply spawnEnemy_unread | exact Hy].
Qed.

Lemma foodStep_unread (i : nat) (s s' : State num) :
  sameButUnread s s' -> sameButUnread (foodStep i s) (foodStep i s').
Proof.
  intros H. unfold foodStep.
  destruct (unread_fields H) as (_ & _ & -> & _ & _ & ->).
  destruct (nth_error (foods s) i) as [f|]; [|exact H].
  cbv zeta. destruct (nlt _ _); [now apply collect_unread | exact H].
Qed.

Lemma foodLoop_unread (n : nat) (s s' : State num) :
  sameButUnread s s' -> sameButUnread (foodLoop n s) (foodLoop n s').
Proof.
  revert s s'. induction n as [|n IH]; intros s s' H; cbn [foodLoop]; [exact H|].
  now apply IH, foodStep_unread.
Qed.

Lemma collectFoods_unread (s s' : State num) :
  sameButUnread s s' -> sameButUnread (collectFoods s) (collectFoods s').
Proof.
  intros H. unfold collectFoods.
  destruct (unread_fields H) as (_ & _ & -> & _).
  now apply foodLoop_unread.
Qed.

Lemma simulate_unread (dt : num) (s s' : State num) :
  sameButUnread s s' -> sameButUnread (simulate dt s) (simulate dt s').
Proof.
  intros H. unfold simulate. cbv zeta.
  now apply collectFoods_unread, updateEnemies_unread, updateBullets_unread,
    followTrail_unread, followTrail_unread, trimTrail_unread, stepPhase_unread.
Qed.

Lemma enemyLoop_unread (n : nat) (s s' : State num) :
  sameButUnread s s' -> enemyLoop n s' = enemyLoop n s.
Proof.
  intros (v & p & ->). induction n as [|n IH]; [reflexivity|].
  cbn [enemyLoop]. rewrite IH. reflexivity.
Qed.

Lemma selfLoop_unread (fuel i : nat) (s s' : State num) :
  sameButUnread s s' -> selfLoop fuel i s' = selfLoop fuel i s.
Proof.
  intros (v & p & ->). revert i. induction fuel as [|fuel IH]; intros i; [reflexivity|].
  cbn [selfLoop]. rewrite IH. reflexivity.
Qed.

Lemma checks_unread (s s' : State num) :
  sameButUnread s s' ->
  hitsEnemy s' = hitsEnemy s /\ hitsSelf s' = hitsSelf s /\ hitsWall s' = hitsWall s.
Proof.
  intros H. unfold hitsEnemy, hitsSelf.
  rewrite (enemyLoop_unread _ H), (selfLoop_unread _ _ H).
  destruct H as (v & p & ->). repeat split.
Qed.

Lemma animate_unread (dt : num) (s s' : State num) :
  sameButUnread s s' -> sameButUnread (animate dt s) (animate dt s').
Proof.
  intros H. unfold animate.
  destruct (unread_fields H) as (_ & _ & _ & _ & -> & _).
  destruct (negb (gameActive s)); [exact H|]. cbv zeta.
  pose proof (simulate_unread dt H) as Hx.
  revert Hx. generalize (simulate dt s'), (simulate dt s). intros x' x Hx.
  destruct (checks_unread Hx) as (-> & -> & ->).
  destruct (hitsEnemy x); [|destruct (hitsSelf x); [|destruct (hitsWall x)]];
    destruct Hx as (v & p & ->); destruct x; eexists _, _; reflexivity.
Qed.

Lemma resetGame_unread (s s' : State num) :
  sameButUnread s s' -> sameButUnread (resetGame s) (resetGame s').
Proof.
  intros (v & p & ->).
  replace (resetGame (set_lastRecordPos p (set_moveSpeed v s))) with (resetGame s)
    by (destruct s; reflexivity).
  exists (moveSpeed (resetGame s)), (lastRecordPos (resetGame s)).
  destruct (resetGame s); reflexivity.
Qed.

Lemma handle_unread (e : Event num) (s s' : State num) :
  sameButUnread s s' -> sameButUnread (handle e s) (handle e s').
Proof.
  intros H. destruct e as [dt|dt|l mx my|l b]; cbn [handle].
  - now apply animate_unread.
  - unfold startGame.
    destruct (unread_fields H) as (_ & _ & _ & _ & -> & _).
    destruct (gameActive s); [exact H|].
    now apply animate_unread, resetGame_unread.
  - unfold onMouseMove. destruct H as (v & p & ->). destruct s. cbn.
    destruct (negb _ || negb l); [eexists _, _; reflexivity|].
    destruct (nlt (Math.PI / #2 - dec 5 100)%num _); cbn;
      destruct (nlt _ _); eexists _, _; reflexivity.
  - unfold onMouseDown, shoot. unread H.
Qed.

Lemma run_unread (es : list (Event num)) (s s' : State num) :
  sameButUnread s s' -> sameButUnread (run es s) (run es s').
Proof.
  revert s s'. induction es as [|e es IH]; intros s s' H; [exact H|].
  cbn [run fold_left]. now apply IH, handle_unread.
Qed.
End Unread.

(** X17. The game writes [moveSpeed] (at a start, and 0.05 more at each
    food) and [lastRecordPos] (at a start) and never reads them: whatever
    the events and the arithmetic, two games that differ by these two
    variables only go on differing by them only.  The player, the body, the
    foods, the enemies, the bullets, the score and the end of the session
    are the same whatever the speed. *)
Theorem speed_is_never_read :
  forall (num : Type) (N : Number num) (T : Trig num)
         (es : list (Event num)) (s : State num) (v : num) (p : Vector3 num),
    exists v' p',
      run es (set_lastRecordPos p (set_moveSpeed v s))
      = set_lastRecordPos p' (set_moveSpeed v' (run es s)).
Proof.
  intros num N T es s v p.
  apply (@run_unread num N T es s). exists v, p. reflexivity.
Qed.

(* ================================================================== *)
(** ** Self-collision *)

Section SelfCollision.
Context {num : Type} {N : Number num} {T : Trig num}.

(** A frame that ends by self-collision went through the loop of line 417
    with the answer [true]. *)
Lemma self_collision_outcome (dt : num) (s : State num) :
  gameActive s = true ->
  animate dt s = endGame msgSelf (simulate dt s) ->
  hitsSelf (simulate dt s) = true.
Proof.
  intros Ha. rewrite (animate_active _ _ Ha).
  assert (Hact : gameActive (simulate dt s) = true)
    by (destruct (simulate_step dt s) as (_ & _ & _ & -> & _); exact Ha).
  destruct (hitsEnemy _); [|destruct (hitsSelf _); [reflexivity|destruct (hitsWall _)]].
  - intros E. apply (f_equal (fun x => message (overlay x))) in E. discriminate E.
  - intros E. apply (f_equal (fun x => message (overlay x))) in E. discriminate E.
  - intros E. apply (f_equal (@gameActive num)) in E.
    unfold present, endGame in E.
    cbn [gameActive set_rendered set_hud set_gameActive set_overlay] in E.
    congruence.
Qed.

(** The body at the self-collision check of a frame is the body the frame
    leaves. *)
Lemma simulate_body (dt : num) (s : State num) :
  gameActive s = true ->
  tailSegments (simulate dt s) = tailSegments (animate dt s).
Proof.
  intros Ha. destruct (animate_simulate dt _ Ha) as (a & o & h & r & ->).
  reflexivity.
Qed.

(** The body has five segments and two more for each food collected. *)
Lemma handle_body (e : Event num) (s : State num) :
  (exists k, length (tailSegments s) = 5 + 2 * k) ->
  exists k, length (tailSegments (handle e s)) = 5 + 2 * k.
Proof.
  assert (Hframe : forall dt x,
            (exists k, length (tailSegments x) = 5 + 2 * k) ->
            exists k, length (tailSegments (animate dt x)) = 5 + 2 * k).
  { intros dt x (k & Hk). destruct (gameActive x) eqn:Ha.
    - destruct (animate_pickups dt _ Ha) as (_ & _ & _ & E & _).
      cbv zeta in E. rewrite E, Hk.
      exists (k + length (filter (foodNear (stepPhase dt x)) (foods x))). lia.
    - rewrite (animate_inactive _ _ Ha). now exists k. }
  intros H. destruct e as [dt|dt|l mx my|l b]; cbn [handle].
  - now apply Hframe.
  - destruct (gameActive s) eqn:Ha.
    + now rewrite (startGame_active _ _ Ha).
    + rewrite (startGame_inactive _ _ Ha). apply Hframe. exists 0.
      destruct (resetGame_spec s)
        as (f1 & f2 & e1 & e2 & _ & _ & _ & _ & _ & _ & _ & _ & -> & _).
      apply newSegments_length.
  - rewrite onMouseMove_spec. exact H.
  - rewrite onMouseDown_spec. exact H.
Qed.

Lemma reachable_body (page : Overlay) (rnd : nat -> num) (es : list (Event num)) :
  exists k, length (tailSegments (run es (initScene page rnd))) = 5 + 2 * k.
Proof.
  assert (H : exists k, length (tailSegments (initScene page rnd)) = 5 + 2 * k).
  { exists 0.
    destruct (initScene_spec page rnd)
      as (f1 & f2 & e1 & e2 & _ & _ & _ & _ & _ & _ & _ & _ & -> & _).
    apply newSegments_length. }
  revert H. generalize (initScene page rnd).
  induction es as [|e es IH]; intros s H; [exact H|].
  cbn [run fold_left]. apply IH, handle_body, H.
Qed.
End SelfCollision.

Section SelfCollisionReal.
Local Open Scope R_scope.

Lemma distanceTo_ge (p q : Vector3 R) (r : R) :
  0 <= r -> r * r <= distanceToSquared p q -> Rltb (distanceTo p q) r = false.
Proof.
  intros Hr H. apply Rltb_false. unfold distanceTo, Math.sqrt. cbn [nsqrt Real].
  rewrite <- (sqrt_square r) by lra. apply sqrt_le_1_alt. exact H.
Qed.

(** A frame of no duration leaves the player on its body as it is. *)
Lemma headOnBody_still :
  simulate 0 headOnBody = set_stepAccumulator (0 + 0) headOnBody.
Proof.
  unfold simulate.
  rewrite stepPhase_idle by (apply Rleb_false; cbn; lra).
  reflexivity.
Qed.

(** The player is within the radius of its first segment ... *)
Lemma headOnBody_near :
  exists seg,
    nth_error (tailSegments (simulate 0 headOnBody)) 0 = Some seg /\
    segmentNear (simulate 0 headOnBody) seg = true.
Proof.
  rewrite headOnBody_still. exists (vec3 0 (2 / 10) 0). split; [reflexivity|].
  unfold segmentNear. apply distanceTo_lt; cbn; lra.
Qed.

(** ... and away from the segments of index 3 and 4. *)
Lemma headOnBody_far (j : nat) (seg : Vector3 R) :
  (3 <= j)%nat ->
  nth_error (tailSegments (simulate 0 headOnBody)) j = Some seg ->
  segmentNear (simulate 0 headOnBody) seg = false.
Proof.
  rewrite headOnBody_still. intros Hj Hseg.
  destruct j as [|[|[|[|[|j]]]]]; try lia; cbn in Hseg.
  - injection Hseg as <-. unfold segmentNear. apply distanceTo_ge; cbn; lra.
  - injection Hseg as <-. unfold segmentNear. apply distanceTo_ge; cbn; lra.
  - destruct j; discriminate Hseg.
Qed.

(** In the sessions the page reaches the loop of line 417 never answers
    [true]: the player is 1.4 above the segments. *)
Lemma reachable_no_self_collision (page : Overlay) (rnd : nat -> R)
    (es : list (Event R)) (dt : R) :
  hitsSelf (simulate dt (run es (initScene page rnd))) = false.
Proof.
  destruct (reachable_grounded page rnd es) as (Hg & _).
  apply (@grounded_simulate dt _ Hg).
Qed.
End SelfCollisionReal.

(** C4. The loop of lines 417-423 starts at index 3: a frame of a running
    session ends by self-collision only on a segment of index 3 or more
    within the radius (0.4) of the player, and never when no such segment is
    within it, wherever the three segments nearest the head are; a segment
    of index 3 or more within the radius does end it when no enemy is near.
    The body a session reaches has 5 segments and 2 more for each food
    collected, for any arithmetic, the random numbers and the events: it
    never has 4, nor fewer than 5, at the check of any frame.  And over the
    reals no frame of a session the page reaches ends by self-collision,
    whatever the length of the body. *)
Theorem C4_near_head_segments_excluded :
  (forall (num : Type) (N : Number num) (T : Trig num) (dt : num) (s : State num),
     gameActive s = true ->
     (animate dt s = endGame msgSelf (simulate dt s) ->
      exists j seg,
        3 <= j /\ nth_error (tailSegments (simulate dt s)) j = Some seg /\
        segmentNear (simulate dt s) seg = true) /\
     ((forall j seg,
         3 <= j -> nth_error (tailSegments (simulate dt s)) j = Some seg ->
         segmentNear (simulate dt s) seg = false) ->
      animate dt s <> endGame msgSelf (simulate dt s)) /\
     (hitsEnemy (simulate dt s) = false ->
      (exists j seg,
         3 <= j /\ nth_error (tailSegments (simulate dt s)) j = Some seg /\
         segmentNear (simulate dt s) seg = true) ->
      animate dt s = endGame msgSelf (simulate dt s)))
  /\
  (forall (num : Type) (N : Number num) (T : Trig num)
          (page : Overlay) (rnd : nat -> num) (es : list (Event num)) (dt : num),
     let s := run es (initScene page rnd) in
     (exists k, length (tailSegments s) = 5 + 2 * k) /\
     (gameActive s = true ->
      (exists k, length (tailSegments (simulate dt s)) = 5 + 2 * k) /\
      length (tailSegments (simulate dt s)) <> 4))
  /\
  (forall (page : Overlay) (rnd : nat -> R) (es : list (Event R)) (dt : R),
     let s := run es (initScene page rnd) in
     gameActive s = true ->
     hitsSelf (simulate dt s) = false /\
     animate dt s <> endGame msgSelf (simulate dt s)).
Proof.
  split; [|split].
  - intros num N T dt s Ha. split; [|split].
    + intros E. apply hitsSelf_true. exact (self_collision_outcome dt s Ha E).
    + intros Hfar E.
      apply (self_collision_outcome dt s Ha), hitsSelf_true in E
        as (j & seg & Hj & Hjs & Hn).
      rewrite (Hfar j seg Hj Hjs) in Hn. discriminate Hn.
    + intros He Hnear. apply hitsSelf_true in Hnear.
      rewrite (animate_active _ _ Ha), He, Hnear. reflexivity.
  - intros num N T page rnd es dt s. split; [apply reachable_body|].
    intros Ha. rewrite (simulate_body dt s Ha).
    destruct (@reachable_body num N T page rnd (es ++ [Frame dt])) as (k & Hk).
    unfold run in Hk. rewrite fold_left_app in Hk. cbn [fold_left handle] in Hk.
    fold (run es (initScene page rnd)) in Hk. fold s in Hk.
    split; [now exists k | lia].
  - intros page rnd es dt s Ha.
    pose proof (reachable_no_self_collision page rnd es dt) as Hno. fold s in Hno.
    split; [exact Hno|]. intros E.
    rewrite (self_collision_outcome dt s Ha E) in Hno. discriminate Hno.
Qed.

(** The player on the first three segments of its body, the other two out
    of reach: the frame does not end by self-collision.  And the second
    frame of a session just started does not either. *)
Lemma C4_near_head_segments_excluded_witness :
  (exists seg,
     nth_error (tailSegments (simulate 0%R headOnBody)) 0 = Some seg /\
     segmentNear (simulate 0%R headOnBody) seg = true) /\
  animate 0%R headOnBody <> endGame msgSelf (simulate 0%R headOnBody) /\
  length (tailSegments
            (simulate 1%R (run [Start 1%R]
                             (initScene (mkOverlay true "" "" 0) (fun _ => 0%R)))))
  <> 4 /\
  animate 1%R (run [Start 1%R] (initScene (mkOverlay true "" "" 0) (fun _ => 0%R)))
  <> endGame msgSelf
       (simulate 1%R (run [Start 1%R]
                        (initScene (mkOverlay true "" "" 0) (fun _ => 0%R)))).
Proof.
  split; [exact headOnBody_near|]. split; [|split].
  - apply (proj1 C4_near_head_segments_excluded R Real RealTrig 0%R headOnBody eq_refl).
    exact headOnBody_far.
  - apply (proj1 (proj2 C4_near_head_segments_excluded) R Real RealTrig
             (mkOverlay true "" "" 0) (fun _ => 0%R) [Start 1%R] 1%R).
    apply startGame_running.
  - apply (proj2 (proj2 C4_near_head_segments_excluded)
             (mkOverlay true "" "" 0) (fun _ => 0%R) [Start 1%R] 1%R).
    apply startGame_running.
Defined.
